(** * ASP Classic to ASP.NET Core converter: a model of [backend/app.py]

    The service is orchestration around external parties: a git client, a
    chat-completion model, the filesystem and Python's standard library.
    The embedding keeps the control flow, the exception handling and the
    data flow of every function of [app.py], runs them in a state-and-error
    monad over an explicit world (filesystem, console, log of the requests
    sent to the model), and takes the external parties as an environment
    [env] of oracles and library functions.

    Conventions.
    - A Python [str] and a Python [bytes] are both a [string]; a character
      outside ASCII stands as its UTF-8 bytes, in the literals and wherever
      the model looks into a text (blanks, letter case).
    - An exception is an instance of a subclass of [Exception].
    - The filesystem holds regular files and directories only (no symbolic
      links, permissions or quotas), and every path that exists can be
      written; a path is resolved lexically, the way [os.path.normpath]
      reads it, from the root (so [a/..] is the directory that holds [a],
      also where [a] is a regular file and the system would refuse the
      path).
    - In [analyze_asp_project] the tasks handed to the thread pool run one
      after the other in the order of submission; the order in which tasks
      complete only decides the order of the records inside one bucket.
      The pool itself, with its bound on the worker threads and every order
      in which the threads can act, is modelled apart ([pool_step]); the
      sequential run is one of its schedules.  [print] writes its line in
      one piece.
    - The handler receives the parsed body of the request. *)

From Stdlib Require Import ZArith Ascii String SpecFloat.
From stdpp Require Import base option list strings pretty gmap fin_maps.

Local Open Scope Z_scope.

(** ** Python strings *)

Module Str.

Definition dq : string := String (ascii_of_nat 34) EmptyString.
Definition bslash : string := String (ascii_of_nat 92) EmptyString.
Definition slash : ascii := ascii_of_nat 47.

(** [s.startswith(p)] *)
Fixpoint startswith (p s : string) : bool :=
  match p, s with
  | EmptyString, _ => true
  | String _ _, EmptyString => false
  | String a p', String b s' => Ascii.eqb a b && startswith p' s'
  end.

(** [s.endswith(p)] *)
Fixpoint endswith (p s : string) : bool :=
  if String.eqb s p then true
  else match s with
       | EmptyString => false
       | String _ r => endswith p r
       end.

(** [s.replace(old, new)] for a non-empty [old]: the occurrences of [old]
    are consumed from left to right and do not overlap.  [skip] counts the
    characters of a matched occurrence that are still to be dropped. *)
Fixpoint replace_from (old new : string) (skip : nat) (s : string) : string :=
  match s with
  | EmptyString => EmptyString
  | String c r =>
      match skip with
      | S k => replace_from old new k r
      | O =>
          if startswith old s
          then new +:+ replace_from old new (String.length old - 1) r
          else String c (replace_from old new O r)
      end
  end.

Definition replace (old new s : string) : string := replace_from old new O s.

(** [str.lower] on one byte of a text in UTF-8: the letters of ASCII.  The
    bytes of a character outside ASCII are kept as they are, which
    changes no test of an ASCII ending: the only such characters whose
    lower case holds an ASCII letter are U+212A, which gives [k], and
    U+0130, which gives [i] followed by U+0307. *)
Definition lower_char (c : ascii) : ascii :=
  let n := nat_of_ascii c in
  if (65 <=? n)%nat && (n <=? 90)%nat then ascii_of_nat (n + 32) else c.

Fixpoint lower (s : string) : string :=
  match s with
  | EmptyString => EmptyString
  | String c r => String (lower_char c) (lower r)
  end.

(** [s.split('/')] *)
Fixpoint split_slash (s : string) : list string :=
  match s with
  | EmptyString => [EmptyString]
  | String c r =>
      if Ascii.eqb c slash then EmptyString :: split_slash r
      else match split_slash r with
           | h :: t => String c h :: t
           | [] => [String c EmptyString]
           end
  end.

(** ['/'.join(l)] *)
Fixpoint join_slash (l : list string) : string :=
  match l with
  | [] => EmptyString
  | [x] => x
  | x :: r => x +:+ String slash (join_slash r)
  end.

(** ['/' * n] *)
Fixpoint slashes (n : nat) : string :=
  match n with
  | O => EmptyString
  | S k => String slash (slashes k)
  end.

Fixpoint has_slash (s : string) : bool :=
  match s with
  | EmptyString => false
  | String c r => Ascii.eqb c slash || has_slash r
  end.

(** The blanks, as [str.isspace] and the class [\s] of a [str] pattern
    know them.  In ASCII they are the code points 9 to 13 and 28 to 32. *)
Definition is_space (c : ascii) : bool :=
  let n := nat_of_ascii c in
  ((9 <=? n)%nat && (n <=? 13)%nat) || ((28 <=? n)%nat && (n <=? 32)%nat).

(** The blanks that UTF-8 writes on two bytes: U+0085 and U+00A0. *)
Definition is_space2 (a b : ascii) : bool :=
  (nat_of_ascii a =? 194)%nat
  && ((nat_of_ascii b =? 133)%nat || (nat_of_ascii b =? 160)%nat).

(** The blanks that UTF-8 writes on three bytes: U+1680, U+2000 to U+200A,
    U+2028, U+2029, U+202F, U+205F and U+3000. *)
Definition is_space3 (a b c : ascii) : bool :=
  let x := nat_of_ascii a in
  let y := nat_of_ascii b in
  let z := nat_of_ascii c in
  ((x =? 225)%nat && (y =? 154)%nat && (z =? 128)%nat)
  || ((x =? 226)%nat && (y =? 128)%nat
      && (((128 <=? z)%nat && (z <=? 138)%nat)
          || (z =? 168)%nat || (z =? 169)%nat || (z =? 175)%nat))
  || ((x =? 226)%nat && (y =? 129)%nat && (z =? 159)%nat)
  || ((x =? 227)%nat && (y =? 128)%nat && (z =? 128)%nat).

(** [s] without the blanks it starts with: what is left once [\s*] has
    matched as much as it can. *)
Fixpoint skip_space (s : string) : string :=
  match s with
  | String a r =>
      if is_space a then skip_space r
      else
        match r with
        | String b r2 =>
            if is_space2 a b then skip_space r2
            else
              match r2 with
              | String c r3 => if is_space3 a b c then skip_space r3 else s
              | EmptyString => s
              end
        | EmptyString => s
        end
  | EmptyString => EmptyString
  end.

End Str.

(** ** Python values

    What [json.loads] returns and what the program passes around: [None],
    booleans, integers, floats, strings, lists and dictionaries with string
    keys (in insertion order). *)

#[warnings="-register-all"]
Inductive json : Type :=
| JNull
| JBool (b : bool)
| JInt (z : Z)
| JFloat (f : spec_float)
| JStr (s : string)
| JList (l : list json)
| JDict (d : list (string * json)).

(** Truth value of a Python object, as [if not x] reads it. *)
Definition truthy (v : json) : bool :=
  match v with
  | JNull => false
  | JBool b => b
  | JInt z => negb (z =? 0)
  | JFloat (S754_zero _) => false
  | JFloat _ => true
  | JStr s => negb (String.eqb s EmptyString)
  | JList l => match l with [] => false | _ => true end
  | JDict d => match d with [] => false | _ => true end
  end.

(** [type(v).__name__] *)
Definition type_name (v : json) : string :=
  match v with
  | JNull => "NoneType"
  | JBool _ => "bool"
  | JInt _ => "int"
  | JFloat _ => "float"
  | JStr _ => "str"
  | JList _ => "list"
  | JDict _ => "dict"
  end.

(** Lookup in a dictionary with string keys. *)
Fixpoint dict_lookup {A : Type} (k : string) (d : list (string * A)) : option A :=
  match d with
  | [] => None
  | (k', v) :: r => if String.eqb k' k then Some v else dict_lookup k r
  end.

Definition dict_keys {A : Type} (d : list (string * A)) : list string := d.*1.

(** ** Exceptions

    Every exception of the model derives from Python's [Exception].  A
    built-in or library exception carries its class and its message
    [str(e)]; FastAPI's [HTTPException] carries a status code and a detail,
    and Starlette prints it as [status: detail]. *)

Inductive exc_class : Type :=
| JSONDecodeError
| UnicodeDecodeError
| TypeError
| AttributeError
| KeyError
| FileNotFoundError
| FileExistsError
| NotADirectoryError
| IsADirectoryError
| OtherError (name : string).

Inductive exn : Type :=
| PyErr (c : exc_class) (msg : string)
| HTTPException (status_code : Z) (detail : string).

Definition str_exn (e : exn) : string :=
  match e with
  | PyErr _ m => m
  | HTTPException s d => pretty s +:+ ": " +:+ d
  end.

Definition is_JSONDecodeError (e : exn) : bool :=
  match e with PyErr JSONDecodeError _ => true | _ => false end.

Definition is_UnicodeDecodeError (e : exn) : bool :=
  match e with PyErr UnicodeDecodeError _ => true | _ => false end.

(** ** Paths ([posixpath]) *)

Module posixpath.

(** [os.path.join(a, b)] *)
Definition join (a b : string) : string :=
  if Str.startswith "/" b then b
  else if String.eqb a EmptyString || Str.endswith "/" a then a +:+ b
  else a +:+ String Str.slash b.

(** A name a directory entry can have. *)
Definition valid_nameb (c : string) : bool :=
  negb (String.eqb c EmptyString) && negb (String.eqb c ".")
  && negb (String.eqb c "..") && negb (Str.has_slash c).

(** One component of a path read against the components before it: empty
    components and [.] are dropped, [..] removes the previous one (and
    stays at the root). *)
Definition step (stk : list string) (c : string) : list string :=
  if String.eqb c EmptyString || String.eqb c "." then stk
  else if String.eqb c ".." then removelast stk
  else stk ++ [c].

(** The components of [os.path.abspath(p)], the working directory being
    the root. *)
Definition components (p : string) : list string :=
  fold_left step (Str.split_slash p) [].

Fixpoint drop_trailing_empty (l : list string) : list string :=
  match l with
  | [] => []
  | x :: r =>
      match drop_trailing_empty r with
      | [] => if String.eqb x EmptyString then [] else [x]
      | r' => x :: r'
      end
  end.

(** [os.path.dirname(p)]: everything up to the last slash, with the
    trailing slashes removed unless nothing else is left. *)
Definition dirname (p : string) : string :=
  let init := removelast (Str.split_slash p) in
  match drop_trailing_empty init with
  | [] => Str.slashes (length init)
  | l => Str.join_slash l
  end.

Fixpoint common_prefix_len (a b : list string) : nat :=
  match a, b with
  | x :: a', y :: b' => if String.eqb x y then S (common_prefix_len a' b') else O
  | _, _ => O
  end.

(** [os.path.relpath(path, start)] for a non-empty [path]. *)
Definition relpath (path start : string) : string :=
  let start_list := components start in
  let path_list := components path in
  let i := common_prefix_len start_list path_list in
  let rel_list := repeat ".." (length start_list - i) ++ drop i path_list in
  match rel_list with
  | [] => "."
  | x :: r => fold_left join r x
  end.

End posixpath.

(** ** The filesystem

    A finite map from absolute paths (lists of names) to nodes.  The root is
    the empty list; it is a directory and is not stored in the map. *)

Inductive node : Type :=
| NFile (data : string)
| NDir.

Abbreviation path := (list string).
Abbreviation filesystem := (gmap (list string) node).

Definition lookup_node (fs : filesystem) (p : path) : option node :=
  match p with
  | [] => Some NDir
  | _ => fs !! p
  end.

(** [p] without a leading [pre], when [pre] is a prefix of [p]. *)
Fixpoint strip_dir (pre p : path) : option path :=
  match pre, p with
  | [], _ => Some p
  | x :: pre', y :: p' => if String.eqb x y then strip_dir pre' p' else None
  | _ :: _, [] => None
  end.

Definition under (pre p : path) : bool :=
  match strip_dir pre p with Some _ => true | None => false end.

(** ** The environment: the standard library and the external parties

    [json_loads] answers [inl msg] when [json.loads] raises
    [JSONDecodeError] with message [msg].  [llm n prompt] is what the [n]-th
    call of [llm_chain.invoke] answers to [prompt]: the text of the reply, or
    the exception the client raises.  [git_clone url] is either the
    exception [subprocess.run(..., check=True)] raises or the tree git writes
    into the target directory: files with their bytes ([Some]) and
    directories ([None]), named relative to the target. *)

Inductive encoding : Type := utf_8 | windows_1252.

Record env : Type := Env {
  json_loads : string → string + json;
  json_dumps : nat → json → string;
  py_repr : json → string;
  decode : encoding → string → option string;
  encode_utf8 : string → string;
  zip_bytes : list (string * string) → string;
  llm : nat → string → exn + string;
  git_clone : string → exn + list (path * option string);
  tmp_suffix : nat → string;
  tempdir : string;
  home : string;
}.

(** [str(v)] *)
Definition py_str (E : env) (v : json) : string :=
  match v with
  | JStr s => s
  | _ => py_repr E v
  end.

(** ** The world and the monad of effects *)

Record world : Type := World {
  w_fs : filesystem;
  w_console : list string;   (* the lines printed, oldest first *)
  w_requests : list string;  (* the prompts sent to the model, oldest first *)
  w_tmp : nat;               (* how many temporary names were drawn *)
}.

Inductive result (A : Type) : Type :=
| Ok (a : A)
| Raise (e : exn).
Arguments Ok {A} a.
Arguments Raise {A} e.

Definition M (A : Type) : Type := world → result A * world.

Definition ret {A} (a : A) : M A := λ w, (Ok a, w).
Definition raise {A} (e : exn) : M A := λ w, (Raise e, w).
Definition bind {A B} (m : M A) (k : A → M B) : M B :=
  λ w, match m w with
       | (Ok a, w') => k a w'
       | (Raise e, w') => (Raise e, w')
       end.

Notation "x <- m ;; k" := (bind m (λ x, k))
  (at level 100, m at next level, right associativity).
Notation "m ;;; k" := (bind m (λ _, k))
  (at level 100, right associativity).

(** [try: body except ...: handler]: [handler e] is [None] when no clause
    of the statement matches [e], which then propagates. *)
Definition try_except {A} (body : M A) (handler : exn → option (M A)) : M A :=
  λ w, match body w with
       | (Ok a, w') => (Ok a, w')
       | (Raise e, w') =>
           match handler e with
           | Some h => h w'
           | None => (Raise e, w')
           end
       end.

(** [print(line)] *)
Definition print (line : string) : M unit :=
  λ w, (Ok tt, World (w_fs w) (w_console w ++ [line]) (w_requests w) (w_tmp w)).

Definition get_fs : M filesystem := λ w, (Ok (w_fs w), w).
Definition put_fs (fs : filesystem) : M unit :=
  λ w, (Ok tt, World fs (w_console w) (w_requests w) (w_tmp w)).

Fixpoint for_each {A} (l : list A) (body : A → M unit) : M unit :=
  match l with
  | [] => ret tt
  | x :: r => body x ;;; for_each r body
  end.

(** ** The application *)

Section App.

Variable E : env.

(** *** Operating system and standard library calls *)

(** An [OSError] of class [c] about [name]; the message is the one of
    [strerror], followed by the path the call was given. *)
Definition os_error (c : exc_class) (name : string) : exn :=
  let text :=
    match c with
    | FileNotFoundError => "[Errno 2] No such file or directory: "
    | FileExistsError => "[Errno 17] File exists: "
    | NotADirectoryError => "[Errno 20] Not a directory: "
    | IsADirectoryError => "[Errno 21] Is a directory: "
    | _ => "[Errno 5] Input/output error: "
    end in
  PyErr c (text +:+ py_repr E (JStr name)).

(** Creates the directories [names] one below the other, starting under
    [cur]; directories that exist are kept. *)
Fixpoint mkdirs (cur : path) (names : list string) (fs : filesystem)
  : option exc_class * filesystem :=
  match names with
  | [] => (None, fs)
  | c :: r =>
      match lookup_node fs (cur ++ [c]) with
      | Some NDir => mkdirs (cur ++ [c]) r fs
      | Some (NFile _) =>
          (Some (match r with [] => FileExistsError | _ => NotADirectoryError end), fs)
      | None => mkdirs (cur ++ [c]) r (<[cur ++ [c] := NDir]> fs)
      end
  end.

(** [os.makedirs(name, exist_ok=True)] *)
Definition makedirs (name : string) : M unit :=
  if String.eqb name EmptyString then raise (os_error FileNotFoundError name)
  else
    fs <- get_fs ;;
    match mkdirs [] (posixpath.components name) fs with
    | (None, fs') => put_fs fs'
    | (Some c, fs') => put_fs fs' ;;; raise (os_error c name)
    end.

(** [with open(file_path, "w") as f: f.write(data)], [data] being the
    bytes that reach the file. *)
Definition open_write (file_path data : string) : M unit :=
  if String.eqb file_path EmptyString then raise (os_error FileNotFoundError file_path)
  else
    fs <- get_fs ;;
    let p := posixpath.components file_path in
    match lookup_node fs p with
    | Some NDir => raise (os_error IsADirectoryError file_path)
    | _ =>
        match lookup_node fs (removelast p) with
        | Some NDir => put_fs (<[p := NFile data]> fs)
        | Some (NFile _) => raise (os_error NotADirectoryError file_path)
        | None => raise (os_error FileNotFoundError file_path)
        end
    end.

(** The bytes of the file at [file_path], as [open(file_path, "rb").read()]. *)
Definition read_bytes (file_path : string) : M string :=
  if String.eqb file_path EmptyString then raise (os_error FileNotFoundError file_path)
  else
    fs <- get_fs ;;
    match lookup_node fs (posixpath.components file_path) with
    | Some (NFile data) => ret data
    | Some NDir => raise (os_error IsADirectoryError file_path)
    | None => raise (os_error FileNotFoundError file_path)
    end.

(** [os.path.exists(p)] *)
Definition path_exists (p : string) : M bool :=
  fs <- get_fs ;;
  ret (negb (String.eqb p EmptyString)
       && match lookup_node fs (posixpath.components p) with Some _ => true | None => false end).

(** [tempfile.mkdtemp()]: a new directory in the temporary directory.  The
    candidate name comes from the environment; a candidate that is taken
    or is not a name is refused with [FileExistsError], the error Python
    ends with when it finds no usable name. *)
Definition mkdtemp : M string :=
  λ w,
    let name := "tmp" +:+ tmp_suffix E (w_tmp w) in
    let dir := posixpath.components (tempdir E) in
    let w' := World (w_fs w) (w_console w) (w_requests w) (S (w_tmp w)) in
    match lookup_node (w_fs w) dir with
    | Some NDir =>
        match w_fs w !! (dir ++ [name]) with
        | None =>
            if posixpath.valid_nameb name
            then (Ok (posixpath.join (tempdir E) name),
                  World (<[dir ++ [name] := NDir]> (w_fs w)) (w_console w)
                        (w_requests w) (S (w_tmp w)))
            else (Raise (PyErr FileExistsError
                           "[Errno 17] No usable temporary directory name found"), w')
        | Some _ =>
            (Raise (PyErr FileExistsError
                      "[Errno 17] No usable temporary directory name found"), w')
        end
    | _ => (Raise (os_error FileNotFoundError (tempdir E)), w')
    end.

(** [handle_remove_readonly(func, path, exc_info)], the error handler of
    [rmtree]: it changes the mode and retries only when [path] is not
    writable.  A path that exists is writable, so the error is dropped;
    for a path that does not exist [os.access] is false and [os.chmod]
    raises [FileNotFoundError]. *)
Definition handle_remove_readonly (p : string) : M unit :=
  fs <- get_fs ;;
  if String.eqb p EmptyString then raise (os_error FileNotFoundError p)
  else
    match lookup_node fs (posixpath.components p) with
    | Some _ => ret tt
    | None => raise (os_error FileNotFoundError p)
    end.

(** [shutil.rmtree(p, onerror=handle_remove_readonly)]: a directory goes
    with everything below it; every error of [rmtree] (the path is
    missing, or is a regular file, which then stays) is handed to the
    handler. *)
Definition rmtree (p : string) : M unit :=
  fs <- get_fs ;;
  if String.eqb p EmptyString then handle_remove_readonly p
  else
    match lookup_node fs (posixpath.components p) with
    | Some NDir =>
        put_fs (filter (λ kv, under (posixpath.components p) kv.1 = false) fs)
    | _ => handle_remove_readonly p
    end.

(** Materialises the tree of a clone under the directory [dest]. *)
Fixpoint install (dest : path) (tree : list (path * option string)) (fs : filesystem)
  : option filesystem :=
  match tree with
  | [] => Some fs
  | (rel, content) :: r =>
      match lookup_node fs dest with
      | Some NDir =>
          if forallb posixpath.valid_nameb rel then
            match content with
            | None =>
                match mkdirs dest rel fs with
                | (None, fs') => install dest r fs'
                | (Some _, _) => None
                end
            | Some data =>
                match rel with
                | [] => None
                | _ =>
                    match mkdirs dest (removelast rel) fs with
                    | (None, fs') =>
                        match fs' !! (dest ++ rel) with
                        | Some NDir => None
                        | _ => install dest r (<[dest ++ rel := NFile data]> fs')
                        end
                    | (Some _, _) => None
                    end
                end
            end
          else None
      | _ => None
      end
  end.

(** [subprocess.run(["git", "clone", github_url, dest], capture_output=True,
    text=True, check=True)]: an argument that is not a string is a
    [TypeError]; a failure of git is the exception of the environment; a
    tree that cannot be written is a failure of git as well. *)
Definition git_clone_into (github_url : json) (dest : string) : M unit :=
  match github_url with
  | JStr url =>
      match git_clone E url with
      | inl e => raise e
      | inr tree =>
          fs <- get_fs ;;
          match install (posixpath.components dest) tree fs with
          | Some fs' => put_fs fs'
          | None =>
              raise (PyErr (OtherError "CalledProcessError")
                       ("Command '"
                        +:+ py_repr E (JList [JStr "git"; JStr "clone"; JStr url; JStr dest])
                        +:+ "' returned non-zero exit status 128."))
          end
      end
  | v =>
      raise (PyErr TypeError
               ("expected str, bytes or os.PathLike object, not " +:+ type_name v))
  end.

(** One file that [os.walk(top)] reports, as the pair [(root, file)]: the
    directory names below [top] are joined to [top] one by one.  [prune]
    tells which chains of directory names the walk does not enter. *)
Definition walk_entry (top : string) (prune : list string → bool) (kv : path * node)
  : option (string * string) :=
  match kv.2 with
  | NDir => None
  | NFile _ =>
      match strip_dir (posixpath.components top) kv.1 with
      | Some rel =>
          match rel with
          | [] => None
          | _ =>
              if prune (removelast rel) then None
              else Some (fold_left posixpath.join (removelast rel) top,
                         List.last rel EmptyString)
          end
      | None => None
      end
  end.

(** The files of [for root, dirs, files in os.walk(top): for file in files],
    in the order the walk reports them: on a filesystem where every entry
    lies in a directory, the regular files below [top]. *)
Definition walk (fs : filesystem) (top : string) (prune : list string → bool)
  : list (string * string) :=
  if String.eqb top EmptyString then []
  else omap (walk_entry top prune) (map_to_list fs).

Definition no_prune (dirs : list string) : bool := false.

(** [if ".git" in dirs: dirs.remove(".git")] keeps the walk out of every
    directory named [.git]. *)
Definition prune_git (dirs : list string) : bool :=
  existsb (String.eqb ".git") dirs.

(** The loop that fills an archive (written three times in [app.py]):
<<
    for root, dirs, files in os.walk(top):
        for file in files:
            file_path = os.path.join(root, file)
            arcname = os.path.relpath(file_path, top)
            zipf.write(file_path, arcname)
>>
    [zipf.write] normalises [arcname]; on a result of [relpath] that
    changes nothing. *)
Fixpoint zip_write_all (top : string) (files : list (string * string))
  (zipf : list (string * string)) : M (list (string * string)) :=
  match files with
  | [] => ret zipf
  | (root, file) :: r =>
      let file_path := posixpath.join root file in
      let arcname := posixpath.relpath file_path top in
      data <- read_bytes file_path ;;
      zip_write_all top r (zipf ++ [(arcname, data)])
  end.

Definition zip_tree (top : string) : M (list (string * string)) :=
  fs <- get_fs ;;
  zip_write_all top (walk fs top no_prune) [].

(** [llm_chain.invoke({"input": prompt})] *)
Definition llm_chain_invoke (prompt : string) : M string :=
  λ w,
    let w' := World (w_fs w) (w_console w) (w_requests w ++ [prompt]) (w_tmp w) in
    match llm E (length (w_requests w)) prompt with
    | inr reply => (Ok reply, w')
    | inl e => (Raise e, w')
    end.

(** [json.loads(s)] *)
Definition loads (s : string) : M json :=
  match json_loads E s with
  | inr v => ret v
  | inl msg => raise (PyErr JSONDecodeError msg)
  end.

(** The lazy body [.*?}] of the pattern, read after the opening brace:
    the text up to the first closing brace that blanks and a fence follow. *)
Fixpoint lazy_body (s : string) : option string :=
  match s with
  | EmptyString => None
  | String c r =>
      if Ascii.eqb c "}" && Str.startswith "```" (Str.skip_space r)
      then Some (String c EmptyString)
      else option_map (String c) (lazy_body r)
  end.

(** A match of [```json\s*({.*?})\s*```] that starts at the head of [s]:
    its group 1. *)
Definition match_here (s : string) : option string :=
  if Str.startswith "```json" s then
    match Str.skip_space (String.substring 7 (String.length s - 7) s) with
    | String c r =>
        if Ascii.eqb c "{" then option_map (String c) (lazy_body r) else None
    | EmptyString => None
    end
  else None.

(** [re.search(r'```json\s*({.*?})\s*```', s, re.DOTALL)]: group 1 of the
    leftmost match. *)
Fixpoint re_search_json (s : string) : option string :=
  match match_here s with
  | Some g => Some g
  | None =>
      match s with
      | EmptyString => None
      | String _ r => re_search_json r
      end
  end.

(** *** [classify_file_with_openai] *)

Definition escape (s : string) : string :=
  Str.replace Str.dq (Str.bslash +:+ Str.dq)
    (Str.replace Str.bslash (Str.bslash +:+ Str.bslash) s).

(** The prompt of one classification request (the f-string of
    [classify_file_with_openai]). *)
Definition classification_prompt (file_path content : string) : string :=
  let safe_content := escape content in
  let safe_file_path := escape file_path in
  String.concat EmptyString
    ["
        ## **File Classification for ASP Classic to ASP.NET Core MVC Migration**
        **File Path:** "; safe_file_path; "
        **File Content:**
        ```
        "; safe_content; "
        ```
        ### **Classification Criteria:**
        1. **Files that need full conversion** → ASP pages (.asp), business logic, data access
        2. **Files that need minor modifications** → HTML templates, utility functions
        3. **Files that are not needed** → Deprecated features, old configurations

        ### **Return JSON Format:**
        ```json
        ";
     json_dumps E 2
       (JDict [("file_path", JStr safe_file_path);
               ("classification", JStr "conversion_needed");
               ("reason", JStr "Detailed explanation of why this classification was chosen.");
               ("category", JStr "Views");
               ("conversion_type", JStr "Razor View")]); "
        ```
        "].

(** The record returned when the reply is not JSON. *)
Definition default_classification (file_path msg : string) : json :=
  JDict [("file_path", JStr file_path);
         ("classification", JStr "unknown");
         ("reason", JStr ("JSON parsing error: " +:+ msg));
         ("category", JStr "Other");
         ("conversion_type", JStr "Unknown")].

Definition classify_file_with_openai (file_path content : string) : M json :=
  try_except
    (let prompt := classification_prompt file_path content in
     print ("Classifying file: " +:+ file_path) ;;;
     response <- llm_chain_invoke prompt ;;
     match re_search_json response with
     | Some group1 => loads group1
     | None => loads response
     end)
    (λ e,
       if is_JSONDecodeError e
       then Some (print ("JSON Decode Error: " +:+ str_exn e) ;;;
                  ret (default_classification file_path (str_exn e)))
       else None).

(** *** [read_file_content] *)

(** [with open(file_path, "r", encoding=enc) as file: return file.read()] *)
Definition read_text (enc : encoding) (file_path : string) : M string :=
  data <- read_bytes file_path ;;
  match decode E enc data with
  | Some text => ret text
  | None =>
      raise (PyErr UnicodeDecodeError
               ("'" +:+ match enc with utf_8 => "utf-8" | windows_1252 => "charmap" end
                +:+ "' codec can't decode bytes"))
  end.

Definition read_file_content (file_path : string) : M (option string) :=
  try_except
    (content <- read_text utf_8 file_path ;; ret (Some content))
    (λ e,
       if is_UnicodeDecodeError e
       then Some (try_except
                    (content <- read_text windows_1252 file_path ;; ret (Some content))
                    (λ _, Some (print ("Skipping binary file: " +:+ file_path) ;;;
                                ret None)))
       else Some (print ("Failed to read file " +:+ file_path +:+ ": " +:+ str_exn e) ;;;
                  ret None)).

(** *** [analyze_asp_project] *)

(** [project_structure]: a dictionary from category to the list of the
    records filed under it. *)
Definition initial_structure : list (string * list json) :=
  [("Views", []); ("Controllers", []); ("Models", []);
   ("Configurations", []); ("Other", [])].

(** [project_structure[category].append(record)] *)
Fixpoint bucket_append (category : string) (record : json)
  (ps : list (string * list json)) : list (string * list json) :=
  match ps with
  | [] => []
  | (k, l) :: r =>
      if String.eqb k category then (k, l ++ [record]) :: r
      else (k, l) :: bucket_append category record r
  end.

(** [d.get(key, default)] on an arbitrary value *)
Definition get_or (d : json) (key : string) (default : json) : M json :=
  match d with
  | JDict items =>
      ret (match dict_lookup key items with Some v => v | None => default end)
  | v =>
      raise (PyErr AttributeError
               ("'" +:+ type_name v +:+ "' object has no attribute 'get'"))
  end.

(** [d[key]] on a dictionary *)
Definition getitem (d : json) (key : string) : M json :=
  match d with
  | JDict items =>
      match dict_lookup key items with
      | Some v => ret v
      | None => raise (PyErr KeyError ("'" +:+ key +:+ "'"))
      end
  | v =>
      raise (PyErr TypeError ("'" +:+ type_name v +:+ "' object is not subscriptable"))
  end.

(** [category in project_structure]: the key that matches, if one does.
    Lists and dictionaries cannot be hashed. *)
Definition key_in (category : json) (ps : list (string * list json))
  : M (option string) :=
  match category with
  | JStr c =>
      ret (match dict_lookup c ps with Some _ => Some c | None => None end)
  | JList _ | JDict _ =>
      raise (PyErr TypeError ("unhashable type: '" +:+ type_name category +:+ "'"))
  | _ => ret None
  end.

(** The end of the closure [analyze_file], from the classification on:
    the record is filed under the category when that is a key of
    [project_structure]; there is no [else]. *)
Definition file_record (file_path content : string) (classification : json)
  (project_structure : list (string * list json)) : M (list (string * list json)) :=
  category <- get_or classification "category" (JStr "Other") ;;
  found <- key_in category project_structure ;;
  match found with
  | Some key =>
      c <- getitem classification "classification" ;;
      r <- getitem classification "reason" ;;
      t <- get_or classification "conversion_type" (JStr "Unknown") ;;
      ret (bucket_append key
             (JDict [("file_path", JStr file_path);
                     ("classification", c);
                     ("reason", r);
                     ("conversion_type", t);
                     ("content", JStr content)])
             project_structure)
  | None => ret project_structure
  end.

(** The closure [analyze_file].  It changes [project_structure] by its last
    action only, so the structure it returns is the changed one, and a task
    that raises leaves the structure as it found it. *)
Definition analyze_file (file_path : string) (project_structure : list (string * list json))
  : M (list (string * list json)) :=
  content <- read_file_content file_path ;;
  match content with
  | None => ret project_structure
  | Some content =>
      if String.eqb content EmptyString then ret project_structure
      else
        classification <- classify_file_with_openai file_path content ;;
        file_record file_path content classification project_structure
  end.

(** [file.lower().endswith(('.asp', '.asa', '.inc', '.html', '.css', '.js'))] *)
Definition has_source_extension (file : string) : bool :=
  existsb (λ ext, Str.endswith ext (Str.lower file))
    [".asp"; ".asa"; ".inc"; ".html"; ".css"; ".js"].

(** The file paths for which a task is submitted. *)
Definition submitted_files (fs : filesystem) (project_path : string) : list string :=
  map (λ rf, posixpath.join rf.1 rf.2)
    (filter (λ rf, has_source_extension rf.2 = true) (walk fs project_path prune_git)).

(** The tasks of the executor, each run to its end: a future holds the
    exception of its task, if the task raised one. *)
Fixpoint run_tasks (file_paths : list string) (project_structure : list (string * list json))
  : M (list (option exn) * list (string * list json)) :=
  match file_paths with
  | [] => ret ([], project_structure)
  | file_path :: r =>
      λ w,
        match analyze_file file_path project_structure w with
        | (Ok ps', w') =>
            (x <- run_tasks r ps' ;; ret (None :: x.1, x.2)) w'
        | (Raise e, w') =>
            (x <- run_tasks r project_structure ;; ret (Some e :: x.1, x.2)) w'
        end
  end.

Definition analyze_asp_project (project_path : string) : M (list (string * list json)) :=
  fs <- get_fs ;;
  x <- run_tasks (submitted_files fs project_path) initial_structure ;;
  for_each x.1
    (λ future,
       match future with
       | Some e => print ("Error processing file: " +:+ str_exn e)
       | None => ret tt
       end) ;;;
  ret x.2.

(** *** [generate_mvc_with_openai] *)

(** The prompt of the generation request (the f-string of
    [generate_mvc_with_openai]). *)
Definition generation_prompt (project_name formatted_analysis_data : string) : string :=
  String.concat EmptyString
  ["
        ## **Complete ASP Classic to ASP.NET Core MVC Migration for ";
   project_name;
   "**
        ### **Analysis Data:**
        ```json
        ";
   formatted_analysis_data;
   "
        ```

        ### **Required Structure:**
        ``` 
        ├── Controllers/
        │   └── HomeController.cs
        ├── Models/
        │   └── [DomainModel].cs  # Each domain model should have its own file like UserEntity.cs, ProductEntity.cs
        ├── Views/
        │   ├── Shared/
        │   │   └── _Layout.cshtml
        │   └── Home/
        │       └── Index.cshtml
        ├── wwwroot/
        │   ├── css/
        │   │   └── [styles].css   # Ensure styles are included
        │   ├── js/
        │   │   └── [scripts].js   # Ensure JS files are added
        │   └── lib/
        ├── Data/
        │   └──ApplicationDbContext.cs
        ├── Services/
        │   └── Service.cs
        ├── Properties/
        │   └── launchSettings.json
        ├── appsettings.json
        ├── Program.cs
        ├── ";
   project_name;
   "Project.csproj
        └── ";
   project_name;
   "Solution.sln
        ```

        ### **Code Generation Instructions:**

        1. **Ensure Proper Database Setup:**
            - **In `Data/ApplicationDbContext.cs`:**
              - Create the `ApplicationDbContext` class and extend `DbContext`.
              - Ensure the `DbContext` is properly configured for Entity Framework Core.
              - If you're using SQL Server, reference `Microsoft.EntityFrameworkCore.SqlServer`.

        2. **Ensure Proper Controller and Service Naming Conventions:**
            - **In `Controllers/HomeController.cs`:**
              - Use the `HomeController` naming convention.
              - Implement the necessary actions to handle routing and views.

        3. **Model Generation:**
            - **In `Models/[DomainModel].cs`:**
              - For each domain model (e.g., `User`, `Product`, etc.), generate a corresponding `.cs` file like `UserEntity.cs` or `ProductEntity.cs`.
              - Ensure models are compatible with Entity Framework Core (e.g., `DbSet<T>`).
              - Define properties that match the fields found in the analysis data (e.g., `FirstName`, `LastName`, `Email`, etc.).
              - Initialize non-nullable properties or mark them as nullable.

        4. **View Generation:**
            - **In `Views/Home/Index.cshtml`:**
              - Generate the view for `HomeController.Index`.
              - Include necessary layout and views structure.
              - Ensure references to CSS and JS are included in the layout.

        5. **CSS and JS Files:**
            - **In `wwwroot/css/`:**
              - Ensure that CSS files are generated for styling purposes.
              - Add a sample `styles.css` file in the `wwwroot/css/` folder.
            - **In `wwwroot/js/`:**
              - Add JavaScript files for any front-end functionality. Create `scripts.js` or relevant files to handle interactions.

        6. **AppSettings and Configuration:**
            - **In `appsettings.json`:**
              - Add the connection string for the database.

        7. **Program.cs Setup:**
            - Configure `ApplicationDbContext` in the `Program.cs` for dependency injection.
            - Register required services like MVC and EF Core.
            - **Integrate Swagger** in the `Program.cs` to enable API documentation.
            - Using `Microsoft.AspNetCore.Builder;` and `Microsoft.Extensions.DependencyInjection;` as imports.

        8. **Ensure that the following files are correctly populated:**
            - `";
   project_name;
   "Project.csproj`: Add references to `Microsoft.EntityFrameworkCore` and `Microsoft.EntityFrameworkCore.SqlServer`.
            - `launchSettings.json`: Configure appropriate environment settings for development.

        ### **Generated Code Example:**
        For each model in the analysis data, ensure that an entity class file is created in `Models/` like:

        - **`UserEntity.cs`:**
        ```csharp
        public class UserEntity
        {
            public string? FirstName { get; set; }
            public string? LastName { get; set; }
            public string? Email { get; set; }
            public string? Phone { get; set; }
        }
        ```

        - **`ProductEntity.cs`:**
        ```csharp
        public class ProductEntity
        {
            public string? Name { get; set; }
            public decimal? Price { get; set; }
            public int? Stock { get; set; }
        }
        ```

        ### **Swagger Integration:**
        **In `Program.cs`:**
        - Add Swagger services and middleware to the pipeline to enable API documentation:

        ```csharp
        public class Program
        {
            public static void Main(string[] args)
            {
                var builder = WebApplication.CreateBuilder(args);

                // Add services to the container.
                builder.Services.AddControllersWithViews();
                builder.Services.AddDbContext<ApplicationDbContext>(options =>
                    options.UseSqlServer(builder.Configuration.GetConnectionString(";
   Str.dq;
   "DefaultConnection";
   Str.dq;
   ")));

                // Register Swagger for API documentation
                builder.Services.AddEndpointsApiExplorer();
                builder.Services.AddSwaggerGen();

                var app = builder.Build();

                // Configure the HTTP request pipeline.
                if (app.Environment.IsDevelopment())
                {
                    app.UseDeveloperExceptionPage();
                    app.UseSwagger();  // Enable Swagger UI in Development
                    app.UseSwaggerUI();  // Swagger UI to visualize API docs
                }
                else
                {
                    app.UseExceptionHandler(";
   Str.dq;
   "/Home/Error";
   Str.dq;
   ");
                    app.UseHsts();
                }

                app.UseHttpsRedirection();
                app.UseStaticFiles();

                app.UseRouting();

                app.UseAuthorization();

                app.MapControllerRoute(
                    name: ";
   Str.dq;
   "default";
   Str.dq;
   ",
                    pattern: ";
   Str.dq;
   "{controller=Home}/{action=Index}/{id?}";
   Str.dq;
   ");

                app.Run();
            }
        }
        ```

        ### **Fixing Model Issues:**
        - **In `UserEntity.cs`:**
            - Ensure that the properties are initialized in the constructor or marked as nullable if required.

        ```csharp
        public class UserEntity
        {
            public string? FirstName { get; set; }
            public string? LastName { get; set; }
            public string? Email { get; set; }
            public string? Phone { get; set; }
        }
        ```

        ### **Generated Code Example:**
        - **`ApplicationDbContext.cs`**
        ```csharp
        public class ApplicationDbContext : DbContext
        {
            public ApplicationDbContext(DbContextOptions<ApplicationDbContext> options)
                : base(options) { }

            public DbSet<UserEntity> Users { get; set; }
            public DbSet<ProductEntity> Products { get; set; }
        }
        ```

        - **`UserService.cs`**
        ```csharp
        public class UserService
        {
            private readonly ApplicationDbContext _context;

            public UserService(ApplicationDbContext context)
            {
                _context = context;
            }

            public async Task<List<UserEntity>> GetUsersAsync()
            {
                return await _context.Users.ToListAsync();
            }
        }
        ```

        ### **CSS and JS Example:**
        - **`wwwroot/css/styles.css`:**
        ```css
        body {
            font-family: Arial, sans-serif;
            background-color: #f4f4f4;
        }

        h1 {
            color: #333;
        }
        ```

        - **`wwwroot/js/scripts.js`:**
        ```javascript
        document.addEventListener(";
   Str.dq;
   "DOMContentLoaded";
   Str.dq;
   ", function() {
            console.log(";
   Str.dq;
   "Page loaded!";
   Str.dq;
   ");
        });
        ```

        Return a JSON object where:
        - Each key is a file path.
        - Each value is the full content of the file.
        "].

Definition structure_to_json (ps : list (string * list json)) : json :=
  JDict (map (λ kl, (kl.1, JList kl.2)) ps).

(** [project_guid = str(uuid.uuid4())] is computed and never used; it has
    no effect and is left out. *)
Definition generate_mvc_with_openai (analysis_data : list (string * list json))
  (project_name : string) : M json :=
  try_except
    (let formatted_analysis_data := json_dumps E 2 (structure_to_json analysis_data) in
     let prompt := generation_prompt project_name formatted_analysis_data in
     print ("Generating MVC project files for " +:+ project_name +:+ " with analysis data.") ;;;
     response <- llm_chain_invoke prompt ;;
     print ("Raw OpenAI Response: " +:+ response) ;;;
     match re_search_json response with
     | Some group1 => loads group1
     | None => loads response
     end)
    (λ e,
       if is_JSONDecodeError e
       then Some (print "Error generating MVC project files" ;;; ret (JDict []))
       else None).

(** *** [save_zip_to_downloads] *)

(** [str(Path.home() / "Downloads")] *)
Definition downloads_folder : string := posixpath.join (home E) "Downloads".

Definition save_zip_to_downloads (project_dir zip_file_name : string) : M unit :=
  zip_buffer <- zip_tree project_dir ;;
  let zip_file_path := posixpath.join downloads_folder zip_file_name in
  open_write zip_file_path (zip_bytes E zip_buffer) ;;;
  print ("Project zipped successfully to " +:+ zip_file_path).

(** *** [clone_and_zip_repo]

    The function returns the pair [(zip_path, temp_clone_path)] or the
    pair [(None, None)]: here [Some (zip_path, temp_clone_path)] or [None].
    The test of [result.returncode] after [subprocess.run(..., check=True)]
    cannot fail and is left out.  [zipfile.ZipFile(zip_path, 'w')] creates
    the file empty before the walk; its bytes are written when the
    [with] block ends. *)
Definition clone_and_zip_repo (github_url : json) : M (option (string * string)) :=
  try_except
    (temp_clone_path <- mkdtemp ;;
     print ("Cloning repository from " +:+ py_str E github_url +:+ " to "
            +:+ temp_clone_path +:+ "...") ;;;
     git_clone_into github_url temp_clone_path ;;;
     print "Repository cloned successfully." ;;;
     let zip_path := posixpath.join (tempdir E) "cloned_repo.zip" in
     open_write zip_path EmptyString ;;;
     zipf <- zip_tree temp_clone_path ;;
     open_write zip_path (zip_bytes E zipf) ;;;
     print ("Repository zipped successfully to " +:+ zip_path +:+ ".") ;;;
     ret (Some (zip_path, temp_clone_path)))
    (λ e,
       Some (print ("Failed to clone and zip repository: " +:+ str_exn e) ;;;
             ret None)).

(** *** The endpoint *)

(** A [StreamingResponse] over the archive held in [zip_buffer]: the
    entries of the archive, each a name and the bytes stored under it. *)
Record response : Type := StreamingResponse {
  body : list (string * string);
  media_type : string;
  headers : list (string * string);
}.

(** [github_url.split('/')[-1].replace('.git', '')] *)
Definition project_name_of (github_url : string) : string :=
  Str.replace ".git" EmptyString (List.last (Str.split_slash github_url) EmptyString).

(** The text written for one value of the mapping. *)
Definition file_text (content : json) : string :=
  match content with
  | JDict _ => json_dumps E 4 content
  | JStr s => s
  | _ => py_str E content
  end.

(** The body of the loop [for relative_path, content in mvc_content.items()]. *)
Definition write_project_file (project_dir : string) (item : string * json) : M unit :=
  let file_path := posixpath.join project_dir item.1 in
  makedirs (posixpath.dirname file_path) ;;;
  open_write file_path (encode_utf8 E (file_text item.2)).

(** [mvc_content.items()] *)
Definition items (v : json) : M (list (string * json)) :=
  match v with
  | JDict d => ret d
  | _ =>
      raise (PyErr AttributeError
               ("'" +:+ type_name v +:+ "' object has no attribute 'items'"))
  end.

(** [github_url.split('/')] on what the request carried *)
Definition url_text (github_url : json) : M string :=
  match github_url with
  | JStr s => ret s
  | v =>
      raise (PyErr AttributeError
               ("'" +:+ type_name v +:+ "' object has no attribute 'split'"))
  end.

(** The first half of the statements under [try:]: clone, analyse,
    generate.  It hands on [temp_clone_path], [project_name] and
    [mvc_content]. *)
Definition generate_project (github_url : json) : M (string * string * json) :=
  cloned <- clone_and_zip_repo github_url ;;
  match cloned with
  | None => raise (HTTPException 500 "Failed to clone repository")
  | Some (zip_path, temp_clone_path) =>
      if String.eqb zip_path EmptyString
      then raise (HTTPException 500 "Failed to clone repository")
      else
        asp_structure <- analyze_asp_project temp_clone_path ;;
        url <- url_text github_url ;;
        let project_name := project_name_of url in
        mvc_content <- generate_mvc_with_openai asp_structure project_name ;;
        ret (temp_clone_path, project_name, mvc_content)
  end.

(** The second half: write the files, build the archive, save a copy,
    clean up, respond. *)
Definition deliver_project (temp_clone_path project_name : string) (mvc_content : json)
  : M response :=
  output_dir <- mkdtemp ;;
  let project_dir := posixpath.join output_dir project_name in
  makedirs project_dir ;;;
  files <- items mvc_content ;;
  for_each files (write_project_file project_dir) ;;;
  zip_buffer <- zip_tree project_dir ;;
  save_zip_to_downloads project_dir (project_name +:+ ".zip") ;;;
  clone_exists <- path_exists temp_clone_path ;;
  (if clone_exists then rmtree temp_clone_path else ret tt) ;;;
  rmtree output_dir ;;;
  ret (StreamingResponse zip_buffer "application/zip"
         [("Content-Disposition",
           "attachment; filename=" +:+ project_name +:+ "_mvc_project.zip")]).

(** The statements under [try:] in [process_github]. *)
Definition process_github_try (github_url : json) : M response :=
  x <- generate_project github_url ;;
  deliver_project x.1.1 x.1.2 x.2.

(** [process_github], on the parsed body [data] of the request. *)
Definition process_github (data : json) : M response :=
  github_url <- get_or data "githubUrl" JNull ;;
  if negb (truthy github_url)
  then raise (HTTPException 400 "GitHub URL is required")
  else
    try_except (process_github_try github_url)
      (λ e,
         Some (print ("Error processing GitHub URL: " +:+ str_exn e) ;;;
               raise (HTTPException 500 (str_exn e)))).

(** *** The application object

    What answers a route: one of the four pages that FastAPI serves for
    the documentation of an application, or a handler of the program. *)
Inductive endpoint : Type :=
| openapi
| swagger_ui_html
| swagger_ui_redirect
| redoc_html
| handler (f : json → M response).

Record route : Type := Route {
  route_path : string;
  route_methods : list string;
  route_endpoint : endpoint;
}.

(** [FastAPI()]: with the default arguments ([openapi_url="/openapi.json"],
    [docs_url="/docs"], [redoc_url="/redoc"] and
    [swagger_ui_oauth2_redirect_url="/docs/oauth2-redirect"]) the
    constructor registers the four routes of the documentation; each
    answers GET, to which Starlette adds HEAD. *)
Definition FastAPI : list route :=
  [Route "/openapi.json" ["GET"; "HEAD"] openapi;
   Route "/docs" ["GET"; "HEAD"] swagger_ui_html;
   Route "/docs/oauth2-redirect" ["GET"; "HEAD"] swagger_ui_redirect;
   Route "/redoc" ["GET"; "HEAD"] redoc_html].

(** [app.add_middleware(CORSMiddleware, ...)] wraps the application and
    registers no route. *)
Definition add_middleware (app : list route) : list route := app.

(** [@app.post(path)] on the function [f] *)
Definition post (path : string) (f : json → M response) (app : list route)
  : list route :=
  app ++ [Route path ["POST"] (handler f)].

(** The routes of [app] once the module is loaded. *)
Definition routes : list route :=
  post "/process-github" process_github (add_middleware FastAPI).

(** The routes that the program has written a handler for. *)
Definition is_handler (r : route) : bool :=
  match route_endpoint r with
  | handler _ => true
  | _ => false
  end.

End App.

(** ** Notions used in the statements *)

(** The text handed to [json.loads]: group 1 of the fenced block when the
    pattern matches, the whole reply otherwise. *)
Definition json_text (response : string) : string :=
  match re_search_json response with
  | Some group1 => group1
  | None => response
  end.

(** The bytes of the regular file at [file_path], if there is one. *)
Definition file_bytes (fs : filesystem) (file_path : string) : option string :=
  if String.eqb file_path EmptyString then None
  else match lookup_node fs (posixpath.components file_path) with
       | Some (NFile data) => Some data
       | _ => None
       end.

(** What [read_file_content] returns: the text of the file, decoded as
    UTF-8 or else as windows-1252. *)
Definition readable_content (E : env) (fs : filesystem) (file_path : string)
  : option string :=
  match file_bytes fs file_path with
  | None => None
  | Some data =>
      match decode E utf_8 data with
      | Some text => Some text
      | None => decode E windows_1252 data
      end
  end.

(** The submitted files that have a text to classify, with that text. *)
Definition classified_files (E : env) (fs : filesystem) (project_path : string)
  : list (string * string) :=
  omap (λ file_path,
          match readable_content E fs file_path with
          | Some content =>
              if String.eqb content EmptyString then None else Some (file_path, content)
          | None => None
          end)
    (submitted_files fs project_path).

(** The lines printed for the futures that hold an exception. *)
Definition future_lines (futures : list (option exn)) : list string :=
  omap (λ future, (λ e, "Error processing file: " +:+ str_exn e) <$> future) futures.

(** [classification.get("category", "Other")] on a dictionary *)
Definition category_of (classification : list (string * json)) : json :=
  match dict_lookup "category" classification with
  | Some v => v
  | None => JStr "Other"
  end.

Definition bucket_names : list string :=
  ["Views"; "Controllers"; "Models"; "Configurations"; "Other"].

(** The path [tempfile.mkdtemp()] returns for the [n]-th temporary name. *)
Definition tmp_path (E : env) (n : nat) : string :=
  posixpath.join (tempdir E) ("tmp" +:+ tmp_suffix E n).

(** Every entry lies in a directory. *)
Definition fs_wf (fs : filesystem) : Prop :=
  map_Forall (λ p _, lookup_node fs (removelast p) = Some NDir) fs.

(** A name a directory entry can have; a key in normal form: names
    separated by single slashes. *)
Definition valid_name (c : string) : Prop := posixpath.valid_nameb c = true.

Definition clean_key (k : string) : Prop :=
  forallb posixpath.valid_nameb (Str.split_slash k) = true.

(** Directories stay where they are. *)
Definition dirs_persist (fs fs' : filesystem) : Prop :=
  ∀ p, lookup_node fs p = Some NDir → lookup_node fs' p = Some NDir.

(** A property of worlds that a part of the program keeps, whatever it
    returns or raises. *)
Definition stable (R : world → world → Prop) {A} (m : M A) : Prop :=
  ∀ w, R w (m w).2.

(** Nothing but the console changes. *)
Definition only_prints (w w' : world) : Prop :=
  w_fs w' = w_fs w ∧ w_tmp w' = w_tmp w ∧ w_requests w' = w_requests w.

(** The filesystem and the count of temporary names stay as they are. *)
Definition same_fs (w w' : world) : Prop :=
  w_fs w' = w_fs w ∧ w_tmp w' = w_tmp w.

(** The filesystem stays well formed, keeps its directories, and no
    temporary name is drawn. *)
Definition grows (w w' : world) : Prop :=
  (fs_wf (w_fs w) → fs_wf (w_fs w'))
  ∧ dirs_persist (w_fs w) (w_fs w')
  ∧ w_tmp w' = w_tmp w.

(** The archive entry of a file the walk of [top] reports: its name
    relative to [top] and its bytes. *)
Definition entry_of (fs : filesystem) (top : string) (rf : string * string)
  : option (string * string) :=
  let file_path := posixpath.join rf.1 rf.2 in
  match file_bytes fs file_path with
  | Some data => Some (posixpath.relpath file_path top, data)
  | None => None
  end.

(** The archive entry the mapping asks for under one key. *)
Definition requested_entry (E : env) (item : string * json) : string * string :=
  (item.1, encode_utf8 E (file_text E item.2)).

(** The files below [Q] are those written for the items done so far. *)
Definition written (E : env) (Q : path) (fs : filesystem) (done : list (string * json))
  : Prop :=
  ∀ q data,
    under Q q = true →
    (fs !! q = Some (NFile data)
     ↔ ∃ item, item ∈ done ∧ q = Q ++ Str.split_slash item.1
               ∧ data = encode_utf8 E (file_text E item.2)).

(** ** A concrete environment

    One small world on which the program runs to its end, for the examples
    below.  Its library functions agree with Python's on the texts the
    examples use: [json.loads] and [json.dumps] on the few values listed,
    the codecs on ASCII text and on the byte [0x81], which neither UTF-8 nor
    windows-1252 decodes. *)

Module Demo.

(** Text with single quotes standing for double quotes. *)
Definition q (s : string) : string := Str.replace "'" Str.dq s.

Definition classification_reply : string :=
  q "Here is the classification:
```json
{'file_path': 'index.asp', 'classification': 'conversion_needed', 'reason': 'page', 'category': 'Views', 'conversion_type': 'Razor View'}
```".

Definition classification_json : string :=
  q "{'file_path': 'index.asp', 'classification': 'conversion_needed', 'reason': 'page', 'category': 'Views', 'conversion_type': 'Razor View'}".

Definition classification_value : json :=
  JDict [("file_path", JStr "index.asp");
         ("classification", JStr "conversion_needed");
         ("reason", JStr "page");
         ("category", JStr "Views");
         ("conversion_type", JStr "Razor View")].

Definition generation_reply (key : string) : string :=
  q "{'" +:+ key +:+ q "': 'var app = 1;'}".

Definition generation_value (key : string) : json :=
  JDict [(key, JStr "var app = 1;")].

(** The replies the examples use, with their values. *)
Definition loads_table : list (string * json) :=
  [(classification_json, classification_value);
   (generation_reply "Program.cs", generation_value "Program.cs");
   (generation_reply "./Program.cs", generation_value "./Program.cs");
   (generation_reply "Controllers/HomeController.cs",
    generation_value "Controllers/HomeController.cs")].

Definition parse (s : string) : string + json :=
  match dict_lookup s loads_table with
  | Some v => inr v
  | None => inl "Expecting value: line 1 column 1 (char 0)"
  end.

(** [json.dumps] and [repr] are only read back by the model, which is not
    part of the program: one line per value is enough here. *)
Definition dumps (indent : nat) (v : json) : string :=
  match v with
  | JStr s => Str.dq +:+ s +:+ Str.dq
  | JDict [] => "{}"
  | JList [] => "[]"
  | JNull => "null"
  | JBool true => "true"
  | JBool false => "false"
  | JInt z => pretty z
  | _ => "{...}"
  end.

Definition repr (v : json) : string :=
  match v with
  | JStr s => "'" +:+ s +:+ "'"
  | JNull => "None"
  | JBool true => "True"
  | JBool false => "False"
  | JInt z => pretty z
  | JList [] => "[]"
  | JDict [] => "{}"
  | _ => "[...]"
  end.

Fixpoint all_ascii (s : string) : bool :=
  match s with
  | EmptyString => true
  | String c r => (nat_of_ascii c <? 128)%nat && all_ascii r
  end.

Definition decode_ascii (enc : encoding) (bytes : string) : option string :=
  if all_ascii bytes then Some bytes else None.

Definition archive (entries : list (string * string)) : string :=
  String.concat EmptyString (map (λ e, "[" +:+ e.1 +:+ "|" +:+ e.2 +:+ "]") entries).

Definition tree : list (path * option string) :=
  [([".git"], None);
   ([".git"; "config.inc"], Some "[core]");
   (["index.asp"], Some "<% Response.Write 1 %>");
   (["README.md"], Some "legacy site");
   (["empty.asp"], Some EmptyString);
   (["binary.asp"], Some (String (ascii_of_nat 129) EmptyString))].

Definition connection_error : exn :=
  PyErr (OtherError "APIConnectionError") "Connection error.".

(** The model answers a classification request with [classification]
    and the generation request with [generation]. *)
Definition model (classification generation : exn + string) (n : nat) (prompt : string)
  : exn + string :=
  if Str.startswith "
        ## **File Classification" prompt
  then classification
  else generation.

Definition E (classification generation : exn + string) : env :=
  {| json_loads := parse;
     json_dumps := dumps;
     py_repr := repr;
     decode := decode_ascii;
     encode_utf8 := λ s, s;
     zip_bytes := archive;
     llm := model classification generation;
     git_clone := λ url,
       if String.eqb url "https://github.com/acme/shop.git" then inr tree
       else inl (PyErr (OtherError "CalledProcessError")
                   "Command 'git clone' returned non-zero exit status 128.");
     tmp_suffix := λ n, pretty n;
     tempdir := "/tmp";
     home := "/home/user" |}.

Definition fs0 : filesystem :=
  {[ ["tmp"] := NDir; ["home"] := NDir; ["home"; "user"] := NDir;
     ["home"; "user"; "Downloads"] := NDir ]}.

Definition w0 : world := World fs0 [] [] 0.

Definition url : string := "https://github.com/acme/shop.git".

Definition request : json := JDict [("githubUrl", JStr url)].

(** The world once the repository is cloned into [/tmp/tmp0]. *)
Definition w1 : world :=
  (clone_and_zip_repo (E (inr classification_reply) (inr EmptyString)) (JStr url) w0).2.

End Demo.

(** ** The configuration read when the module is imported

    [os.environ], once [load_dotenv()] has run, is a dictionary of texts. *)

(** [s.split(sep)] for a non-empty [sep]: the pieces between the
    occurrences of [sep], which are consumed from left to right.  [skip]
    counts the characters of a matched occurrence that are still to be
    dropped. *)
Fixpoint split_from (sep : string) (skip : nat) (s : string) : list string :=
  match s with
  | EmptyString => [EmptyString]
  | String c r =>
      match skip with
      | S k => split_from sep k r
      | O =>
          if Str.startswith sep s
          then EmptyString :: split_from sep (String.length sep - 1) r
          else match split_from sep O r with
               | h :: t => String c h :: t
               | [] => [String c EmptyString]
               end
      end
  end.

Definition str_split (sep s : string) : list string := split_from sep O s.

(** [os.getenv(name)] *)
Definition getenv (environ : list (string * string)) (name : string) : option string :=
  dict_lookup name environ.

(** [api_base = os.getenv("AZURE_ENDPOINT").split("/openai")[0]]: the
    statement raises when the variable is not set. *)
Definition api_base (environ : list (string * string)) : exn + string :=
  match getenv environ "AZURE_ENDPOINT" with
  | None => inl (PyErr AttributeError "'NoneType' object has no attribute 'split'")
  | Some endpoint =>
      match str_split "/openai" endpoint with
      | piece :: _ => inr piece
      | [] => inl (PyErr (OtherError "IndexError") "list index out of range")
      end
  end.

Definition api_key (environ : list (string * string)) : option string :=
  getenv environ "AZURE_API_KEY".

(** [os.getenv("AZURE_API_VERSION", "2024-02-15-preview")] *)
Definition api_version (environ : list (string * string)) : string :=
  match getenv environ "AZURE_API_VERSION" with
  | Some v => v
  | None => "2024-02-15-preview"
  end.

Definition deployment_name : string := "gpt-4o-001".

(** ** Further notions used in the statements *)

(** The text is made of blanks only (the class [\s]). *)
Definition all_space (s : string) : bool :=
  String.eqb (Str.skip_space s) EmptyString.

(** The character [c] occurs in [s]. *)
Fixpoint mentions (c : ascii) (s : string) : bool :=
  match s with
  | EmptyString => false
  | String a r => Ascii.eqb a c || mentions c r
  end.

(** The text [sub] occurs in [s]. *)
Fixpoint occurs (sub s : string) : bool :=
  Str.startswith sub s
  || match s with
     | EmptyString => false
     | String _ r => occurs sub r
     end.

Definition backtick : ascii := "`"%char.

(** A fenced block as the prompts ask for it: the fence [```json], blanks,
    the text [inner] between braces, blanks, the closing fence. *)
Definition fenced (ws inner ws' : string) : string :=
  "```json" +:+ ws +:+ "{" +:+ inner +:+ "}" +:+ ws' +:+ "```".

(** What [classify_file_with_openai] puts in the prompt for one character
    of a path or of a content: a backslash before a backslash and before a
    double quote. *)
Definition escape_char (c : ascii) : string :=
  if Ascii.eqb c "\" then "\\"
  else if Ascii.eqb c (ascii_of_nat 34) then Str.bslash +:+ Str.dq
  else String c EmptyString.

(** The records a structure holds, bucket after bucket. *)
Definition records (ps : list (string * list json)) : list json := concat ps.*2.

(** A record filed for the file at [file_path] with the text [content]:
    they are its two ends, the three fields between them come from the
    classification. *)
Definition record_of (file_path content : string) (r : json) : Prop :=
  ∃ classification reason conversion_type,
    r = JDict [("file_path", JStr file_path);
               ("classification", classification);
               ("reason", reason);
               ("conversion_type", conversion_type);
               ("content", JStr content)].

(** No request goes to the model. *)
Definition same_requests (w w' : world) : Prop := w_requests w' = w_requests w.

(** Two filesystems agree on every path outside [S]. *)
Definition same_outside (S : path → Prop) (fs fs' : filesystem) : Prop :=
  ∀ p, ¬ S p → fs' !! p = fs !! p.

(** ** More sample values

    Values for the examples of the properties below. *)

Module Sample.

(** The environment [E] whose [json.loads] also reads the texts of
    [table]. *)
Definition with_replies (E : env) (table : list (string * json)) : env :=
  {| json_loads := λ s,
       match dict_lookup s table with
       | Some v => inr v
       | None => json_loads E s
       end;
     json_dumps := json_dumps E;
     py_repr := py_repr E;
     decode := decode E;
     encode_utf8 := encode_utf8 E;
     zip_bytes := zip_bytes E;
     llm := llm E;
     git_clone := git_clone E;
     tmp_suffix := tmp_suffix E;
     tempdir := tempdir E;
     home := home E |}.

(** A classification without the field [reason]. *)
Definition partial_reply : string :=
  Demo.q "{'category': 'Views', 'classification': 'conversion_needed'}".

Definition partial_value : json :=
  JDict [("category", JStr "Views"); ("classification", JStr "conversion_needed")].

(** A classification filed under a category the structure does not
    have, and one whose category is a list. *)
Definition stray_reply : string :=
  Demo.q "{'category': 'Services', 'classification': 'conversion_needed', 'reason': 'page'}".

Definition stray_value : json :=
  JDict [("category", JStr "Services"); ("classification", JStr "conversion_needed");
         ("reason", JStr "page")].

Definition list_reply : string :=
  Demo.q "{'category': ['Views'], 'classification': 'conversion_needed', 'reason': 'page'}".

Definition list_value : json :=
  JDict [("category", JList [JStr "Views"]); ("classification", JStr "conversion_needed");
         ("reason", JStr "page")].

(** A host with a temporary directory and no home directory. *)
Definition bare : world := World {[ ["tmp"] := NDir ]} [] [] 0.

End Sample.

(** ** The tasks of an analysis, one by one *)

(** The exception a computation ends with, if it raises one. *)
Definition exception_of {A : Type} (r : result A * world) : option exn :=
  match r.1 with
  | Raise e => Some e
  | Ok _ => None
  end.

(** The structure and the world in which each task of [run_tasks] starts. *)
Fixpoint task_starts (E : env) (file_paths : list string)
  (project_structure : list (string * list json)) (w : world)
  : list (list (string * list json) * world) :=
  match file_paths with
  | [] => []
  | file_path :: r =>
      (project_structure, w)
      :: match analyze_file E file_path project_structure w with
         | (Ok ps', w') => task_starts E r ps' w'
         | (Raise _, w') => task_starts E r project_structure w'
         end
  end.

(** What the futures of the tasks hold: for each file, the exception its
    task raises where it starts. *)
Definition futures_of (E : env) (file_paths : list string)
  (project_structure : list (string * list json)) (w : world) : list (option exn) :=
  zip_with (λ file_path s, exception_of (analyze_file E file_path s.1 s.2))
    file_paths (task_starts E file_paths project_structure w).

(** The world once a classification request was made in [w]: the line
    [Classifying file] is printed and the prompt is sent. *)
Definition asked (E : env) (file_path content : string) (w : world) : world :=
  World (w_fs w) (w_console w ++ ["Classifying file: " +:+ file_path])
    (w_requests w ++ [classification_prompt E file_path content]) (w_tmp w).

(** ** The thread pool of [analyze_asp_project]

    [with ThreadPoolExecutor() as executor] hands every task to a pool of
    worker threads.  The threads share the console, the model and
    [project_structure]; a task acts on them at most five times, and what
    it computes between two actions is its own.  The walk and the
    submissions of the main thread act on nothing the workers change, so
    the pool is taken from the moment every task is in its queue. *)

















(** *** Notions for the invariants of the pool *)









(** * Reasoning about the model *)

(** ** The monad *)

Lemma bind_Ok {A B} (m : M A) (k : A → M B) w b w' :
  bind m k w = (Ok b, w') →
  ∃ a w1, m w = (Ok a, w1) ∧ k a w1 = (Ok b, w').
Proof.
  unfold bind. destruct (m w) as [[a|e] w1]; [eauto | discriminate].
Qed.

Lemma bind_eq_Ok {A B} (m : M A) (k : A → M B) w a w1 :
  m w = (Ok a, w1) → bind m k w = k a w1.
Proof. unfold bind. by intros ->. Qed.

Lemma try_except_Ok {A} (body : M A) h w a w' :
  try_except body h w = (Ok a, w') →
  body w = (Ok a, w')
  ∨ ∃ e w1 hm, body w = (Raise e, w1) ∧ h e = Some hm ∧ hm w1 = (Ok a, w').
Proof.
  unfold try_except. destruct (body w) as [[x|e] w1]; [left; congruence |].
  destruct (h e) as [hm|] eqn:Hh; [|discriminate]. right. eauto 10.
Qed.

(** A preorder on worlds that the steps of a program keep is kept by the
    program. *)
Section Stable.

Variable R : world → world → Prop.
Hypothesis R_refl : ∀ w, R w w.
Hypothesis R_trans : ∀ w1 w2 w3, R w1 w2 → R w2 w3 → R w1 w3.

Lemma stable_ret {A} (a : A) : stable R (ret a).
Proof. intros w. apply R_refl. Qed.

Lemma stable_raise {A} e : stable R (@raise A e).
Proof. intros w. apply R_refl. Qed.

Lemma stable_bind {A B} (m : M A) (k : A → M B) :
  stable R m → (∀ a, stable R (k a)) → stable R (bind m k).
Proof.
  intros Hm Hk w. unfold bind. specialize (Hm w).
  destruct (m w) as [[a|e] w1]; simpl in *; [|done].
  eapply R_trans; [exact Hm | apply Hk].
Qed.

Lemma stable_try_except {A} (body : M A) h :
  stable R body → (∀ e hm, h e = Some hm → stable R hm) →
  stable R (try_except body h).
Proof.
  intros Hb Hh w. unfold try_except. specialize (Hb w).
  destruct (body w) as [[a|e] w1]; simpl in *; [done|].
  destruct (h e) as [hm|] eqn:He; [|done].
  eapply R_trans; [exact Hb | by eapply Hh].
Qed.

Lemma stable_for_each {A} (l : list A) body :
  (∀ x, stable R (body x)) → stable R (for_each l body).
Proof.
  intros Hb. induction l as [|x l IH]; simpl.
  - apply stable_ret.
  - apply stable_bind; [apply Hb | intros _; exact IH].
Qed.

Lemma stable_lift_get_fs : stable R get_fs.
Proof. intros w. apply R_refl. Qed.

End Stable.

(** ** Strings and paths *)

Lemma split_slash_nonempty s : Str.split_slash s ≠ [].
Proof.
  destruct s as [|c r]; simpl; [done|].
  destruct (Ascii.eqb c Str.slash); [done|].
  by destruct (Str.split_slash r).
Qed.

Lemma split_slash_no_slash s :
  Str.has_slash s = false → Str.split_slash s = [s].
Proof.
  induction s as [|c r IH]; simpl; [done|].
  intros [Hc Hr]%orb_false_elim. rewrite Hc, (IH Hr). done.
Qed.

Lemma split_slash_app a b :
  Str.split_slash (a +:+ String Str.slash b) = Str.split_slash a ++ Str.split_slash b.
Proof.
  induction a as [|c a IH]; simpl.
  - done.
  - destruct (Ascii.eqb c Str.slash); rewrite IH; [done|].
    pose proof (split_slash_nonempty a).
    by destruct (Str.split_slash a).
Qed.

Lemma split_slash_parts s :
  Forall (λ c, Str.has_slash c = false) (Str.split_slash s).
Proof.
  induction s as [|c r IH]; simpl.
  - by repeat constructor.
  - destruct (Ascii.eqb c Str.slash) eqn:Hc.
    + by constructor.
    + pose proof (split_slash_nonempty r).
      destruct (Str.split_slash r) as [|h t]; [done|].
      inversion IH; subst. constructor; [|done]. simpl. by rewrite Hc.
Qed.

Lemma join_slash_cons x y r :
  Str.join_slash (x :: y :: r) = x +:+ String Str.slash (Str.join_slash (y :: r)).
Proof. done. Qed.

Lemma join_split_slash s : Str.join_slash (Str.split_slash s) = s.
Proof.
  induction s as [|c r IH]; [done|]. simpl.
  pose proof (split_slash_nonempty r) as Hne.
  destruct (Ascii.eqb c Str.slash) eqn:Hc.
  - apply Ascii.eqb_eq in Hc as ->.
    destruct (Str.split_slash r) as [|h t]; [done|].
    rewrite join_slash_cons, IH. done.
  - destruct (Str.split_slash r) as [|h [|h' t]]; [done| |].
    + simpl in *. by rewrite IH.
    + rewrite join_slash_cons. rewrite join_slash_cons in IH.
      by rewrite <- IH.
Qed.

Lemma split_join_slash l :
  l ≠ [] → Forall (λ c, Str.has_slash c = false) l →
  Str.split_slash (Str.join_slash l) = l.
Proof.
  induction l as [|x [|y r] IH]; intros Hne Hl; [done| |].
  - simpl. apply split_slash_no_slash. by inversion Hl.
  - rewrite join_slash_cons, split_slash_app.
    inversion Hl; subst. rewrite IH, split_slash_no_slash; done.
Qed.

Lemma valid_name_inv c :
  valid_name c →
  c ≠ EmptyString ∧ c ≠ "." ∧ c ≠ ".." ∧ Str.has_slash c = false.
Proof.
  unfold valid_name, posixpath.valid_nameb.
  rewrite !andb_true_iff, !negb_true_iff, !String.eqb_neq. tauto.
Qed.

Lemma valid_names_no_slash cs :
  Forall valid_name cs → Forall (λ c, Str.has_slash c = false) cs.
Proof.
  intros H. eapply Forall_impl; [exact H|].
  intros c Hc. by destruct (valid_name_inv c Hc) as (_ & _ & _ & ?).
Qed.

Lemma step_valid stk c : valid_name c → posixpath.step stk c = stk ++ [c].
Proof.
  intros (H1 & H2 & H3 & _)%valid_name_inv. unfold posixpath.step.
  apply String.eqb_neq in H1, H2, H3. by rewrite H1, H2, H3.
Qed.

Lemma fold_step_valid cs stk :
  Forall valid_name cs → fold_left posixpath.step cs stk = stk ++ cs.
Proof.
  revert stk. induction cs as [|c cs IH]; intros stk Hcs; simpl.
  - by rewrite app_nil_r.
  - inversion Hcs; subst. rewrite step_valid, IH by done.
    by rewrite <- app_assoc.
Qed.

Lemma fold_step_empties l stk :
  Forall (λ c, c = EmptyString) l → fold_left posixpath.step l stk = stk.
Proof.
  revert stk. induction l as [|c l IH]; intros stk Hl; [done|].
  inversion Hl; subst. simpl. by apply IH.
Qed.

Lemma startswith_slash_no_slash b :
  Str.has_slash b = false → Str.startswith "/" b = false.
Proof.
  destruct b as [|c r]; [done|].
  cbn [Str.has_slash Str.startswith]. intros [Hc _]%orb_false_elim.
  destruct (Ascii.eqb_spec "/"%char c) as [<-|]; [|done].
  by vm_compute in Hc.
Qed.

Lemma startswith_slash_head k c cs :
  Str.split_slash k = c :: cs → c ≠ EmptyString → Str.startswith "/" k = false.
Proof.
  destruct k as [|a r]; [done|].
  cbn [Str.split_slash Str.startswith].
  destruct (Ascii.eqb_spec "/"%char a) as [<-|Hne]; [|done].
  change (Ascii.eqb "/" Str.slash) with true. cbn iota. by intros [= <- _] ?.
Qed.

Lemma endswith_slash_inv a :
  Str.endswith "/" a = true → ∃ a', a = a' +:+ "/".
Proof.
  induction a as [|c r IH]; cbn [Str.endswith]; [done|].
  destruct (String.eqb_spec (String c r) "/") as [->|_].
  - intros _. by exists EmptyString.
  - intros [r' ->]%IH. by exists (String c r').
Qed.

Lemma append_assoc (a b c : string) : (a +:+ b) +:+ c = a +:+ (b +:+ c).
Proof.
  induction a as [|x a IH]; [done|].
  change (String x ((a +:+ b) +:+ c) = String x (a +:+ (b +:+ c))). by f_equal.
Qed.

(** How [join] reads under [split]: the components of the second path come
    after components that resolve to the first path. *)
Lemma split_join a k :
  Str.startswith "/" k = false →
  ∃ X, Str.split_slash (posixpath.join a k) = X ++ Str.split_slash k
       ∧ fold_left posixpath.step X [] = posixpath.components a.
Proof.
  intros Hk. unfold posixpath.join. rewrite Hk.
  destruct (String.eqb_spec a EmptyString) as [->|Ha]; simpl.
  - by exists [].
  - destruct (Str.endswith "/" a) eqn:He.
    + apply endswith_slash_inv in He as [a' ->].
      exists (Str.split_slash a'). split.
      * rewrite append_assoc. simpl. apply split_slash_app.
      * unfold posixpath.components.
        change (a' +:+ "/") with (a' +:+ String Str.slash EmptyString).
        rewrite split_slash_app, fold_left_app. done.
    + exists (Str.split_slash a). split; [apply split_slash_app | done].
Qed.

Lemma components_join a k :
  Str.startswith "/" k = false →
  posixpath.components (posixpath.join a k)
  = fold_left posixpath.step (Str.split_slash k) (posixpath.components a).
Proof.
  intros Hk. destruct (split_join a k Hk) as (X & HX & Hf).
  unfold posixpath.components at 1. by rewrite HX, fold_left_app, Hf.
Qed.

Lemma components_join_name a c :
  valid_name c →
  posixpath.components (posixpath.join a c) = posixpath.components a ++ [c].
Proof.
  intros Hc. pose proof (valid_name_inv c Hc) as (_ & _ & _ & Hs).
  rewrite components_join by by apply startswith_slash_no_slash.
  rewrite split_slash_no_slash by done. simpl. by apply step_valid.
Qed.

Lemma components_fold_join top dirs :
  Forall valid_name dirs →
  posixpath.components (fold_left posixpath.join dirs top)
  = posixpath.components top ++ dirs.
Proof.
  revert top. induction dirs as [|d dirs IH]; intros top Hd; simpl.
  - by rewrite app_nil_r.
  - inversion Hd; subst. rewrite IH, components_join_name by done.
    by rewrite <- app_assoc.
Qed.

Lemma clean_key_valid k : clean_key k → Forall valid_name (Str.split_slash k).
Proof. unfold clean_key. rewrite forallb_forall, Forall_forall. intros H x Hx. apply H. by apply list_elem_of_In. Qed.

Lemma clean_key_startswith k : clean_key k → Str.startswith "/" k = false.
Proof.
  intros Hk%clean_key_valid. pose proof (split_slash_nonempty k).
  destruct (Str.split_slash k) as [|c cs] eqn:Hs; [done|].
  eapply startswith_slash_head; [exact Hs|].
  inversion Hk; subst. by apply valid_name_inv.
Qed.

Lemma components_join_key a k :
  clean_key k →
  posixpath.components (posixpath.join a k)
  = posixpath.components a ++ Str.split_slash k.
Proof.
  intros Hk. rewrite components_join by by apply clean_key_startswith.
  apply fold_step_valid. by apply clean_key_valid.
Qed.

(** *** [dirname] *)

Lemma drop_trailing_empty_spec l :
  ∃ n, l = posixpath.drop_trailing_empty l ++ repeat EmptyString n.
Proof.
  induction l as [|x l [n IH]]; simpl.
  - by exists O.
  - destruct (posixpath.drop_trailing_empty l) as [|y r] eqn:Hd.
    + destruct (String.eqb_spec x EmptyString) as [->|].
      * exists (S n). simpl in *. by rewrite IH.
      * exists n. simpl in *. by rewrite IH.
    + exists n. rewrite IH at 1. done.
Qed.

Lemma Forall_repeat_empty n : Forall (λ c, c = EmptyString) (repeat EmptyString n).
Proof. induction n; simpl; by constructor. Qed.

Lemma split_slashes n : Forall (λ c, c = EmptyString) (Str.split_slash (Str.slashes n)).
Proof.
  induction n as [|n IH]; simpl.
  - by repeat constructor.
  - by constructor.
Qed.

Lemma components_dirname p :
  posixpath.components (posixpath.dirname p)
  = fold_left posixpath.step (removelast (Str.split_slash p)) [].
Proof.
  unfold posixpath.dirname.
  set (init := removelast (Str.split_slash p)).
  assert (Hns : Forall (λ c, Str.has_slash c = false) init).
  { pose proof (split_slash_parts p) as H. rewrite Forall_forall in H.
    apply Forall_forall. intros x Hx. apply H.
    apply list_elem_of_In. apply list_elem_of_In in Hx.
    clear -Hx. subst init. induction (Str.split_slash p) as [|y [|z l] IH]; simpl in *; [done|done|].
    destruct Hx as [->|Hx]; [by left | right; by apply IH]. }
  destruct (drop_trailing_empty_spec init) as [n Hn].
  destruct (posixpath.drop_trailing_empty init) as [|y r] eqn:Hd.
  - simpl in Hn. unfold posixpath.components.
    rewrite (fold_step_empties _ _ (split_slashes _)).
    rewrite Hn. symmetry. apply fold_step_empties, Forall_repeat_empty.
  - unfold posixpath.components.
    rewrite split_join_slash; [| done |].
    + rewrite Hn, fold_left_app.
      symmetry. apply fold_step_empties, Forall_repeat_empty.
    + rewrite Hn in Hns. by apply Forall_app in Hns as [? _].
Qed.

Lemma components_dirname_join a k :
  clean_key k →
  posixpath.components (posixpath.dirname (posixpath.join a k))
  = posixpath.components a ++ removelast (Str.split_slash k).
Proof.
  intros Hk. rewrite components_dirname.
  destruct (split_join a k (clean_key_startswith k Hk)) as (X & -> & HX).
  rewrite removelast_app by apply split_slash_nonempty.
  rewrite fold_left_app, HX. apply fold_step_valid.
  apply clean_key_valid in Hk. clear -Hk.
  induction Hk as [|x l Hx Hl IH]; [constructor|].
  destruct l; [constructor|]. simpl in *. by constructor.
Qed.

(** *** [relpath] *)

Lemma common_prefix_len_app q rel :
  posixpath.common_prefix_len q (q ++ rel) = length q.
Proof. induction q as [|x q IH]; simpl; [by destruct rel|]. by rewrite String.eqb_refl, IH. Qed.

Lemma join_slash_snoc l y :
  l ≠ [] → Str.join_slash (l ++ [y]) = Str.join_slash l +:+ String Str.slash y.
Proof.
  induction l as [|x [|z l] IH]; intros Hne; [done|done|].
  change ((x :: z :: l) ++ [y]) with (x :: (z :: l) ++ [y]).
  simpl app. rewrite !join_slash_cons.
  change (z :: l ++ [y]) with ((z :: l) ++ [y]). rewrite IH by done.
  rewrite append_assoc. done.
Qed.

Lemma join_slash_valid_shape l :
  l ≠ [] → Forall valid_name l →
  Str.join_slash l ≠ EmptyString ∧ Str.endswith "/" (Str.join_slash l) = false.
Proof.
  intros Hne Hl.
  pose proof (split_join_slash l Hne (valid_names_no_slash l Hl)) as Hs.
  split.
  - intros He. rewrite He in Hs. simpl in Hs. subst l.
    inversion Hl; subst. by apply valid_name_inv in H1 as [? _].
  - destruct (Str.endswith "/" (Str.join_slash l)) eqn:He; [|done].
    apply endswith_slash_inv in He as [a' Ha].
    change (a' +:+ "/") with (a' +:+ String Str.slash EmptyString) in Ha.
    rewrite Ha, split_slash_app in Hs. simpl in Hs.
    rewrite <- Hs in Hl. apply Forall_app in Hl as [_ Hl].
    inversion Hl; subst. by apply valid_name_inv in H1 as [? _].
Qed.

Lemma fold_join_names l r :
  l ≠ [] → Forall valid_name l → Forall valid_name r →
  fold_left posixpath.join r (Str.join_slash l) = Str.join_slash (l ++ r).
Proof.
  revert l. induction r as [|y r IH]; intros l Hne Hl Hr; simpl.
  - by rewrite app_nil_r.
  - apply Forall_cons in Hr as [Hy Hr].
    destruct (join_slash_valid_shape l Hne Hl) as [H1 H2].
    destruct (valid_name_inv y Hy) as (_ & _ & _ & Hs).
    unfold posixpath.join at 2.
    rewrite (startswith_slash_no_slash y Hs).
    apply String.eqb_neq in H1. rewrite H1, H2. cbn [orb].
    rewrite <- join_slash_snoc by done.
    rewrite IH; [| by destruct l | by apply Forall_app; split; [|constructor] | done].
    by rewrite <- app_assoc.
Qed.

(** The name of an archive entry: the path of a file that the walk of
    [top] reports, relative to [top], is the chain of names below [top]. *)
Lemma relpath_walked top rel :
  rel ≠ [] → Forall valid_name rel →
  posixpath.relpath
    (posixpath.join (fold_left posixpath.join (removelast rel) top)
                    (List.last rel EmptyString)) top
  = Str.join_slash rel.
Proof.
  intros Hne Hrel.
  assert (Hsplit : rel = removelast rel ++ [List.last rel EmptyString])
    by by apply app_removelast_last.
  assert (Hinit : Forall valid_name (removelast rel)).
  { rewrite Hsplit in Hrel. by apply Forall_app in Hrel as [? _]. }
  assert (Hlast : valid_name (List.last rel EmptyString)).
  { rewrite Hsplit in Hrel. apply Forall_app in Hrel as [_ H]. by inversion H. }
  unfold posixpath.relpath.
  rewrite components_join_name, components_fold_join by done.
  rewrite <- app_assoc, <- Hsplit, common_prefix_len_app.
  rewrite Nat.sub_diag. simpl repeat. rewrite drop_app_length. simpl.
  destruct rel as [|x r]; [done|].
  change x with (Str.join_slash [x]) at 1.
  inversion Hrel; subst.
  rewrite fold_join_names; [done | done | by constructor | done].
Qed.

Lemma components_walked top rel :
  rel ≠ [] → Forall valid_name rel →
  posixpath.components
    (posixpath.join (fold_left posixpath.join (removelast rel) top)
                    (List.last rel EmptyString))
  = posixpath.components top ++ rel.
Proof.
  intros Hne Hrel.
  assert (Hsplit : rel = removelast rel ++ [List.last rel EmptyString])
    by by apply app_removelast_last.
  assert (Hinit : Forall valid_name (removelast rel)).
  { rewrite Hsplit in Hrel. by apply Forall_app in Hrel as [? _]. }
  assert (Hlast : valid_name (List.last rel EmptyString)).
  { rewrite Hsplit in Hrel. apply Forall_app in Hrel as [_ H]. by inversion H. }
  rewrite components_join_name, components_fold_join by done.
  by rewrite <- app_assoc, <- Hsplit.
Qed.

(** ** The filesystem *)

Lemma strip_dir_Some (pre p rel : path) :
  strip_dir pre p = Some rel ↔ p = pre ++ rel.
Proof.
  revert p. induction pre as [|x pre IH]; intros p; simpl.
  - split; [by intros [= ->] | by intros ->].
  - destruct p as [|y p]; [split; [done | by intros ?] |].
    destruct (String.eqb_spec x y) as [->|Hne].
    + rewrite IH. split; [by intros -> | by intros [= ->]].
    + split; [done | intros [= ? _]; by destruct Hne].
Qed.

Lemma strip_dir_app (pre rel : path) : strip_dir pre (pre ++ rel) = Some rel.
Proof. by apply strip_dir_Some. Qed.

Lemma under_spec (pre p : path) : under pre p = true ↔ ∃ rel, p = pre ++ rel.
Proof.
  unfold under. destruct (strip_dir pre p) as [rel|] eqn:H.
  - apply strip_dir_Some in H. split; [eauto | done].
  - split; [done|]. intros [rel Hrel]. apply strip_dir_Some in Hrel. congruence.
Qed.

Lemma under_app (pre rel : path) : under pre (pre ++ rel) = true.
Proof. apply under_spec. eauto. Qed.

Lemma under_refl (p : path) : under p p = true.
Proof. apply under_spec. exists []. by rewrite app_nil_r. Qed.

Lemma under_trans (a b c : path) : under a b = true → under b c = true → under a c = true.
Proof.
  rewrite !under_spec. intros [r1 ->] [r2 ->]. exists (r1 ++ r2). by rewrite app_assoc.
Qed.

Lemma removelast_snoc {A} (l : list A) x : removelast (l ++ [x]) = l.
Proof. by rewrite removelast_app, app_nil_r. Qed.

Lemma removelast_ne {A} (l : list A) : l ≠ [] → removelast l ≠ l.
Proof.
  intros Hne He. apply (f_equal length) in He.
  destruct (exists_last Hne) as (l' & x & ->).
  rewrite removelast_snoc, length_app in He. simpl in He. lia.
Qed.

Lemma lookup_node_insert_ne (fs : filesystem) (p q : path) (n : node) :
  p ≠ q → lookup_node (<[p:=n]> fs) q = lookup_node fs q.
Proof. intros Hne. destruct q; [done|]. simpl. by rewrite lookup_insert_ne. Qed.

Lemma lookup_node_insert_eq (fs : filesystem) (p : path) (n : node) :
  p ≠ [] → lookup_node (<[p:=n]> fs) p = Some n.
Proof. intros Hne. destruct p; [done|]. simpl. by rewrite lookup_insert_eq. Qed.

Lemma lookup_node_Some_dir (fs : filesystem) (p : path) :
  p ≠ [] → lookup_node fs p = fs !! p.
Proof. by destruct p. Qed.

Lemma fs_wf_insert (fs : filesystem) (p : path) (n : node) :
  fs_wf fs →
  lookup_node fs (removelast p) = Some NDir →
  n = NDir ∨ fs !! p ≠ Some NDir →
  fs_wf (<[p:=n]> fs).
Proof.
  intros Hwf Hparent Hn q x Hq.
  destruct (decide (p = removelast q)) as [Hp|Hp].
  - destruct (decide (removelast q = [])) as [Hnil|Hnil]; [by rewrite Hnil|].
    rewrite <- Hp, lookup_node_insert_eq by congruence.
    destruct (decide (p = q)) as [->|Hpq].
    + exfalso. apply (removelast_ne q); [|done]. by destruct q.
    + rewrite lookup_insert_ne in Hq by done.
      apply Hwf in Hq. simpl in Hq. rewrite <- Hp in Hq.
      rewrite lookup_node_Some_dir in Hq by congruence.
      destruct Hn as [->|Hn]; [done | by destruct Hn].
  - rewrite lookup_node_insert_ne by done.
    destruct (decide (p = q)) as [->|Hpq]; [done|].
    rewrite lookup_insert_ne in Hq by done. by apply Hwf in Hq.
Qed.

(** Below a name that is free in a well-formed filesystem there is nothing. *)
Lemma fs_wf_fresh (fs : filesystem) (p q : path) :
  fs_wf fs → p ≠ [] → fs !! p = None → under p q = true → fs !! q = None.
Proof.
  intros Hwf Hne Hp [rel ->]%under_spec.
  induction rel as [|c rel IH] using rev_ind.
  - by rewrite app_nil_r.
  - destruct (fs !! (p ++ rel ++ [c])) as [x|] eqn:Hq; [|done].
    apply Hwf in Hq. simpl in Hq.
    rewrite app_assoc, removelast_snoc in Hq.
    rewrite lookup_node_Some_dir in Hq by by destruct p.
    congruence.
Qed.

Section Files.

Variable E : env.

(** [mkdirs] only adds directories, at names that were free. *)
Lemma mkdirs_lookup (names : list string) : ∀ (cur : path) (fs : filesystem) (p : path),
  (mkdirs cur names fs).2 !! p = fs !! p
  ∨ (fs !! p = None ∧ (mkdirs cur names fs).2 !! p = Some NDir).
Proof.
  induction names as [|c names IH]; intros cur fs p; simpl; [by left|].
  destruct (lookup_node fs (cur ++ [c])) as [[d|]|] eqn:Hl; simpl; [by left | apply IH |].
  destruct (IH (cur ++ [c]) (<[cur ++ [c] := NDir]> fs) p) as [H|[H1 H2]].
  - destruct (decide (cur ++ [c] = p)) as [<-|Hne].
    + right. rewrite H, lookup_insert_eq. split; [|done].
      rewrite lookup_node_Some_dir in Hl by by destruct cur. done.
    + left. by rewrite H, lookup_insert_ne.
  - right. split; [|done].
    destruct (decide (cur ++ [c] = p)) as [<-|Hne].
    + by rewrite lookup_insert_eq in H1.
    + by rewrite lookup_insert_ne in H1.
Qed.

Lemma mkdirs_wf (names : list string) : ∀ (cur : path) (fs : filesystem),
  fs_wf fs → lookup_node fs cur = Some NDir → fs_wf (mkdirs cur names fs).2.
Proof.
  induction names as [|c names IH]; intros cur fs Hwf Hcur; simpl; [done|].
  destruct (lookup_node fs (cur ++ [c])) as [[d|]|] eqn:Hl; simpl; [done | by apply IH |].
  apply IH.
  - apply fs_wf_insert; [done | by rewrite removelast_snoc | by left].
  - apply lookup_node_insert_eq. by destruct cur.
Qed.

Lemma mkdirs_dir (names : list string) : ∀ (cur : path) (fs fs' : filesystem),
  lookup_node fs cur = Some NDir →
  mkdirs cur names fs = (None, fs') →
  lookup_node fs' (cur ++ names) = Some NDir.
Proof.
  induction names as [|c names IH]; intros cur fs fs' Hcur; simpl.
  - intros [= <-]. by rewrite app_nil_r.
  - destruct (lookup_node fs (cur ++ [c])) as [[d|]|] eqn:Hl; [done | |].
    + intros H. apply IH in H; [|done]. by rewrite <- app_assoc in H.
    + intros H. apply IH in H.
      * by rewrite <- app_assoc in H.
      * apply lookup_node_insert_eq. by destruct cur.
Qed.

Lemma mkdirs_dirs_persist (names : list string) (cur : path) (fs : filesystem) :
  dirs_persist fs (mkdirs cur names fs).2.
Proof.
  intros p Hp. destruct p as [|x p]; [done|]. simpl in *.
  destruct (mkdirs_lookup names cur fs (x :: p)) as [->|[H _]]; [done | congruence].
Qed.

Lemma install_wf (tree : list (path * option string)) : ∀ (dest : path) (fs fs' : filesystem),
  fs_wf fs → install dest tree fs = Some fs' → fs_wf fs'.
Proof.
  induction tree as [|[rel content] tree IH]; intros dest fs fs' Hwf; simpl.
  - by intros [= <-].
  - destruct (lookup_node fs dest) as [[d|]|] eqn:Hdest; [done| |done].
    destruct (forallb posixpath.valid_nameb rel); [|done].
    destruct content as [data|].
    + destruct rel as [|c rel]; [done|].
      destruct (mkdirs dest (removelast (c :: rel)) fs) as [[err|] fs1] eqn:Hm; [done|].
      pose proof (mkdirs_wf (removelast (c :: rel)) dest fs Hwf Hdest) as Hwf1.
      pose proof (mkdirs_dir _ _ _ _ Hdest Hm) as Hdir.
      rewrite Hm in Hwf1. simpl in Hwf1.
      assert (Hpar : lookup_node fs1 (removelast (dest ++ c :: rel)) = Some NDir).
      { by rewrite removelast_app. }
      destruct (fs1 !! (dest ++ c :: rel)) as [[d|]|] eqn:Hf; [|done|].
      * apply IH. apply fs_wf_insert; [done|done|]. right. congruence.
      * apply IH. apply fs_wf_insert; [done|done|]. right. congruence.
    + destruct (mkdirs dest rel fs) as [[err|] fs1] eqn:Hm; [done|].
      apply IH. pose proof (mkdirs_wf rel dest fs Hwf Hdest) as Hwf1.
      by rewrite Hm in Hwf1.
Qed.

Lemma install_dirs_persist (tree : list (path * option string)) :
  ∀ (dest : path) (fs fs' : filesystem),
  install dest tree fs = Some fs' → dirs_persist fs fs'.
Proof.
  induction tree as [|[rel content] tree IH]; intros dest fs fs'; simpl.
  - by intros [= <-] p.
  - destruct (lookup_node fs dest) as [[d|]|] eqn:Hdest; [done| |done].
    destruct (forallb posixpath.valid_nameb rel); [|done].
    destruct content as [data|].
    + destruct rel as [|c rel]; [done|].
      destruct (mkdirs dest (removelast (c :: rel)) fs) as [[err|] fs1] eqn:Hm; [done|].
      pose proof (mkdirs_dirs_persist (removelast (c :: rel)) dest fs) as Hp1.
      rewrite Hm in Hp1. simpl in Hp1.
      assert (Hins : ∀ data, fs1 !! (dest ++ c :: rel) ≠ Some NDir →
                dirs_persist fs1 (<[dest ++ c :: rel := NFile data]> fs1)).
      { intros data0 Hn p Hp. destruct (decide (dest ++ c :: rel = p)) as [<-|Hne].
        - rewrite lookup_node_Some_dir in Hp by by destruct dest. done.
        - by rewrite lookup_node_insert_ne. }
      destruct (fs1 !! (dest ++ c :: rel)) as [[d|]|] eqn:Hf; [|done|].
      * intros H%IH p Hp. apply H, Hins; [congruence|]. by apply Hp1.
      * intros H%IH p Hp. apply H, Hins; [congruence|]. by apply Hp1.
    + destruct (mkdirs dest rel fs) as [[err|] fs1] eqn:Hm; [done|].
      pose proof (mkdirs_dirs_persist rel dest fs) as Hp1.
      rewrite Hm in Hp1. simpl in Hp1.
      intros H%IH p Hp. by apply H, Hp1.
Qed.

End Files.

(** ** What leaves the filesystem alone

    Reading and printing change nothing but the console; talking to the
    model also leaves the filesystem and the count of temporary names as
    they are. *)

Lemma only_prints_refl w : only_prints w w.
Proof. done. Qed.

Lemma only_prints_trans w1 w2 w3 :
  only_prints w1 w2 → only_prints w2 w3 → only_prints w1 w3.
Proof. intros (? & ? & ?) (? & ? & ?). repeat split; congruence. Qed.

Lemma same_fs_refl w : same_fs w w.
Proof. done. Qed.

Lemma same_fs_trans w1 w2 w3 : same_fs w1 w2 → same_fs w2 w3 → same_fs w1 w3.
Proof. intros [? ?] [? ?]. split; congruence. Qed.

Lemma only_prints_same_fs {A} (m : M A) : stable only_prints m → stable same_fs m.
Proof. intros H w. destruct (H w) as (? & ? & _). by split. Qed.

Create HintDb quiet discriminated.
Create HintDb frame discriminated.

Ltac stable_step Hrefl Htrans :=
  first
    [ apply (stable_bind _ Htrans); [| intros ?]
    | apply (stable_try_except _ Htrans); [| intros ? ? ?]
    | apply (stable_for_each _ Hrefl Htrans); intros ?
    | apply (stable_ret _ Hrefl)
    | apply (stable_raise _ Hrefl)
    | apply (stable_lift_get_fs _ Hrefl) ].

Ltac stable_case :=
  match goal with
  | H : Some _ = Some _ |- _ => injection H as <-
  | H : None = Some _ |- _ => discriminate H
  | H : (if ?b then _ else _) = Some _ |- _ => destruct b
  | |- stable _ (match ?x with _ => _ end) => destruct x
  | |- stable _ (let _ := _ in _) => cbv zeta
  end.

Ltac quiet_auto :=
  repeat first [ solve [eauto with quiet] | stable_case
               | stable_step only_prints_refl only_prints_trans ].

Ltac frame_auto :=
  repeat first [ solve [eauto with frame] | stable_case
               | stable_step same_fs_refl same_fs_trans ].

Section Frame.

Variable E : env.

Lemma print_quiet line : stable only_prints (print line).
Proof. by intros w. Qed.

Lemma loads_quiet s : stable only_prints (loads E s).
Proof. unfold loads. destruct (json_loads E s); by intros w. Qed.

Lemma read_bytes_quiet file_path : stable only_prints (read_bytes E file_path).
Proof.
  unfold read_bytes. destruct (String.eqb file_path EmptyString); [by intros w|].
  intros w. unfold bind, get_fs. simpl.
  by destruct (lookup_node (w_fs w) _) as [[?|]|].
Qed.

Lemma get_or_quiet d key default : stable only_prints (get_or d key default).
Proof. destruct d; by intros w. Qed.

Lemma getitem_quiet d key : stable only_prints (getitem d key).
Proof. destruct d; try by intros w. simpl. by destruct (dict_lookup key d); intros w. Qed.

Lemma key_in_quiet c ps : stable only_prints (key_in c ps).
Proof. destruct c; by intros w. Qed.

Hint Resolve print_quiet loads_quiet read_bytes_quiet get_or_quiet
  getitem_quiet key_in_quiet : quiet.

Lemma read_text_quiet enc file_path : stable only_prints (read_text E enc file_path).
Proof. unfold read_text. quiet_auto. Qed.

Hint Resolve read_text_quiet : quiet.

Lemma read_file_content_quiet file_path :
  stable only_prints (read_file_content E file_path).
Proof. unfold read_file_content. quiet_auto. Qed.

Lemma file_record_quiet file_path content c ps :
  stable only_prints (file_record file_path content c ps).
Proof. unfold file_record. quiet_auto. Qed.

Lemma llm_chain_invoke_same_fs prompt : stable same_fs (llm_chain_invoke E prompt).
Proof. intros w. unfold llm_chain_invoke. by destruct (llm E _ _). Qed.

Hint Resolve llm_chain_invoke_same_fs : frame.
Hint Extern 1 (stable same_fs _) =>
  apply only_prints_same_fs;
  solve [eauto using read_file_content_quiet, file_record_quiet with quiet] : frame.

Lemma classify_same_fs file_path content :
  stable same_fs (classify_file_with_openai E file_path content).
Proof. unfold classify_file_with_openai. frame_auto. Qed.

Hint Resolve classify_same_fs : frame.

Lemma analyze_file_same_fs file_path ps :
  stable same_fs (analyze_file E file_path ps).
Proof. unfold analyze_file. frame_auto. Qed.

Lemma run_tasks_same_fs file_paths : ∀ ps, stable same_fs (run_tasks E file_paths ps).
Proof.
  induction file_paths as [|f l IH]; intros ps; simpl; [frame_auto|].
  intros w. pose proof (analyze_file_same_fs f ps w) as H1.
  destruct (analyze_file E f ps w) as [[ps'|e] w1]; simpl in H1.
  - eapply same_fs_trans; [exact H1|].
    apply (stable_bind same_fs same_fs_trans); [apply IH | intros ?; frame_auto].
  - eapply same_fs_trans; [exact H1|].
    apply (stable_bind same_fs same_fs_trans); [apply IH | intros ?; frame_auto].
Qed.

Hint Resolve run_tasks_same_fs : frame.

Lemma analyze_asp_project_same_fs project_path :
  stable same_fs (analyze_asp_project E project_path).
Proof. unfold analyze_asp_project. frame_auto. Qed.

Lemma generate_mvc_same_fs asp name :
  stable same_fs (generate_mvc_with_openai E asp name).
Proof. unfold generate_mvc_with_openai. frame_auto. Qed.

End Frame.

#[global] Hint Resolve print_quiet loads_quiet read_bytes_quiet get_or_quiet
  getitem_quiet key_in_quiet read_text_quiet read_file_content_quiet
  file_record_quiet : quiet.
#[global] Hint Resolve llm_chain_invoke_same_fs classify_same_fs analyze_file_same_fs
  run_tasks_same_fs analyze_asp_project_same_fs generate_mvc_same_fs : frame.
#[global] Hint Extern 1 (stable same_fs _) =>
  apply only_prints_same_fs; solve [eauto with quiet] : frame.

(** ** The endpoint: requests it refuses and errors it reports *)

Lemma process_github_checked (E : env) (d : list (string * json)) (url : json) (w : world) :
  dict_lookup "githubUrl" d = Some url → truthy url = true →
  process_github E (JDict d) w
  = try_except (process_github_try E url)
      (λ e, Some (print ("Error processing GitHub URL: " +:+ str_exn e) ;;;
                  raise (HTTPException 500 (str_exn e)))) w.
Proof.
  intros Hd Ht. unfold process_github, get_or.
  rewrite (bind_eq_Ok _ _ w url w) by (unfold ret; by rewrite Hd).
  by rewrite Ht.
Qed.

(** C9. A request body without a usable ["githubUrl"] (the key is missing,
    or its value is falsy) is answered with HTTP 400 and the detail
    "GitHub URL is required"; the world is left exactly as it was: nothing
    is cloned, no request goes to the model, nothing is written or printed. *)
Theorem request_without_url_is_refused (E : env) (d : list (string * json)) (w : world) :
  dict_lookup "githubUrl" d = None
  ∨ (∃ v, dict_lookup "githubUrl" d = Some v ∧ truthy v = false) →
  process_github E (JDict d) w
  = (Raise (HTTPException 400 "GitHub URL is required"), w).
Proof.
  intros H. unfold process_github, get_or.
  destruct H as [H | (v & H & Hv)].
  - rewrite (bind_eq_Ok _ _ w JNull w) by (unfold ret; by rewrite H). done.
  - rewrite (bind_eq_Ok _ _ w v w) by (unfold ret; by rewrite H).
    by rewrite Hv.
Qed.

Lemma request_without_url_is_refused_witness :
  process_github (Demo.E (inr EmptyString) (inr EmptyString)) (JDict [("githubUrl", JStr EmptyString)]) Demo.w0
  = (Raise (HTTPException 400 "GitHub URL is required"), Demo.w0).
Proof.
  apply request_without_url_is_refused.
  right. exists (JStr EmptyString). split; reflexivity.
Defined.

(** C3. Once the URL is accepted, every exception raised by the statements
    under [try:] is caught: the line "Error processing GitHub URL: ..." is
    printed and the endpoint raises [HTTPException] with status 500 and the
    message of the exception as its detail.  No failure of such a request
    has another status or another shape. *)
Theorem failure_is_reported_as_500 (E : env) (d : list (string * json)) (url : json)
    (w : world) :
  dict_lookup "githubUrl" d = Some url → truthy url = true →
  (∀ e w1, process_github_try E url w = (Raise e, w1) →
     process_github E (JDict d) w
     = (Raise (HTTPException 500 (str_exn e)),
        World (w_fs w1)
              (w_console w1 ++ ["Error processing GitHub URL: " +:+ str_exn e])
              (w_requests w1) (w_tmp w1)))
  ∧ (∀ e w', process_github E (JDict d) w = (Raise e, w') →
       ∃ e0 w1, process_github_try E url w = (Raise e0, w1)
                ∧ e = HTTPException 500 (str_exn e0)).
Proof.
  intros Hd Ht. rewrite (process_github_checked E d url w Hd Ht).
  unfold try_except. split.
  - intros e w1 ->. done.
  - intros e w'. destruct (process_github_try E url w) as [[a|e0] w1]; [done|].
    intros [= <- <-]. eauto.
Qed.

Lemma failure_is_reported_as_500_witness :
  (process_github (Demo.E (inr Demo.classification_reply) (inl Demo.connection_error))
     (JDict [("githubUrl", JStr Demo.url)]) Demo.w0).1
  = Raise (HTTPException 500 "Connection error.").
Proof.
  set (E := Demo.E (inr Demo.classification_reply) (inl Demo.connection_error)).
  destruct (failure_is_reported_as_500 E [("githubUrl", JStr Demo.url)] (JStr Demo.url)
              Demo.w0 eq_refl eq_refl) as [H _].
  rewrite (H Demo.connection_error (process_github_try E (JStr Demo.url) Demo.w0).2).
  - reflexivity.
  - vm_compute. reflexivity.
Defined.

(** ** Talking to the model *)

Section Model.

Variable E : env.

Lemma parse_reply response :
  match re_search_json response with
  | Some group1 => loads E group1
  | None => loads E response
  end = loads E (json_text response).
Proof. unfold json_text. by destruct (re_search_json response). Qed.

(** What [classify_file_with_openai] does, by what the model answers. *)
Lemma classify_cases file_path content w :
  let prompt := classification_prompt E file_path content in
  let w1 := World (w_fs w) (w_console w ++ ["Classifying file: " +:+ file_path])
              (w_requests w ++ [prompt]) (w_tmp w) in
  classify_file_with_openai E file_path content w
  = match llm E (length (w_requests w)) prompt with
    | inr reply =>
        match json_loads E (json_text reply) with
        | inr v => (Ok v, w1)
        | inl msg =>
            (Ok (default_classification file_path msg),
             World (w_fs w1) (w_console w1 ++ ["JSON Decode Error: " +:+ msg])
                   (w_requests w1) (w_tmp w1))
        end
    | inl e =>
        if is_JSONDecodeError e
        then (Ok (default_classification file_path (str_exn e)),
              World (w_fs w1) (w_console w1 ++ ["JSON Decode Error: " +:+ str_exn e])
                    (w_requests w1) (w_tmp w1))
        else (Raise e, w1)
    end.
Proof.
  intros prompt w1. unfold classify_file_with_openai, try_except. cbv zeta.
  fold prompt. unfold bind at 1. unfold print at 1. cbv beta iota.
  unfold bind at 1. unfold llm_chain_invoke. cbn [w_requests w_fs w_console w_tmp].
  destruct (llm E (length (w_requests w)) prompt) as [e|reply].
  - by destruct (is_JSONDecodeError e).
  - rewrite parse_reply. unfold loads.
    by destruct (json_loads E (json_text reply)).
Qed.

Lemma classify_requests file_path content w :
  w_requests (classify_file_with_openai E file_path content w).2
  = w_requests w ++ [classification_prompt E file_path content].
Proof.
  rewrite classify_cases. cbv zeta.
  destruct (llm E _ _) as [e|reply].
  - by destruct (is_JSONDecodeError e).
  - by destruct (json_loads E _).
Qed.

(** The same for [generate_mvc_with_openai]. *)
Lemma generate_cases analysis_data project_name w :
  let prompt :=
    generation_prompt project_name (json_dumps E 2 (structure_to_json analysis_data)) in
  let w1 := World (w_fs w)
              (w_console w ++ ["Generating MVC project files for " +:+ project_name
                               +:+ " with analysis data."])
              (w_requests w ++ [prompt]) (w_tmp w) in
  generate_mvc_with_openai E analysis_data project_name w
  = match llm E (length (w_requests w)) prompt with
    | inr reply =>
        let w2 := World (w_fs w1) (w_console w1 ++ ["Raw OpenAI Response: " +:+ reply])
                    (w_requests w1) (w_tmp w1) in
        match json_loads E (json_text reply) with
        | inr v => (Ok v, w2)
        | inl msg =>
            (Ok (JDict []),
             World (w_fs w2) (w_console w2 ++ ["Error generating MVC project files"])
                   (w_requests w2) (w_tmp w2))
        end
    | inl e =>
        if is_JSONDecodeError e
        then (Ok (JDict []),
              World (w_fs w1) (w_console w1 ++ ["Error generating MVC project files"])
                    (w_requests w1) (w_tmp w1))
        else (Raise e, w1)
    end.
Proof.
  intros prompt w1. unfold generate_mvc_with_openai, try_except. cbv zeta.
  fold prompt. unfold bind at 1. unfold print at 1. cbv beta iota.
  unfold bind at 1. unfold llm_chain_invoke. cbn [w_requests w_fs w_console w_tmp].
  destruct (llm E (length (w_requests w)) prompt) as [e|reply].
  - by destruct (is_JSONDecodeError e).
  - unfold bind at 1. unfold print at 1. cbv beta iota.
    rewrite parse_reply. unfold loads.
    by destruct (json_loads E (json_text reply)).
Qed.

End Model.

(** C2 (as amended).  When the reply of the model to a classification
    request is not JSON -- [json.loads] raises on group 1 of the fenced
    block, or on the whole reply when there is no such block --
    [classify_file_with_openai] catches the error, prints
    "JSON Decode Error: ..." and returns the default record for the file:
    classification "unknown", category "Other", conversion type "Unknown".
    An exception of another class raised by the call to the model is not
    caught: it leaves the function. *)
Theorem malformed_classification_gets_default (E : env) (file_path content : string)
    (w : world) :
  let prompt := classification_prompt E file_path content in
  (∀ reply msg,
     llm E (length (w_requests w)) prompt = inr reply →
     json_loads E (json_text reply) = inl msg →
     classify_file_with_openai E file_path content w
     = (Ok (JDict [("file_path", JStr file_path);
                   ("classification", JStr "unknown");
                   ("reason", JStr ("JSON parsing error: " +:+ msg));
                   ("category", JStr "Other");
                   ("conversion_type", JStr "Unknown")]),
        World (w_fs w)
              (w_console w ++ ["Classifying file: " +:+ file_path;
                               "JSON Decode Error: " +:+ msg])
              (w_requests w ++ [prompt]) (w_tmp w)))
  ∧ (∀ e,
       llm E (length (w_requests w)) prompt = inl e →
       is_JSONDecodeError e = false →
       classify_file_with_openai E file_path content w
       = (Raise e,
          World (w_fs w) (w_console w ++ ["Classifying file: " +:+ file_path])
                (w_requests w ++ [prompt]) (w_tmp w))).
Proof.
  intros prompt. split.
  - intros reply msg Hllm Hjson. rewrite classify_cases. cbv zeta. fold prompt.
    rewrite Hllm, Hjson. cbn [w_fs w_console w_requests w_tmp].
    by rewrite <- app_assoc.
  - intros e Hllm He. rewrite classify_cases. cbv zeta. fold prompt.
    by rewrite Hllm, He.
Qed.

Lemma malformed_classification_gets_default_witness :
  (classify_file_with_openai
     (Demo.E (inr "I cannot classify this file.") (inr EmptyString))
     "/tmp/tmp0/index.asp" "<% Response.Write 1 %>" Demo.w1).1
  = Ok (JDict [("file_path", JStr "/tmp/tmp0/index.asp");
               ("classification", JStr "unknown");
               ("reason", JStr "JSON parsing error: Expecting value: line 1 column 1 (char 0)");
               ("category", JStr "Other");
               ("conversion_type", JStr "Unknown")]).
Proof.
  pose proof (malformed_classification_gets_default
                (Demo.E (inr "I cannot classify this file.") (inr EmptyString))
                "/tmp/tmp0/index.asp" "<% Response.Write 1 %>" Demo.w1) as [H _].
  rewrite (H "I cannot classify this file."
             "Expecting value: line 1 column 1 (char 0)" eq_refl eq_refl).
  reflexivity.
Defined.

(** C2 as stated fails: when the call to the model raises (here a
    connection error), classification has failed and the error leaves
    [classify_file_with_openai]; no default record is returned. *)
Lemma classification_error_propagates :
  (classify_file_with_openai
     (Demo.E (inl Demo.connection_error) (inr EmptyString))
     "/tmp/tmp0/index.asp" "<% Response.Write 1 %>" Demo.w1).1
  = Raise Demo.connection_error.
Proof. vm_compute. reflexivity. Qed.

(** ** Reading files and analysing a project *)

Section Analysis.

Variable E : env.

Lemma read_bytes_file file_path data w :
  file_bytes (w_fs w) file_path = Some data →
  read_bytes E file_path w = (Ok data, w).
Proof.
  unfold file_bytes, read_bytes.
  destruct (String.eqb file_path EmptyString); [done|].
  unfold bind, get_fs, ret.
  destruct (lookup_node (w_fs w) _) as [[d|]|]; [|done|done]. by intros [= ->].
Qed.

Lemma read_bytes_no_file file_path w :
  file_bytes (w_fs w) file_path = None →
  ∃ c msg, read_bytes E file_path w = (Raise (PyErr c msg), w)
           ∧ is_UnicodeDecodeError (PyErr c msg) = false.
Proof.
  unfold file_bytes, read_bytes.
  destruct (String.eqb file_path EmptyString).
  - intros _. unfold raise, os_error. eauto.
  - unfold bind, get_fs, raise, os_error.
    destruct (lookup_node (w_fs w) _) as [[d|]|]; [done| |]; intros _; eauto.
Qed.

(** [read_file_content] returns the text [readable_content] describes; it
    returns [None] when the file cannot be read and when neither codec
    decodes it.  It only prints. *)
Lemma read_file_content_value file_path w :
  ∃ w', read_file_content E file_path w
        = (Ok (readable_content E (w_fs w) file_path), w')
        ∧ only_prints w w'.
Proof.
  pose proof (read_file_content_quiet E file_path w) as Hq.
  assert (∃ w', read_file_content E file_path w
                = (Ok (readable_content E (w_fs w) file_path), w')) as [w' Hw'].
  { unfold read_file_content, readable_content, try_except, read_text.
    unfold bind, ret, raise, print.
    destruct (file_bytes (w_fs w) file_path) as [data|] eqn:Hb.
    - rewrite (read_bytes_file _ _ _ Hb).
      destruct (decode E utf_8 data) as [text|]; [by eexists|].
      cbn [is_UnicodeDecodeError]. rewrite (read_bytes_file _ _ _ Hb).
      destruct (decode E windows_1252 data) as [text|]; by eexists.
    - destruct (read_bytes_no_file file_path w Hb) as (c & msg & -> & ->).
      by eexists. }
  exists w'. split; [done|]. by rewrite Hw' in Hq.
Qed.

Lemma bucket_append_keys key record ps :
  dict_keys (bucket_append key record ps) = dict_keys ps.
Proof.
  unfold dict_keys. induction ps as [|[k l] ps IH]; [done|]. cbn [bucket_append].
  destruct (String.eqb k key); [done|]. cbn [fmap list_fmap fst]. by f_equal.
Qed.

Lemma file_record_keys file_path content classification ps w ps' w' :
  file_record file_path content classification ps w = (Ok ps', w') →
  dict_keys ps' = dict_keys ps.
Proof.
  unfold file_record. intros H.
  apply bind_Ok in H as (category & w1 & _ & H).
  apply bind_Ok in H as (found & w2 & _ & H).
  destruct found as [key|]; [|by injection H as <- _].
  apply bind_Ok in H as (c & w3 & _ & H).
  apply bind_Ok in H as (r & w4 & _ & H).
  apply bind_Ok in H as (t & w5 & _ & H).
  injection H as <- _. apply bucket_append_keys.
Qed.

Lemma analyze_file_keys file_path ps w ps' w' :
  analyze_file E file_path ps w = (Ok ps', w') → dict_keys ps' = dict_keys ps.
Proof.
  unfold analyze_file. intros H.
  apply bind_Ok in H as (content & w1 & _ & H).
  destruct content as [content|]; [|by injection H as <- _].
  destruct (String.eqb content EmptyString); [by injection H as <- _|].
  apply bind_Ok in H as (c & w2 & _ & H). by eapply file_record_keys.
Qed.

(** A task asks the model once when its file has a text, and not at all
    otherwise. *)
Lemma analyze_file_requests file_path ps w :
  w_requests (analyze_file E file_path ps w).2
  = w_requests w
    ++ match readable_content E (w_fs w) file_path with
       | Some content =>
           if String.eqb content EmptyString then []
           else [classification_prompt E file_path content]
       | None => []
       end.
Proof.
  unfold analyze_file.
  destruct (read_file_content_value file_path w) as (w1 & Hr & Hfs & Htmp & Hreq).
  rewrite (bind_eq_Ok _ _ _ _ _ Hr).
  destruct (readable_content E (w_fs w) file_path) as [content|].
  - destruct (String.eqb content EmptyString).
    + simpl. by rewrite app_nil_r.
    + pose proof (classify_requests E file_path content w1) as Hc.
      unfold bind.
      destruct (classify_file_with_openai E file_path content w1) as [[c|e] w2].
      * simpl in Hc. destruct (file_record_quiet file_path content c ps w2) as (_ & _ & Hq).
        rewrite Hq, Hc, Hreq. done.
      * simpl in *. by rewrite Hc, Hreq.
  - simpl. by rewrite app_nil_r.
Qed.

(** The executor runs every task: it returns one future per task, never
    raises, keeps the keys of the structure, and the requests it sends
    are those of the tasks whose file has a text, in order. *)
Lemma run_tasks_total file_paths : ∀ ps w,
  ∃ futures ps' w',
    run_tasks E file_paths ps w = (Ok (futures, ps'), w')
    ∧ length futures = length file_paths
    ∧ dict_keys ps' = dict_keys ps
    ∧ same_fs w w'
    ∧ w_requests w'
      = w_requests w
        ++ map (λ fc, classification_prompt E fc.1 fc.2)
             (omap (λ file_path,
                      match readable_content E (w_fs w) file_path with
                      | Some content =>
                          if String.eqb content EmptyString then None
                          else Some (file_path, content)
                      | None => None
                      end) file_paths).
Proof.
  induction file_paths as [|f l IH]; intros ps w.
  - exists [], ps, w. simpl. by rewrite app_nil_r.
  - cbn [run_tasks].
    pose proof (analyze_file_requests f ps w) as Hreq.
    pose proof (analyze_file_same_fs E f ps w) as Hfs.
    pose proof (analyze_file_keys f ps w) as Hkeys.
    destruct (analyze_file E f ps w) as [[ps1|e] w1]; simpl in Hreq, Hfs.
    + destruct (IH ps1 w1) as (futs & ps' & w' & Hrun & Hlen & Hk & Hfs' & Hreq').
      exists (None :: futs), ps', w'. rewrite (bind_eq_Ok _ _ _ _ _ Hrun).
      split; [done|]. split; [simpl; by rewrite Hlen|].
      split; [rewrite Hk; by eapply Hkeys|].
      split; [by eapply same_fs_trans|].
      rewrite Hreq', Hreq. destruct Hfs as [-> _]. cbn [omap list_omap].
      destruct (readable_content E (w_fs w) f) as [content|]; [|by rewrite app_nil_r].
      destruct (String.eqb content EmptyString); [by rewrite app_nil_r|].
      by rewrite <- app_assoc.
    + destruct (IH ps w1) as (futs & ps' & w' & Hrun & Hlen & Hk & Hfs' & Hreq').
      exists (Some e :: futs), ps', w'. rewrite (bind_eq_Ok _ _ _ _ _ Hrun).
      split; [done|]. split; [simpl; by rewrite Hlen|].
      split; [done|].
      split; [by eapply same_fs_trans|].
      rewrite Hreq', Hreq. destruct Hfs as [-> _]. cbn [omap list_omap].
      destruct (readable_content E (w_fs w) f) as [content|]; [|by rewrite app_nil_r].
      destruct (String.eqb content EmptyString); [by rewrite app_nil_r|].
      by rewrite <- app_assoc.
Qed.

Lemma report_futures futures w :
  for_each futures
    (λ future,
       match future with
       | Some e => print ("Error processing file: " +:+ str_exn e)
       | None => ret tt
       end) w
  = (Ok tt, World (w_fs w) (w_console w ++ future_lines futures)
              (w_requests w) (w_tmp w)).
Proof.
  revert w. induction futures as [|[e|] l IH]; intros w; cbn [for_each].
  - unfold ret, future_lines. simpl. rewrite app_nil_r. by destruct w.
  - unfold bind, print. rewrite IH. cbn [w_fs w_console w_requests w_tmp].
    unfold future_lines. cbn [omap list_omap fmap option_fmap option_map].
    by rewrite <- app_assoc.
  - unfold bind, ret. rewrite IH. done.
Qed.

Lemma analyze_asp_project_total project_path w :
  ∃ futures ps w1,
    run_tasks E (submitted_files (w_fs w) project_path) initial_structure w
    = (Ok (futures, ps), w1)
    ∧ analyze_asp_project E project_path w
      = (Ok ps, World (w_fs w1) (w_console w1 ++ future_lines futures)
                  (w_requests w1) (w_tmp w1))
    ∧ length futures = length (submitted_files (w_fs w) project_path)
    ∧ dict_keys ps = bucket_names
    ∧ same_fs w w1
    ∧ w_requests w1
      = w_requests w
        ++ map (λ fc, classification_prompt E fc.1 fc.2)
             (classified_files E (w_fs w) project_path).
Proof.
  destruct (run_tasks_total (submitted_files (w_fs w) project_path) initial_structure w)
    as (futs & ps & w1 & Hrun & Hlen & Hk & Hfs & Hreq).
  exists futs, ps, w1. split; [done|]. split; [|done].
  unfold analyze_asp_project. unfold bind at 1. unfold get_fs at 1. cbv beta iota.
  rewrite (bind_eq_Ok _ _ _ _ _ Hrun). cbn [fst snd].
  unfold bind. by rewrite report_futures.
Qed.

End Analysis.

(** ** What only adds to the filesystem

    Until the clean-up, every step keeps the filesystem well formed, keeps
    the directories that exist, and draws no temporary name (the two calls
    of [mkdtemp] apart). *)

Lemma grows_refl w : grows w w.
Proof. unfold grows, dirs_persist. auto. Qed.

Lemma grows_trans w1 w2 w3 : grows w1 w2 → grows w2 w3 → grows w1 w3.
Proof.
  intros (Ha & Hb & Hc) (Ha' & Hb' & Hc'). split; [|split].
  - auto.
  - intros p Hp. by apply Hb', Hb.
  - congruence.
Qed.

Lemma same_fs_grows {A} (m : M A) : stable same_fs m → stable grows m.
Proof.
  intros H w. destruct (H w) as [Hfs Htmp]. unfold grows, dirs_persist.
  rewrite Hfs. auto.
Qed.

Create HintDb grow discriminated.

Ltac grow_auto :=
  repeat first [ solve [eauto with grow] | stable_case
               | stable_step grows_refl grows_trans ].

Section Grows.

Variable E : env.

Hint Extern 1 (stable grows _) =>
  apply same_fs_grows; solve [eauto with frame] : grow.

Lemma put_fs_grows (fs' : filesystem) w :
  (fs_wf (w_fs w) → fs_wf fs') → dirs_persist (w_fs w) fs' →
  grows w (put_fs fs' w).2.
Proof. intros H1 H2. unfold grows. auto. Qed.

Lemma makedirs_grows name : stable grows (makedirs E name).
Proof.
  unfold makedirs. destruct (String.eqb name EmptyString); [grow_auto|].
  intros w. unfold bind at 1. unfold get_fs at 1. cbv beta iota.
  pose proof (mkdirs_wf (posixpath.components name) [] (w_fs w)) as Hwf.
  pose proof (mkdirs_dirs_persist (posixpath.components name) [] (w_fs w)) as Hd.
  destruct (mkdirs [] (posixpath.components name) (w_fs w)) as [[c|] fs'];
    simpl in Hwf, Hd.
  - unfold bind, put_fs, raise. cbn. unfold grows. auto.
  - apply put_fs_grows; auto.
Qed.

Lemma open_write_grows file_path data : stable grows (open_write E file_path data).
Proof.
  unfold open_write. destruct (String.eqb file_path EmptyString); [grow_auto|].
  intros w. unfold bind at 1. unfold get_fs at 1. cbv beta iota.
  set (p := posixpath.components file_path).
  assert (Hins : lookup_node (w_fs w) p ≠ Some NDir →
                 lookup_node (w_fs w) (removelast p) = Some NDir →
                 grows w (put_fs (<[p := NFile data]> (w_fs w)) w).2).
  { intros Hp Hpar. assert (p ≠ []) by (intros Hnil; by rewrite Hnil in Hp).
    rewrite lookup_node_Some_dir in Hp by done.
    apply put_fs_grows.
    - intros Hwf. apply fs_wf_insert; auto.
    - intros q Hq. rewrite lookup_node_insert_ne; [done|].
      intros <-. rewrite lookup_node_Some_dir in Hq by done. congruence. }
  destruct (lookup_node (w_fs w) p) as [[d|]|] eqn:Hp.
  - destruct (lookup_node (w_fs w) (removelast p)) as [[d'|]|] eqn:Hpar;
      [apply grows_refl | | apply grows_refl]. by apply Hins.
  - apply grows_refl.
  - destruct (lookup_node (w_fs w) (removelast p)) as [[d'|]|] eqn:Hpar;
      [apply grows_refl | | apply grows_refl]. by apply Hins.
Qed.

Lemma git_clone_into_grows github_url dest :
  stable grows (git_clone_into E github_url dest).
Proof.
  unfold git_clone_into. destruct github_url; try (by intros w; apply grows_refl).
  destruct (git_clone E s) as [e|tree]; [by intros w; apply grows_refl|].
  intros w. unfold bind, get_fs.
  destruct (install (posixpath.components dest) tree (w_fs w)) as [fs'|] eqn:Hi;
    [|apply grows_refl].
  apply put_fs_grows.
  - intros Hwf. by eapply install_wf.
  - by eapply install_dirs_persist.
Qed.

Lemma path_exists_grows p : stable grows (path_exists p).
Proof. intros w. apply grows_refl. Qed.

Hint Resolve makedirs_grows open_write_grows git_clone_into_grows path_exists_grows : grow.

Lemma zip_write_all_grows top files : ∀ zipf, stable grows (zip_write_all E top files zipf).
Proof.
  induction files as [|[root file] files IH]; intros zipf; simpl; grow_auto.
Qed.

Hint Resolve zip_write_all_grows : grow.

Lemma zip_tree_grows top : stable grows (zip_tree E top).
Proof. unfold zip_tree. grow_auto. Qed.

Hint Resolve zip_tree_grows : grow.

Lemma save_zip_grows project_dir name : stable grows (save_zip_to_downloads E project_dir name).
Proof. unfold save_zip_to_downloads. grow_auto. Qed.

Lemma write_project_file_grows project_dir item :
  stable grows (write_project_file E project_dir item).
Proof. unfold write_project_file. grow_auto. Qed.

Lemma items_grows v : stable grows (items v).
Proof. destruct v; intros w; apply grows_refl. Qed.

Lemma url_text_grows v : stable grows (url_text v).
Proof. destruct v; intros w; apply grows_refl. Qed.

End Grows.

#[global] Hint Resolve makedirs_grows open_write_grows git_clone_into_grows
  path_exists_grows zip_write_all_grows zip_tree_grows save_zip_grows
  write_project_file_grows items_grows url_text_grows : grow.
#[global] Hint Extern 1 (stable grows _) =>
  apply same_fs_grows; solve [eauto with frame] : grow.

(** ** The stages of a request *)

Ltac inv_bind H :=
  let a := fresh "a" in
  let w := fresh "w" in
  let Ha := fresh "H" a in
  apply bind_Ok in H as (a & w & Ha & H).

Ltac stable_of H R tac :=
  match type of H with
  | ?m ?w = (_, ?w') =>
      let Hs := fresh "Hs" in
      assert (stable R m) as Hs by tac;
      specialize (Hs w); rewrite H in Hs; cbn [snd] in Hs
  end.

Section Stages.

Variable E : env.

Lemma mkdtemp_Ok d w w' :
  mkdtemp E w = (Ok d, w') →
  let name := "tmp" +:+ tmp_suffix E (w_tmp w) in
  let P := posixpath.components (tempdir E) ++ [name] in
  d = tmp_path E (w_tmp w)
  ∧ posixpath.components d = P
  ∧ w_fs w !! P = None
  ∧ lookup_node (w_fs w) (posixpath.components (tempdir E)) = Some NDir
  ∧ w' = World (<[P := NDir]> (w_fs w)) (w_console w) (w_requests w) (S (w_tmp w)).
Proof.
  intros H name P. unfold mkdtemp in H. fold name in H. fold P in H.
  destruct (lookup_node (w_fs w) (posixpath.components (tempdir E)))
    as [[x|]|] eqn:Hdir; [done| |done].
  destruct (w_fs w !! P) eqn:HP; [done|].
  destruct (posixpath.valid_nameb name) eqn:Hname; [|done].
  injection H as <- <-. repeat split.
  unfold tmp_path. fold name. by apply components_join_name.
Qed.

Lemma mkdtemp_Ok_grows d w w' :
  mkdtemp E w = (Ok d, w') →
  (fs_wf (w_fs w) → fs_wf (w_fs w'))
  ∧ dirs_persist (w_fs w) (w_fs w')
  ∧ lookup_node (w_fs w') (posixpath.components d) = Some NDir
  ∧ w_tmp w' = S (w_tmp w).
Proof.
  intros (_ & Hc & HP & Hdir & ->)%mkdtemp_Ok. cbn [w_fs w_tmp]. rewrite Hc.
  split; [|split; [|split]].
  - intros Hwf. apply fs_wf_insert; [done | by rewrite removelast_snoc | by left].
  - intros q Hq. rewrite lookup_node_insert_ne; [done|].
    intros <-. rewrite lookup_node_Some_dir in Hq; [congruence|].
    by destruct (posixpath.components (tempdir E)).
  - apply lookup_node_insert_eq. by destruct (posixpath.components (tempdir E)).
  - done.
Qed.

Lemma clone_and_zip_repo_Ok github_url zip_path temp_clone_path w w1 :
  clone_and_zip_repo E github_url w = (Ok (Some (zip_path, temp_clone_path)), w1) →
  temp_clone_path = tmp_path E (w_tmp w)
  ∧ posixpath.components temp_clone_path
    = posixpath.components (tempdir E) ++ ["tmp" +:+ tmp_suffix E (w_tmp w)]
  ∧ zip_path = posixpath.join (tempdir E) "cloned_repo.zip"
  ∧ (fs_wf (w_fs w) → fs_wf (w_fs w1))
  ∧ dirs_persist (w_fs w) (w_fs w1)
  ∧ lookup_node (w_fs w1) (posixpath.components temp_clone_path) = Some NDir
  ∧ w_tmp w1 = S (w_tmp w).
Proof.
  unfold clone_and_zip_repo. intros H.
  apply try_except_Ok in H as [H | (e & w2 & hm & _ & [= <-] & H)].
  2: { unfold bind, print, ret in H. discriminate H. }
  inv_bind H. rename a into tcp. rename w0 into wa.
  destruct (mkdtemp_Ok_grows _ _ _ Ha) as (Hwf & Hdirs & Hdir & Htmp).
  apply mkdtemp_Ok in Ha as (Htcp & Hshape & _). cbv zeta in Hshape.
  stable_of H grows grow_auto. destruct Hs as (Hwf' & Hdirs' & Htmp').
  do 7 inv_bind H. injection H as <- <- <-. cbv zeta.
  split; [done|]. split; [done|]. split; [done|]. split; [auto|].
  split; [intros p Hp; by apply Hdirs', Hdirs|].
  split; [by apply Hdirs'|]. congruence.
Qed.

Lemma generate_project_Ok github_url temp_clone_path project_name mvc_content w w1 :
  generate_project E github_url w = (Ok (temp_clone_path, project_name, mvc_content), w1) →
  ∃ url,
    github_url = JStr url
    ∧ project_name = project_name_of url
    ∧ temp_clone_path = tmp_path E (w_tmp w)
    ∧ posixpath.components temp_clone_path
      = posixpath.components (tempdir E) ++ ["tmp" +:+ tmp_suffix E (w_tmp w)]
    ∧ (fs_wf (w_fs w) → fs_wf (w_fs w1))
    ∧ dirs_persist (w_fs w) (w_fs w1)
    ∧ lookup_node (w_fs w1) (posixpath.components temp_clone_path) = Some NDir
    ∧ w_tmp w1 = S (w_tmp w).
Proof.
  unfold generate_project. intros H. inv_bind H.
  destruct a as [[zip_path tcp]|]; [|done].
  destruct (String.eqb zip_path EmptyString); [done|].
  apply clone_and_zip_repo_Ok in Ha as (Htcp & Hshape & _ & Hwf & Hdirs & Hdir & Htmp).
  stable_of H grows grow_auto. destruct Hs as (Hwf' & Hdirs' & Htmp').
  inv_bind H. inv_bind H. cbv zeta in H. inv_bind H. injection H as <- <- <- <-.
  destruct github_url; try done. injection Ha0 as <-.
  eexists. split; [done|]. split; [done|]. split; [done|]. split; [done|].
  split; [auto|]. split; [intros p Hp; by apply Hdirs', Hdirs|].
  split; [by apply Hdirs'|]. congruence.
Qed.

Lemma deliver_project_Ok temp_clone_path project_name mvc_content resp w w' :
  deliver_project E temp_clone_path project_name mvc_content w = (Ok resp, w') →
  media_type resp = "application/zip"
  ∧ headers resp
    = [("Content-Disposition",
        "attachment; filename=" +:+ project_name +:+ "_mvc_project.zip")].
Proof.
  unfold deliver_project. intros H. do 9 inv_bind H. by injection H as <- _.
Qed.

Lemma process_github_Ok data resp w w' :
  process_github E data w = (Ok resp, w') →
  ∃ d github_url temp_clone_path project_name mvc_content w1,
    data = JDict d
    ∧ dict_lookup "githubUrl" d = Some github_url
    ∧ truthy github_url = true
    ∧ generate_project E github_url w
      = (Ok (temp_clone_path, project_name, mvc_content), w1)
    ∧ deliver_project E temp_clone_path project_name mvc_content w1 = (Ok resp, w').
Proof.
  unfold process_github. intros H. inv_bind H.
  destruct data; try done. cbn [get_or] in Ha. injection Ha as <- <-.
  destruct (dict_lookup "githubUrl" d) as [url|] eqn:Hd; [|done].
  destruct (truthy url) eqn:Ht; [|done]. cbn [negb] in H.
  apply try_except_Ok in H as [H | (e & w2 & hm & _ & [= <-] & H)].
  2: { unfold bind, print, raise in H. discriminate H. }
  unfold process_github_try in H. inv_bind H. destruct a as [[tcp name] mvc].
  do 6 eexists. repeat split; eauto.
Qed.

End Stages.

(** ** The clean-up *)

Lemma stable_Ok {A} (R : world → world → Prop) (m : M A) w r w' :
  stable R m → m w = (r, w') → R w w'.
Proof. intros H Hm. specialize (H w). by rewrite Hm in H. Qed.

Lemma join_nonempty a b : b ≠ EmptyString → posixpath.join a b ≠ EmptyString.
Proof.
  intros Hb. unfold posixpath.join.
  destruct (Str.startswith "/" b); [done|].
  destruct (String.eqb a EmptyString || Str.endswith "/" a); by destruct a.
Qed.

Lemma tmp_path_nonempty E n : tmp_path E n ≠ EmptyString.
Proof. by apply join_nonempty. Qed.

Lemma rmtree_Ok E p w w' :
  rmtree E p w = (Ok tt, w') →
  lookup_node (w_fs w) (posixpath.components p) = Some NDir →
  w' = World (filter (λ kv, under (posixpath.components p) kv.1 = false) (w_fs w))
         (w_console w) (w_requests w) (w_tmp w).
Proof.
  unfold rmtree, handle_remove_readonly, bind, get_fs, raise. intros H Hdir.
  destruct (String.eqb p EmptyString); [done|]. rewrite Hdir in H.
  by injection H as <-.
Qed.

Lemma removed_lookup (fs : filesystem) (top p : path) :
  under top p = true →
  filter (λ kv : path * node, under top kv.1 = false) fs !! p = None.
Proof.
  intros Hu. apply map_lookup_filter_None. right. intros x _. simpl. congruence.
Qed.

Lemma removed_stays (fs : filesystem) (top p : path) :
  fs !! p = None →
  filter (λ kv : path * node, under top kv.1 = false) fs !! p = None.
Proof. intros H. apply map_lookup_filter_None. by left. Qed.

Lemma removed_other (fs : filesystem) (top p : path) :
  under top p = false →
  filter (λ kv : path * node, under top kv.1 = false) fs !! p = fs !! p.
Proof.
  intros Hu. destruct (fs !! p) as [x|] eqn:Hp.
  - by apply map_lookup_filter_Some.
  - by apply removed_stays.
Qed.

Lemma siblings_not_under (d : path) (a b : string) :
  a ≠ b → under (d ++ [a]) (d ++ [b]) = false.
Proof.
  intros Hne. destruct (under (d ++ [a]) (d ++ [b])) eqn:Hu; [|done].
  apply under_spec in Hu as [rel Hrel]. rewrite <- app_assoc in Hrel.
  apply app_inv_head in Hrel. destruct rel; injection Hrel as ->; by destruct Hne.
Qed.

(** What the second half of a request leaves behind when it succeeds: the
    clone directory and the output directory are gone. *)
Lemma deliver_project_cleans E (c : string) temp_clone_path project_name mvc_content
    resp w w' :
  posixpath.components temp_clone_path = posixpath.components (tempdir E) ++ [c] →
  temp_clone_path ≠ EmptyString →
  lookup_node (w_fs w) (posixpath.components temp_clone_path) = Some NDir →
  deliver_project E temp_clone_path project_name mvc_content w = (Ok resp, w') →
  w_tmp w' = S (w_tmp w)
  ∧ ∀ p, under (posixpath.components temp_clone_path) p = true
         ∨ under (posixpath.components (tmp_path E (w_tmp w))) p = true →
         w_fs w' !! p = None.
Proof.
  intros Hshape Hnonempty Hclone H. unfold deliver_project in H.
  inv_bind H. rename a into output_dir. rename w0 into wa.
  destruct (mkdtemp_Ok_grows E _ _ _ Ha) as (_ & Hdirs & Hout & Htmp).
  pose proof (mkdtemp_Ok E _ _ _ Ha) as (Hd & Hc & Hfree & _ & _).
  cbv zeta in Hc, Hfree. rewrite <- Hd.
  set (D := posixpath.components (tempdir E)) in *.
  set (b := "tmp" +:+ tmp_suffix E (w_tmp w)) in *.
  assert (Hab : c ≠ b).
  { intros ->. rewrite Hshape, lookup_node_Some_dir in Hclone by by destruct D.
    congruence. }
  apply Hdirs in Hclone.
  cbv zeta in H.
  inv_bind H. apply (stable_Ok grows) in Ha0; [|grow_auto].
  inv_bind H. apply (stable_Ok grows) in Ha1; [|grow_auto].
  inv_bind H. apply (stable_Ok grows) in Ha2; [|grow_auto].
  inv_bind H. apply (stable_Ok grows) in Ha3; [|grow_auto].
  inv_bind H. apply (stable_Ok grows) in Ha4; [|grow_auto].
  assert (Hg : grows wa w4) by eauto using grows_trans.
  destruct Hg as (_ & Hdirs' & Htmp').
  apply Hdirs' in Hclone, Hout.
  inv_bind H. unfold path_exists, bind, get_fs, ret in Ha5.
  rewrite Hclone in Ha5. apply String.eqb_neq in Hnonempty. rewrite Hnonempty in Ha5.
  injection Ha5 as <- <-. cbn [negb andb] in H.
  inv_bind H. destruct a4. apply rmtree_Ok in Ha5; [|done].
  inv_bind H. destruct a4. apply rmtree_Ok in Ha6.
  - injection H as _ <-. subst w5 w6. cbn [w_fs w_tmp]. split; [congruence|].
    intros p [Hp|Hp].
    + apply removed_stays. by apply removed_lookup.
    + by apply removed_lookup.
  - subst w5. cbn [w_fs]. rewrite Hshape, Hc.
    rewrite lookup_node_Some_dir by by destruct D.
    rewrite removed_other by by apply siblings_not_under.
    rewrite <- Hc. by rewrite lookup_node_Some_dir in Hout by (rewrite Hc; by destruct D).
Qed.

(** C7 (as amended).  On every successful request the clean-up comes last:
    when the response is returned, the clone directory and the output
    directory drawn for the request (the two temporary directories it
    created, and no third) and everything below them are gone. *)
Theorem temporary_directories_are_removed (E : env) (data : json) (w w' : world)
    (resp : response) :
  process_github E data w = (Ok resp, w') →
  w_tmp w' = S (S (w_tmp w))
  ∧ ∀ p, under (posixpath.components (tmp_path E (w_tmp w))) p = true
         ∨ under (posixpath.components (tmp_path E (S (w_tmp w)))) p = true →
         w_fs w' !! p = None.
Proof.
  intros H.
  apply process_github_Ok in H
    as (d & url & tcp & name & mvc & w1 & -> & Hd & _ & Hg & Hdel).
  apply generate_project_Ok in Hg as (s & -> & -> & Htcp & Hshape & _ & _ & Hdir & Htmp).
  eapply deliver_project_cleans in Hdel; [| exact Hshape | | exact Hdir].
  - rewrite Htmp in Hdel. by rewrite <- Htcp.
  - rewrite Htcp. apply tmp_path_nonempty.
Qed.

Lemma temporary_directories_are_removed_witness :
  let E := Demo.E (inr Demo.classification_reply)
             (inr (Demo.generation_reply "Controllers/HomeController.cs")) in
  let w' := (process_github E Demo.request Demo.w0).2 in
  w_fs w' !! ["tmp"; "tmp0"] = None
  ∧ w_fs w' !! ["tmp"; "tmp0"; "index.asp"] = None
  ∧ w_fs w' !! ["tmp"; "tmp1"; "shop"; "Controllers"; "HomeController.cs"] = None.
Proof.
  cbv zeta.
  set (E := Demo.E (inr Demo.classification_reply)
              (inr (Demo.generation_reply "Controllers/HomeController.cs"))).
  set (r := process_github E Demo.request Demo.w0).
  assert (Hr : r = (Ok (StreamingResponse
                          [("Controllers/HomeController.cs", "var app = 1;")]
                          "application/zip"
                          [("Content-Disposition",
                            "attachment; filename=shop_mvc_project.zip")]), r.2))
    by (vm_compute; reflexivity).
  destruct (temporary_directories_are_removed E Demo.request Demo.w0 r.2 _ Hr)
    as [_ H].
  repeat split; apply H; vm_compute; auto.
Defined.

(** C7 as stated fails: the request leaves temporary state behind.  The
    archive of the clone that [clone_and_zip_repo] writes to the temporary
    directory is there when the response is returned, and it was not there
    before. *)
Lemma archive_of_the_clone_is_left_behind :
  let E := Demo.E (inr Demo.classification_reply)
             (inr (Demo.generation_reply "Controllers/HomeController.cs")) in
  let r := process_github E Demo.request Demo.w0 in
  (∃ resp, r.1 = Ok resp)
  ∧ w_fs Demo.w0 !! ["tmp"; "cloned_repo.zip"] = None
  ∧ ∃ data, w_fs r.2 !! ["tmp"; "cloned_repo.zip"] = Some (NFile data).
Proof.
  cbv zeta. split; [|split].
  - eexists. vm_compute. reflexivity.
  - vm_compute. reflexivity.
  - eexists. vm_compute. reflexivity.
Qed.

(** ** Writing the project and filling the archive *)

Lemma NoDup_omap {A B} (f : A → option B) (l : list A) :
  NoDup l →
  (∀ x y z, x ∈ l → y ∈ l → f x = Some z → f y = Some z → x = y) →
  NoDup (omap f l).
Proof.
  induction l as [|a l IH]; intros Hnd Hinj; [constructor|].
  apply NoDup_cons in Hnd as [Ha Hnd]. cbn [omap list_omap].
  destruct (f a) as [b|] eqn:Hfa.
  - apply NoDup_cons. split.
    + intros (x & Hx & Hfx)%list_elem_of_omap.
      assert (a = x) as <- by (eapply Hinj; [by left | by right | done | done]).
      done.
    + apply IH; [done|]. intros x y z Hx Hy. apply Hinj; by right.
  - apply IH; [done|]. intros x y z Hx Hy. apply Hinj; by right.
Qed.

Lemma split_slash_inj k k' : Str.split_slash k = Str.split_slash k' → k = k'.
Proof. intros H. by rewrite <- (join_split_slash k), <- (join_split_slash k'), H. Qed.

Lemma join_nonempty_l a b :
  a ≠ EmptyString → Str.startswith "/" b = false → posixpath.join a b ≠ EmptyString.
Proof.
  intros Ha Hb. unfold posixpath.join. rewrite Hb.
  destruct (String.eqb a EmptyString || Str.endswith "/" a); by destruct a.
Qed.

Lemma replace_from_no_slash old skip s :
  Str.has_slash s = false →
  Str.has_slash (Str.replace_from old EmptyString skip s) = false.
Proof.
  revert skip. induction s as [|c r IH]; intros skip Hs; [done|].
  cbn [Str.has_slash] in Hs. apply orb_false_elim in Hs as [Hc Hr].
  cbn [Str.replace_from]. destruct skip as [|k]; [|by apply IH].
  destruct (Str.startswith old (String c r)).
  - change (EmptyString +:+ ?x) with x. by apply IH.
  - cbn [Str.has_slash]. rewrite Hc. by apply IH.
Qed.

Lemma last_in_default {A} (l : list A) (d : A) : l ≠ [] → List.last l d ∈ l.
Proof.
  intros Hne. destruct (exists_last Hne) as (l' & x & ->).
  rewrite last_last. apply elem_of_app. right. by left.
Qed.

Lemma project_name_no_slash url : Str.has_slash (project_name_of url) = false.
Proof.
  unfold project_name_of, Str.replace. apply replace_from_no_slash.
  pose proof (split_slash_parts url) as H. rewrite Forall_forall in H.
  apply H, last_in_default, split_slash_nonempty.
Qed.

Section Archive.

Variable E : env.

Lemma makedirs_Ok name w w' :
  makedirs E name w = (Ok tt, w') →
  w' = World (mkdirs [] (posixpath.components name) (w_fs w)).2
         (w_console w) (w_requests w) (w_tmp w)
  ∧ (mkdirs [] (posixpath.components name) (w_fs w)).1 = None.
Proof.
  unfold makedirs. destruct (String.eqb name EmptyString); [done|].
  unfold bind, get_fs, put_fs, raise.
  destruct (mkdirs [] (posixpath.components name) (w_fs w)) as [[c|] fs']; [done|].
  by intros [= <-].
Qed.

Lemma open_write_Ok file_path data w w' :
  open_write E file_path data w = (Ok tt, w') →
  w' = World (<[posixpath.components file_path := NFile data]> (w_fs w))
         (w_console w) (w_requests w) (w_tmp w)
  ∧ w_fs w !! posixpath.components file_path ≠ Some NDir.
Proof.
  unfold open_write. destruct (String.eqb file_path EmptyString); [done|].
  unfold bind, get_fs, put_fs, raise.
  set (p := posixpath.components file_path).
  destruct (lookup_node (w_fs w) p) as [[d|]|] eqn:Hp.
  - destruct (lookup_node (w_fs w) (removelast p)) as [[d'|]|]; [done| |done].
    intros [= <-]. split; [done|]. destruct p; [done|]. simpl in Hp. congruence.
  - done.
  - destruct (lookup_node (w_fs w) (removelast p)) as [[d'|]|]; [done| |done].
    intros [= <-]. split; [done|]. destruct p; [done|]. simpl in Hp. congruence.
Qed.

(** Files keep their bytes when directories are made. *)
Lemma mkdirs_files (names : list string) (cur : path) (fs : filesystem) (q : path)
    (data : string) :
  (mkdirs cur names fs).2 !! q = Some (NFile data) ↔ fs !! q = Some (NFile data).
Proof.
  destruct (mkdirs_lookup names cur fs q) as [->|[H1 H2]]; [done|].
  rewrite H1, H2. split; intros; discriminate.
Qed.

Lemma write_project_file_written project_dir item done w w' :
  clean_key item.1 →
  (∀ item', item' ∈ done → item'.1 ≠ item.1) →
  written E (posixpath.components project_dir) (w_fs w) done →
  write_project_file E project_dir item w = (Ok tt, w') →
  written E (posixpath.components project_dir) (w_fs w') (done ++ [item]).
Proof.
  intros Hclean Hnew Hinv H. unfold write_project_file in H.
  inv_bind H. destruct a. apply makedirs_Ok in Ha as [-> _].
  apply open_write_Ok in H as [-> _]. cbn [w_fs].
  rewrite components_join_key by done.
  set (Q := posixpath.components project_dir) in *.
  intros q data Hq.
  destruct (decide (Q ++ Str.split_slash item.1 = q)) as [<-|Hne].
  - rewrite lookup_insert_eq. split.
    + intros [= <-]. exists item. split; [|done].
      apply elem_of_app. right. by left.
    + intros (item' & Hin & Heq & ->). apply elem_of_app in Hin as [Hin|Hin].
      * apply app_inv_head, split_slash_inj in Heq. by destruct (Hnew item' Hin).
      * by apply list_elem_of_singleton in Hin as ->.
  - rewrite lookup_insert_ne by done. rewrite mkdirs_files, (Hinv q data Hq).
    split; intros (item' & Hin & Heq & ->).
    + exists item'. split; [|done]. apply elem_of_app. by left.
    + apply elem_of_app in Hin as [Hin|Hin]; [by exists item'|].
      apply list_elem_of_singleton in Hin as ->. by destruct Hne.
Qed.

Lemma write_project_files_written project_dir items : ∀ done w w',
  Forall clean_key items.*1 →
  NoDup (done ++ items).*1 →
  written E (posixpath.components project_dir) (w_fs w) done →
  for_each items (write_project_file E project_dir) w = (Ok tt, w') →
  written E (posixpath.components project_dir) (w_fs w') (done ++ items).
Proof.
  induction items as [|item items IH]; intros done w w' Hclean Hnd Hinv H.
  - injection H as <-. by rewrite app_nil_r.
  - cbn [for_each] in H. inv_bind H. destruct a.
    apply Forall_cons in Hclean as [Hc Hclean].
    replace (done ++ item :: items) with ((done ++ [item]) ++ items) in *
      by by rewrite <- app_assoc.
    eapply IH; [done | done | | exact H].
    eapply write_project_file_written; [done | | done | exact Ha].
    intros item' Hin Heq. rewrite !fmap_app in Hnd.
    apply NoDup_app in Hnd as [Hnd _]. apply NoDup_app in Hnd as (_ & Hnd & _).
    apply (Hnd item'.1).
    + apply list_elem_of_fmap. by exists item'.
    + rewrite Heq. by left.
Qed.

(** Filling the archive reads the files the walk reports. *)
Lemma zip_write_all_Ok top files : ∀ zipf zb w w',
  zip_write_all E top files zipf w = (Ok zb, w') →
  zb = zipf ++ omap (entry_of (w_fs w) top) files.
Proof.
  induction files as [|[root file] files IH]; intros zipf zb w w' H.
  - injection H as <- _. by rewrite app_nil_r.
  - cbn [zip_write_all] in H. cbv zeta in H. inv_bind H.
    pose proof (read_bytes_quiet E (posixpath.join root file) w) as (Hfs & _).
    rewrite Ha in Hfs. cbn [snd] in Hfs.
    apply IH in H. rewrite Hfs in H. cbn [omap list_omap].
    unfold entry_of at 1. cbn [fst snd].
    destruct (file_bytes (w_fs w) (posixpath.join root file)) as [data|] eqn:Hb.
    + rewrite (read_bytes_file E _ _ _ Hb) in Ha. injection Ha as <- _.
      by rewrite H, <- app_assoc.
    + destruct (read_bytes_no_file E _ w Hb) as (c & msg & Hr & _). congruence.
Qed.

Lemma zip_tree_Ok top zb w w' :
  zip_tree E top w = (Ok zb, w') →
  top ≠ EmptyString →
  zb = omap (λ kv, walk_entry top no_prune kv ≫= entry_of (w_fs w) top)
         (map_to_list (w_fs w)).
Proof.
  unfold zip_tree, bind, get_fs. intros H Htop. apply zip_write_all_Ok in H.
  rewrite H. unfold walk. apply String.eqb_neq in Htop. rewrite Htop. cbn [app].
  clear. induction (map_to_list (w_fs w)) as [|kv l IH]; [done|].
  cbn [omap list_omap]. destruct (walk_entry top no_prune kv) as [rf|]; cbn [mbind option_bind].
  - cbn [omap list_omap]. destruct (entry_of (w_fs w) top rf); by rewrite IH.
  - done.
Qed.

(** The entry of a file that lies below [top] under a chain of names. *)
Lemma archived_entry (fs : filesystem) top rel data :
  top ≠ EmptyString → rel ≠ [] → Forall valid_name rel →
  fs !! (posixpath.components top ++ rel) = Some (NFile data) →
  walk_entry top no_prune (posixpath.components top ++ rel, NFile data)
    ≫= entry_of fs top
  = Some (Str.join_slash rel, data).
Proof.
  intros Htop Hne Hvalid Hfile. unfold walk_entry. cbn [fst snd].
  rewrite strip_dir_app. destruct rel as [|c rel']; [done|].
  set (rel := c :: rel') in *. unfold no_prune. cbn [mbind option_bind].
  unfold entry_of. cbn [fst snd]. unfold file_bytes.
  assert (Hlast : valid_name (List.last rel EmptyString)).
  { pose proof (last_in_default rel EmptyString Hne) as Hin.
    rewrite Forall_forall in Hvalid. by apply Hvalid. }
  assert (Hj : posixpath.join (fold_left posixpath.join (removelast rel) top)
                 (List.last rel EmptyString) ≠ EmptyString).
  { apply join_nonempty. by apply valid_name_inv in Hlast as [? _]. }
  apply String.eqb_neq in Hj. rewrite Hj.
  rewrite components_walked by done.
  rewrite lookup_node_Some_dir by by destruct (posixpath.components top).
  rewrite Hfile. by rewrite relpath_walked.
Qed.

Lemma walk_entry_Some top kv rf :
  walk_entry top no_prune kv = Some rf →
  ∃ data rel, kv = (posixpath.components top ++ rel, NFile data) ∧ rel ≠ [].
Proof.
  destruct kv as [p [data|]]; unfold walk_entry; cbn [fst snd]; [|done].
  destruct (strip_dir (posixpath.components top) p) as [rel|] eqn:Hs; [|done].
  apply strip_dir_Some in Hs as ->. destruct rel; [done|]. eauto.
Qed.

(** The archive of a directory whose files are those written for a
    mapping with keys in normal form holds what the mapping asks for. *)
Lemma archive_of_written (top : string) (fs : filesystem) (items : list (string * json)) :
  top ≠ EmptyString →
  Forall clean_key items.*1 →
  NoDup items.*1 →
  written E (posixpath.components top) fs items →
  omap (λ kv, walk_entry top no_prune kv ≫= entry_of fs top) (map_to_list fs)
  ≡ₚ map (requested_entry E) items.
Proof.
  intros Htop Hclean Hnd Hw.
  set (Q := posixpath.components top) in *.
  assert (Hentry : ∀ item, item ∈ items →
            (Q ++ Str.split_slash item.1,
             NFile (encode_utf8 E (file_text E item.2))) ∈ map_to_list fs
            ∧ walk_entry top no_prune
                (Q ++ Str.split_slash item.1,
                 NFile (encode_utf8 E (file_text E item.2)))
                ≫= entry_of fs top
              = Some (requested_entry E item)).
  { intros item Hin.
    assert (Hk : clean_key item.1).
    { rewrite Forall_forall in Hclean. apply Hclean, list_elem_of_fmap. by exists item. }
    assert (Hf : fs !! (Q ++ Str.split_slash item.1)
                 = Some (NFile (encode_utf8 E (file_text E item.2)))).
    { apply Hw; [apply under_app|]. by exists item. }
    split; [by apply elem_of_map_to_list|].
    unfold Q. rewrite archived_entry;
      [| done | apply split_slash_nonempty | by apply clean_key_valid | done].
    by rewrite join_split_slash. }
  assert (Hback : ∀ kv x,
            kv ∈ map_to_list fs →
            walk_entry top no_prune kv ≫= entry_of fs top = Some x →
            ∃ item, item ∈ items
                    ∧ kv = (Q ++ Str.split_slash item.1,
                            NFile (encode_utf8 E (file_text E item.2)))
                    ∧ x = requested_entry E item).
  { intros kv x Hin Hx.
    destruct (walk_entry top no_prune kv) as [rf|] eqn:Hwe; [|done].
    destruct (walk_entry_Some _ _ _ Hwe) as (data & rel & -> & Hrel).
    apply elem_of_map_to_list in Hin.
    apply Hw in Hin as (item & Hitem & Heq & ->); [|apply under_app].
    apply app_inv_head in Heq as ->.
    exists item. split; [done|]. split; [done|].
    destruct (Hentry item Hitem) as [_ He]. unfold Q in *. rewrite Hwe in He.
    congruence. }
  apply NoDup_Permutation.
  - apply NoDup_omap; [apply NoDup_map_to_list|].
    intros kv kv' x Hkv Hkv' Hx Hx'.
    destruct (Hback kv x Hkv Hx) as (item & _ & -> & ->).
    destruct (Hback kv' _ Hkv' Hx') as (item' & _ & -> & Heq).
    injection Heq as Hk Hv. by rewrite Hk, Hv.
  - apply (NoDup_fmap_1 fst). by rewrite <- list_fmap_compose.
  - intros x. rewrite list_elem_of_omap, list_elem_of_fmap. split.
    + intros (kv & Hkv & Hx). destruct (Hback kv x Hkv Hx) as (item & ? & _ & ->). eauto.
    + intros (item & -> & Hin). destruct (Hentry item Hin) as [? ?]. eauto.
Qed.

End Archive.

Lemma step_under (stk : path) (c : string) :
  c ≠ ".." → under stk (posixpath.step stk c) = true.
Proof.
  intros Hc. unfold posixpath.step.
  destruct (String.eqb c EmptyString || String.eqb c "."); [apply under_refl|].
  apply String.eqb_neq in Hc. rewrite Hc. apply under_app.
Qed.

Lemma components_join_segment a c :
  Str.has_slash c = false →
  posixpath.components (posixpath.join a c) = posixpath.step (posixpath.components a) c.
Proof.
  intros Hc. rewrite components_join by by apply startswith_slash_no_slash.
  by rewrite split_slash_no_slash.
Qed.

Section Delivery.

Variable E : env.

Lemma deliver_project_items temp_clone_path project_name mvc_content resp w w' :
  deliver_project E temp_clone_path project_name mvc_content w = (Ok resp, w') →
  ∃ mapping, mvc_content = JDict mapping.
Proof.
  unfold deliver_project. intros H. do 3 inv_bind H.
  destruct mvc_content; try done. eauto.
Qed.

(** The archive of a successful delivery: one entry for each item of the
    mapping, when the keys are in normal form and the project directory
    lies in the output directory. *)
Lemma deliver_project_archive temp_clone_path project_name mapping resp w w' :
  fs_wf (w_fs w) →
  Str.has_slash project_name = false →
  project_name ≠ ".." →
  Forall clean_key mapping.*1 →
  NoDup mapping.*1 →
  deliver_project E temp_clone_path project_name (JDict mapping) w = (Ok resp, w') →
  body resp ≡ₚ map (requested_entry E) mapping.
Proof.
  intros Hwf Hslash Hname Hclean Hnd H. unfold deliver_project in H.
  inv_bind H. rename a into output_dir. rename w0 into wa.
  pose proof (mkdtemp_Ok E _ _ _ Ha) as (Hd & Hc & Hfree & _ & ->).
  cbv zeta in Hc, Hfree, H.
  set (P := posixpath.components (tempdir E) ++ ["tmp" +:+ tmp_suffix E (w_tmp w)]) in *.
  set (project_dir := posixpath.join output_dir project_name) in *.
  assert (HQ : under P (posixpath.components project_dir) = true).
  { unfold project_dir. rewrite components_join_segment, Hc by done. by apply step_under. }
  assert (Htop : project_dir ≠ EmptyString).
  { unfold project_dir. apply join_nonempty_l; [|by apply startswith_slash_no_slash].
    rewrite Hd. apply tmp_path_nonempty. }
  inv_bind H. destruct a. apply makedirs_Ok in Ha0 as [-> _]. cbn [w_fs] in H.
  inv_bind H. injection Ha0 as <- <-.
  inv_bind H. destruct a.
  eapply (write_project_files_written E project_dir mapping []) in Ha0; [|done|done|].
  2: { cbn [w_fs]. intros q data Hq. rewrite mkdirs_files. split.
       - intros Hf. exfalso. destruct (decide (P = q)) as [<-|Hne].
         + by rewrite lookup_insert_eq in Hf.
         + rewrite lookup_insert_ne in Hf by done.
           rewrite (fs_wf_fresh (w_fs w) P q) in Hf; [done | done | | done |].
           * unfold P. by destruct (posixpath.components (tempdir E)).
           * by eapply under_trans.
       - intros (item & Hin & _). by apply elem_of_nil in Hin. }
  cbn [app] in Ha0.
  inv_bind H. apply zip_tree_Ok in Ha1; [|done].
  do 4 inv_bind H. injection H as <- _. cbn [body]. rewrite Ha1.
  by apply archive_of_written.
Qed.

End Delivery.

(** C1 (as amended).  A successful request has generated a mapping (a
    dictionary).  When the project name, the last segment of the URL
    without [.git], is not [..], and the keys of the mapping are relative
    paths in normal form (names that are not empty, [.] or [..], separated
    by single slashes), the archive returned holds exactly one entry for
    each key: its name is the key, its content the UTF-8 bytes of the text
    written for the value (a string as it is, a dictionary as JSON with
    indent 4, any other value as [str] prints it); it holds nothing else.
    The filesystem is assumed well formed when the request arrives. *)
Theorem archive_holds_the_generated_files (E : env) (data : json) (w w' : world)
    (resp : response) :
  process_github E data w = (Ok resp, w') →
  fs_wf (w_fs w) →
  ∃ url mapping w1,
    (∃ d, data = JDict d ∧ dict_lookup "githubUrl" d = Some (JStr url))
    ∧ generate_project E (JStr url) w
      = (Ok (tmp_path E (w_tmp w), project_name_of url, JDict mapping), w1)
    ∧ (project_name_of url ≠ ".." →
       Forall clean_key mapping.*1 →
       NoDup mapping.*1 →
       body resp ≡ₚ map (requested_entry E) mapping).
Proof.
  intros H Hwf.
  apply process_github_Ok in H
    as (d & url & tcp & name & mvc & w1 & -> & Hd & _ & Hg & Hdel).
  pose proof (generate_project_Ok E _ _ _ _ _ _ Hg)
    as (s & -> & -> & -> & _ & Hwf1 & _).
  destruct (deliver_project_items E _ _ _ _ _ _ Hdel) as [mapping ->].
  exists s, mapping, w1. split; [eauto|]. split; [done|].
  intros Hname Hclean Hnd.
  eapply deliver_project_archive; [auto | apply project_name_no_slash | done.. | exact Hdel].
Qed.

Lemma demo_fs_wf : fs_wf Demo.fs0.
Proof.
  apply map_Forall_to_list.
  set (l := map_to_list Demo.fs0). vm_compute in l. subst l.
  repeat constructor.
Qed.

Lemma archive_holds_the_generated_files_witness :
  let E := Demo.E (inr Demo.classification_reply)
             (inr (Demo.generation_reply "Controllers/HomeController.cs")) in
  ∃ resp w',
    process_github E Demo.request Demo.w0 = (Ok resp, w')
    ∧ body resp ≡ₚ [("Controllers/HomeController.cs", "var app = 1;")].
Proof.
  cbv zeta.
  set (E := Demo.E (inr Demo.classification_reply)
              (inr (Demo.generation_reply "Controllers/HomeController.cs"))).
  set (r := process_github E Demo.request Demo.w0).
  assert (Hr : r = (Ok (StreamingResponse
                          [("Controllers/HomeController.cs", "var app = 1;")]
                          "application/zip"
                          [("Content-Disposition",
                            "attachment; filename=shop_mvc_project.zip")]), r.2))
    by (vm_compute; reflexivity).
  destruct (archive_holds_the_generated_files E Demo.request Demo.w0 r.2 _ Hr demo_fs_wf)
    as (url & mapping & w1 & (d & Hd & Hurl) & Hg & Hperm).
  injection Hd as <-. injection Hurl as <-.
  assert (Hm : mapping = [("Controllers/HomeController.cs", JStr "var app = 1;")]).
  { assert (Hv : (generate_project E (JStr Demo.url) Demo.w0).1
                 = Ok ("/tmp/tmp0", "shop",
                       JDict [("Controllers/HomeController.cs", JStr "var app = 1;")]))
      by (vm_compute; reflexivity).
    rewrite Hg in Hv. cbn [fst] in Hv. congruence. }
  subst mapping. eexists _, r.2. split; [exact Hr|].
  apply Hperm.
  - vm_compute. discriminate.
  - repeat constructor.
  - repeat constructor. intros Hin. by apply elem_of_nil in Hin.
Defined.

(** C1 as stated fails: the model answers the mapping
    [{"./Program.cs": ...}]; the request succeeds and the archive holds the
    entry [Program.cs], so the key [./Program.cs] of the mapping is the
    name of no entry. *)
Lemma archive_entry_is_not_named_by_the_key :
  let E := Demo.E (inr Demo.classification_reply)
             (inr (Demo.generation_reply "./Program.cs")) in
  (generate_project E (JStr Demo.url) Demo.w0).1
  = Ok ("/tmp/tmp0", "shop", JDict [("./Program.cs", JStr "var app = 1;")])
  ∧ ∃ resp,
      (process_github E Demo.request Demo.w0).1 = Ok resp
      ∧ body resp = [("Program.cs", "var app = 1;")]
      ∧ "./Program.cs" ∉ (body resp).*1.
Proof.
  cbv zeta. split; [vm_compute; reflexivity|].
  eexists. split; [vm_compute; reflexivity|]. split; [reflexivity|].
  cbn. intros Hin. apply list_elem_of_singleton in Hin. discriminate Hin.
Qed.




(** ** The files, the tasks and the records of an analysis *)

Lemma prune_git_false dirs : prune_git dirs = false ↔ ".git" ∉ dirs.
Proof.
  unfold prune_git. induction dirs as [|d dirs IH]; cbn [existsb].
  - split; [|done]. intros _ H. by apply elem_of_nil in H.
  - rewrite orb_false_iff, IH, not_elem_of_cons. split.
    + intros [Hd ?]. split; [|done]. intros <-. by rewrite String.eqb_refl in Hd.
    + intros [Hd ?]. split; [|done]. apply String.eqb_neq. congruence.
Qed.

Lemma walk_entry_spec top prune kv rf :
  walk_entry top prune kv = Some rf ↔
  ∃ dirs file data,
    kv = (posixpath.components top ++ dirs ++ [file], NFile data)
    ∧ prune dirs = false
    ∧ rf = (fold_left posixpath.join dirs top, file).
Proof.
  destruct kv as [p n]. unfold walk_entry. cbn [fst snd]. split.
  - destruct n as [data|]; [|done].
    destruct (strip_dir (posixpath.components top) p) as [rel|] eqn:Hs; [|done].
    apply strip_dir_Some in Hs as ->.
    destruct (decide (rel = [])) as [->|Hne]; [done|].
    destruct (exists_last Hne) as (dirs & file & ->).
    rewrite removelast_snoc, last_last.
    destruct (dirs ++ [file]) eqn:Hd; [by destruct dirs|]. rewrite <- Hd.
    destruct (prune dirs) eqn:Hp; [done|]. intros [= <-]. eauto 10.
  - intros (dirs & file & data & [= -> ->] & Hp & ->).
    rewrite strip_dir_app, removelast_snoc, last_last, Hp.
    by destruct dirs.
Qed.


Lemma records_bucket_append key r ps x :
  x ∈ records (bucket_append key r ps) → x ∈ records ps ∨ x = r.
Proof.
  unfold records. induction ps as [|[k l] ps IH]; cbn [bucket_append]; [by left|].
  destruct (String.eqb k key); cbn [fmap list_fmap snd concat].
  - rewrite !elem_of_app, list_elem_of_singleton. tauto.
  - rewrite !elem_of_app. intros [?|H]; [tauto|]. destruct (IH H); tauto.
Qed.

Lemma records_bucket_append_length key r ps :
  (length (records (bucket_append key r ps)) ≤ S (length (records ps)))%nat.
Proof.
  unfold records. induction ps as [|[k l] ps IH]; cbn [bucket_append]; [cbn; lia|].
  destruct (String.eqb k key); cbn [fmap list_fmap snd concat].
  - rewrite !length_app. cbn. lia.
  - rewrite !length_app. lia.
Qed.

Section Filing.

Variable E : env.

(** What a task that ends normally has done to the structure. *)
Lemma analyze_file_Ok file_path ps w ps' w' :
  analyze_file E file_path ps w = (Ok ps', w') →
  ps' = ps
  ∨ ∃ content key r,
      readable_content E (w_fs w) file_path = Some content
      ∧ content ≠ EmptyString
      ∧ record_of file_path content r
      ∧ ps' = bucket_append key r ps.
Proof.
  unfold analyze_file. intros H.
  destruct (read_file_content_value E file_path w) as (w1 & Hr & _).
  rewrite (bind_eq_Ok _ _ _ _ _ Hr) in H.
  destruct (readable_content E (w_fs w) file_path) as [content|];
    [|left; by injection H as <-].
  destruct (String.eqb content EmptyString) eqn:Hne;
    [left; by injection H as <-|].
  apply String.eqb_neq in Hne. inv_bind H. unfold file_record in H. do 2 inv_bind H.
  destruct a1 as [key|]; [|left; by injection H as <-].
  do 3 inv_bind H. injection H as <- _. right.
  exists content, key. eexists. split; [done|]. split; [done|]. split; [|done].
  by eexists _, _, _.
Qed.

Lemma run_tasks_records file_paths : ∀ ps w futures ps' w',
  run_tasks E file_paths ps w = (Ok (futures, ps'), w') →
  (∀ r, r ∈ records ps' →
        r ∈ records ps
        ∨ ∃ file_path content,
            file_path ∈ file_paths
            ∧ readable_content E (w_fs w) file_path = Some content
            ∧ content ≠ EmptyString
            ∧ record_of file_path content r)
  ∧ (length (records ps')
     ≤ length (records ps)
       + length (omap (λ file_path,
                         match readable_content E (w_fs w) file_path with
                         | Some content =>
                             if String.eqb content EmptyString then None
                             else Some (file_path, content)
                         | None => None
                         end) file_paths))%nat.
Proof.
  induction file_paths as [|f l IH]; intros ps w futures ps' w' H.
  - injection H as _ <- _. split; [by left | cbn; lia].
  - cbn [run_tasks] in H.
    pose proof (analyze_file_same_fs E f ps w) as [Hfs _].
    pose proof (analyze_file_Ok f ps w) as Hone.
    destruct (analyze_file E f ps w) as [[ps1|e] w1]; cbn [snd] in Hfs.
    + inv_bind H. destruct a as [futs ps2]. injection H as _ <- _. cbn [snd].
      apply IH in Ha as [Hrec Hlen]. rewrite Hfs in Hrec, Hlen.
      destruct (Hone _ _ eq_refl) as [->|(c & key & r0 & Hc & Hne & Hr0 & ->)].
      * split.
        -- intros r Hr. destruct (Hrec r Hr) as [?|(f' & c' & ? & ?)]; [by left|].
           right. exists f', c'. split; [by right | done].
        -- cbn [omap list_omap]. destruct (readable_content E (w_fs w) f) as [c|]; [|done].
           destruct (String.eqb c EmptyString); [done|]. cbn [length]. lia.
      * split.
        -- intros r Hr. destruct (Hrec r Hr) as [Hin|(f' & c' & ? & ?)].
           ++ apply records_bucket_append in Hin as [?| ->]; [by left|].
              right. exists f, c. split; [by left | done].
           ++ right. exists f', c'. split; [by right | done].
        -- cbn [omap list_omap]. rewrite Hc. apply String.eqb_neq in Hne. rewrite Hne.
           pose proof (records_bucket_append_length key r0 ps). cbn [length]. lia.
    + inv_bind H. destruct a as [futs ps2]. injection H as _ <- _. cbn [snd].
      apply IH in Ha as [Hrec Hlen]. rewrite Hfs in Hrec, Hlen. split.
      * intros r Hr. destruct (Hrec r Hr) as [?|(f' & c' & ? & ?)]; [by left|].
        right. exists f', c'. split; [by right | done].
      * cbn [omap list_omap]. destruct (readable_content E (w_fs w) f) as [c|]; [|done].
        destruct (String.eqb c EmptyString); [done|]. cbn [length]. lia.
Qed.

Lemma analyze_asp_project_records project_path w :
  ∃ ps w',
    analyze_asp_project E project_path w = (Ok ps, w')
    ∧ (∀ r, r ∈ records ps →
            ∃ file_path content,
              (file_path, content) ∈ classified_files E (w_fs w) project_path
              ∧ record_of file_path content r)
    ∧ (length (records ps) ≤ length (classified_files E (w_fs w) project_path))%nat.
Proof.
  destruct (analyze_asp_project_total E project_path w)
    as (futs & ps & w1 & Hrun & Han & _).
  exists ps. eexists. split; [exact Han|].
  apply run_tasks_records in Hrun as [Hrec Hlen]. split; [|exact Hlen].
  intros r Hr. destruct (Hrec r Hr) as [Hin|(f & c & Hf & Hc & Hne & Hrc)].
  - by apply elem_of_nil in Hin.
  - exists f, c. split; [|done]. unfold classified_files. apply list_elem_of_omap.
    exists f. split; [done|]. rewrite Hc. apply String.eqb_neq in Hne. by rewrite Hne.
Qed.

End Filing.

Lemma bucket_append_lookup key r ps k :
  dict_lookup k (bucket_append key r ps)
  = if String.eqb k key then (λ l, l ++ [r]) <$> dict_lookup key ps
    else dict_lookup k ps.
Proof.
  induction ps as [|[k' l] ps IH]; cbn [bucket_append dict_lookup].
  - by destruct (String.eqb k key).
  - destruct (String.eqb k' key) eqn:Hk'; cbn [dict_lookup].
    + apply String.eqb_eq in Hk' as ->. rewrite (String.eqb_sym key k).
      by destruct (String.eqb k key).
    + destruct (String.eqb k' k) eqn:Hkk.
      * apply String.eqb_eq in Hkk as ->. by rewrite Hk'.
      * exact IH.
Qed.

Section Filing_cases.

Variable E : env.

(** A task up to the classification, when the model answers: the value
    of the reply, or the default record when the reply is not JSON. *)
Lemma analyze_file_classified file_path content reply ps w :
  readable_content E (w_fs w) file_path = Some content →
  content ≠ EmptyString →
  llm E (length (w_requests w)) (classification_prompt E file_path content) = inr reply →
  ∃ w2,
    analyze_file E file_path ps w
    = file_record file_path content
        match json_loads E (json_text reply) with
        | inr v => v
        | inl msg => default_classification file_path msg
        end ps w2.
Proof.
  intros Hc Hne Hllm. unfold analyze_file.
  destruct (read_file_content_value E file_path w) as (w1 & Hr & _ & _ & Hreq).
  rewrite (bind_eq_Ok _ _ _ _ _ Hr), Hc.
  apply String.eqb_neq in Hne. rewrite Hne.
  pose proof (classify_cases E file_path content w1) as Hcl. cbv zeta in Hcl.
  rewrite Hreq, Hllm in Hcl.
  destruct (json_loads E (json_text reply)) as [msg|v];
    rewrite (bind_eq_Ok _ _ _ _ _ Hcl); eauto.
Qed.

End Filing_cases.

Section Tasks.

Variable E : env.

(** What [read_file_content] returns and prints. *)
Lemma read_file_content_lines file_path w :
  ∃ lines,
    read_file_content E file_path w
    = (Ok (readable_content E (w_fs w) file_path),
       World (w_fs w) (w_console w ++ lines) (w_requests w) (w_tmp w))
    ∧ match file_bytes (w_fs w) file_path, readable_content E (w_fs w) file_path with
      | _, Some _ => lines = []
      | Some _, None => lines = ["Skipping binary file: " +:+ file_path]
      | None, None =>
          ∃ e, lines = ["Failed to read file " +:+ file_path +:+ ": " +:+ str_exn e]
      end.
Proof.
  assert (Hw : World (w_fs w) (w_console w ++ []) (w_requests w) (w_tmp w) = w)
    by (rewrite app_nil_r; by destruct w).
  unfold read_file_content, readable_content, try_except, read_text.
  unfold bind, ret, raise, print.
  destruct (file_bytes (w_fs w) file_path) as [data|] eqn:Hb.
  - rewrite (read_bytes_file _ _ _ _ Hb).
    destruct (decode E utf_8 data) as [text|]; [exists []; by rewrite Hw|].
    cbn [is_UnicodeDecodeError]. rewrite (read_bytes_file _ _ _ _ Hb).
    destruct (decode E windows_1252 data) as [text|]; [exists []; by rewrite Hw|].
    by eexists.
  - destruct (read_bytes_no_file E file_path w Hb) as (c & msg & -> & ->).
    eexists. split; [done|]. by exists (PyErr c msg).
Qed.

(** A file with a text is read without a word. *)
Lemma read_file_content_text file_path content w :
  readable_content E (w_fs w) file_path = Some content →
  read_file_content E file_path w = (Ok (Some content), w).
Proof.
  intros Hc. destruct (read_file_content_lines file_path w) as (lines & Hr & Hl).
  rewrite Hc in Hr, Hl.
  assert (lines = []) as -> by by destruct (file_bytes (w_fs w) file_path).
  rewrite Hr, app_nil_r. by destruct w.
Qed.

(** The futures of [run_tasks] hold the exceptions of the tasks. *)
Lemma run_tasks_futures file_paths : ∀ ps w futures ps' w',
  run_tasks E file_paths ps w = (Ok (futures, ps'), w') →
  futures = futures_of E file_paths ps w.
Proof.
  unfold futures_of.
  induction file_paths as [|f l IH]; intros ps w futures ps' w' H.
  - by injection H as <- _ _.
  - cbn [run_tasks task_starts zip_with] in *. unfold exception_of at 1. cbn [fst snd].
    destruct (analyze_file E f ps w) as [[ps1|e] w1]; cbn [fst].
    + inv_bind H. destruct a as [futs ps2]. injection H as <- _ _. cbn [fst].
      f_equal. by eapply IH.
    + inv_bind H. destruct a as [futs ps2]. injection H as <- _ _. cbn [fst].
      f_equal. by eapply IH.
Qed.

(** Every task starts with the keys and the filesystem of the analysis. *)
Lemma task_starts_inv file_paths : ∀ ps w i ps_i w_i,
  task_starts E file_paths ps w !! i = Some (ps_i, w_i) →
  dict_keys ps_i = dict_keys ps ∧ w_fs w_i = w_fs w.
Proof.
  induction file_paths as [|f l IH]; intros ps w i ps_i w_i H; [done|].
  cbn [task_starts] in H. destruct i as [|i]; [by injection H as <- <-|].
  cbn [lookup list_lookup] in H.
  pose proof (analyze_file_same_fs E f ps w) as [Hfs _].
  pose proof (analyze_file_keys E f ps w) as Hk.
  destruct (analyze_file E f ps w) as [[ps1|e] w1]; cbn [snd] in Hfs.
  - apply IH in H as [-> ->]. split; [by eapply Hk | done].
  - apply IH in H as [-> ->]. done.
Qed.

(** The exception of a task is printed when the analysis ends. *)
Lemma task_exception_is_printed project_path w i file_path ps_i w_i e :
  submitted_files (w_fs w) project_path !! i = Some file_path →
  task_starts E (submitted_files (w_fs w) project_path) initial_structure w !! i
  = Some (ps_i, w_i) →
  (analyze_file E file_path ps_i w_i).1 = Raise e →
  "Error processing file: " +:+ str_exn e
  ∈ w_console (analyze_asp_project E project_path w).2.
Proof.
  intros Hf Hs He.
  destruct (analyze_asp_project_total E project_path w)
    as (futs & ps & w1 & Hrun & Ha & _).
  rewrite Ha. cbn [snd w_console]. apply elem_of_app. right.
  rewrite (run_tasks_futures _ _ _ _ _ _ Hrun). unfold future_lines.
  apply list_elem_of_omap. exists (Some e). split; [|done].
  apply (list_elem_of_lookup_2 _ i). unfold futures_of.
  apply lookup_zip_with_Some. exists file_path, (ps_i, w_i).
  split; [|done]. unfold exception_of. cbn [fst snd]. by rewrite He.
Qed.

Lemma dict_lookup_keys {A} k (ps : list (string * A)) v :
  dict_lookup k ps = Some v → k ∈ dict_keys ps.
Proof.
  unfold dict_keys. induction ps as [|[k' l'] ps IH]; [done|].
  cbn [dict_lookup]. destruct (String.eqb_spec k' k) as [->|_].
  - intros _. by left.
  - intros H. right. by apply IH.
Qed.

End Tasks.


(** ** Files that are skipped, categories that are unknown *)

(** C10 (as amended).  A discovered file that cannot be read -- there is
    no regular file to open, or its bytes decode neither as UTF-8 nor as
    windows-1252, in which cases [read_file_content] returns [None] -- and
    a file whose text is empty are skipped: the task ends normally, sends
    no request to the model and leaves the filesystem and the structure as
    it found them; the analysis classifies no such file, sends the requests
    of the classified files only, and no record of its result names the
    file.  The skip is silent for the empty file only: for a file that
    cannot be read [read_file_content] prints one line, [Skipping binary
    file: <path>] when the bytes do not decode and [Failed to read file
    <path>: <error>] when the file cannot be opened. *)
Theorem unreadable_or_empty_file_is_skipped (E : env) (project_path file_path : string)
    (ps : list (string * list json)) (w : world) :
  readable_content E (w_fs w) file_path = None
  ∨ readable_content E (w_fs w) file_path = Some EmptyString →
  (readable_content E (w_fs w) file_path = None
   ↔ file_bytes (w_fs w) file_path = None
     ∨ ∃ data, file_bytes (w_fs w) file_path = Some data
               ∧ decode E utf_8 data = None ∧ decode E windows_1252 data = None)
  ∧ (∃ lines,
       read_file_content E file_path w
       = (Ok (readable_content E (w_fs w) file_path),
          World (w_fs w) (w_console w ++ lines) (w_requests w) (w_tmp w))
       ∧ analyze_file E file_path ps w
         = (Ok ps, World (w_fs w) (w_console w ++ lines) (w_requests w) (w_tmp w))
       ∧ match file_bytes (w_fs w) file_path, readable_content E (w_fs w) file_path with
         | _, Some _ => lines = []
         | Some _, None => lines = ["Skipping binary file: " +:+ file_path]
         | None, None =>
             ∃ e, lines = ["Failed to read file " +:+ file_path +:+ ": " +:+ str_exn e]
         end)
  ∧ ∃ ps' w',
      analyze_asp_project E project_path w = (Ok ps', w')
      ∧ (∀ content, (file_path, content) ∉ classified_files E (w_fs w) project_path)
      ∧ w_requests w'
        = w_requests w
          ++ map (λ fc, classification_prompt E fc.1 fc.2)
               (classified_files E (w_fs w) project_path)
      ∧ ∀ r content, r ∈ records ps' → ¬ record_of file_path content r.
Proof.
  intros Hc.
  assert (Hnot : ∀ content, (file_path, content) ∉ classified_files E (w_fs w) project_path).
  { intros content Hin. unfold classified_files in Hin.
    apply list_elem_of_omap in Hin as (f & _ & Hf).
    destruct (readable_content E (w_fs w) f) as [c|] eqn:Hrc; [|done].
    destruct (String.eqb c EmptyString) eqn:Hne; [done|].
    injection Hf as -> ->. apply String.eqb_neq in Hne.
    destruct Hc as [Hc|Hc]; congruence. }
  split; [|split].
  - unfold readable_content. destruct (file_bytes (w_fs w) file_path) as [data|].
    + split.
      * intros H. right. exists data. split; [done|].
        destruct (decode E utf_8 data); [done|]. by split.
      * intros [?|(data' & [= <-] & -> & ->)]; done.
    + split; [by left | done].
  - destruct (read_file_content_lines E file_path w) as (lines & Hr & Hl).
    exists lines. split; [done|]. split; [|done].
    unfold analyze_file. rewrite (bind_eq_Ok _ _ _ _ _ Hr).
    by destruct Hc as [-> | ->].
  - destruct (analyze_asp_project_total E project_path w)
      as (futs & ps' & w1 & _ & Ha & _ & _ & _ & Hreq).
    destruct (analyze_asp_project_records E project_path w) as (ps2 & w2 & Ha2 & Hrec & _).
    rewrite Ha in Ha2. injection Ha2 as <- <-.
    eexists ps', _. split; [exact Ha|]. split; [done|]. split; [done|].
    intros r content Hr (c1 & r1 & t1 & ->).
    destruct (Hrec _ Hr) as (f & c & Hin & (c2 & r2 & t2 & Heq)).
    injection Heq as <- _ _ _ <-. by apply (Hnot content).
Qed.

Lemma unreadable_or_empty_file_is_skipped_witness :
  analyze_file (Demo.E (inr Demo.classification_reply) (inr EmptyString))
    "/tmp/tmp0/binary.asp" initial_structure Demo.w1
  = (Ok initial_structure,
     World (w_fs Demo.w1)
       (w_console Demo.w1 ++ ["Skipping binary file: /tmp/tmp0/binary.asp"])
       (w_requests Demo.w1) (w_tmp Demo.w1)).
Proof.
  assert (Hc : readable_content (Demo.E (inr Demo.classification_reply) (inr EmptyString))
                 (w_fs Demo.w1) "/tmp/tmp0/binary.asp" = None)
    by (vm_compute; reflexivity).
  assert (Hb : file_bytes (w_fs Demo.w1) "/tmp/tmp0/binary.asp"
               = Some (String (ascii_of_nat 129) EmptyString))
    by (vm_compute; reflexivity).
  destruct (unreadable_or_empty_file_is_skipped
              (Demo.E (inr Demo.classification_reply) (inr EmptyString))
              "/tmp/tmp0" "/tmp/tmp0/binary.asp" initial_structure Demo.w1 (or_introl Hc))
    as (_ & (lines & _ & Ha & Hl) & _).
  rewrite Hb, Hc in Hl. rewrite Hl in Ha. exact Ha.
Defined.

(** C10 as stated fails: the file [binary.asp] of the demo clone cannot be
    read, and its task does not skip it silently: it prints a line. *)
Lemma unreadable_file_is_reported :
  let E := Demo.E (inr Demo.classification_reply) (inr EmptyString) in
  let w' := (analyze_file E "/tmp/tmp0/binary.asp" initial_structure Demo.w1).2 in
  read_file_content E "/tmp/tmp0/binary.asp" Demo.w1 = (Ok None, w')
  ∧ w_console w' = w_console Demo.w1 ++ ["Skipping binary file: /tmp/tmp0/binary.asp"]
  ∧ w_console w' ≠ w_console Demo.w1.
Proof.
  cbv zeta. split; [vm_compute; reflexivity|]. split; [vm_compute; reflexivity|].
  intros H. apply (f_equal length) in H. vm_compute in H. discriminate H.
Qed.

(** C8 (as amended).  [analyze_asp_project] always returns, and what it
    returns has exactly the keys "Views", "Controllers", "Models",
    "Configurations" and "Other", each with a list.  Every task starts on
    a structure with these keys, and the analysis prints a line
    [Error processing file: ...] for every task that raises.  A
    classification whose category is none of the five keys leaves the
    structure as it was, so the file is in no bucket.  When the category
    can be hashed (a string, a number, a boolean or [None]) the file is
    dropped silently: the task ends normally, having printed nothing but
    the line [Classifying file] of every classification.  A category that
    is a list or a dictionary is not dropped silently: the test [category
    in project_structure] raises [TypeError: unhashable type] in the task,
    and the analysis prints it. *)
Theorem category_outside_the_buckets (E : env) :
  (∀ project_path w,
     let files := submitted_files (w_fs w) project_path in
     let after := (run_tasks E files initial_structure w).2 in
     ∃ ps,
       analyze_asp_project E project_path w
       = (Ok ps,
          World (w_fs after)
            (w_console after ++ future_lines (futures_of E files initial_structure w))
            (w_requests after) (w_tmp after))
       ∧ dict_keys ps = ["Views"; "Controllers"; "Models"; "Configurations"; "Other"])
  ∧ (∀ project_path w i file_path ps_i w_i,
       submitted_files (w_fs w) project_path !! i = Some file_path →
       task_starts E (submitted_files (w_fs w) project_path) initial_structure w !! i
       = Some (ps_i, w_i) →
       dict_keys ps_i = ["Views"; "Controllers"; "Models"; "Configurations"; "Other"]
       ∧ w_fs w_i = w_fs w
       ∧ ∀ e, (analyze_file E file_path ps_i w_i).1 = Raise e →
              "Error processing file: " +:+ str_exn e
              ∈ w_console (analyze_asp_project E project_path w).2)
  ∧ (∀ file_path content reply d ps w,
       readable_content E (w_fs w) file_path = Some content →
       content ≠ EmptyString →
       llm E (length (w_requests w)) (classification_prompt E file_path content)
       = inr reply →
       json_loads E (json_text reply) = inr (JDict d) →
       dict_keys ps = ["Views"; "Controllers"; "Models"; "Configurations"; "Other"] →
       (∀ k, category_of d = JStr k →
             k ∉ ["Views"; "Controllers"; "Models"; "Configurations"; "Other"]) →
       match category_of d with
       | JList _ | JDict _ =>
           analyze_file E file_path ps w
           = (Raise (PyErr TypeError
                       ("unhashable type: '" +:+ type_name (category_of d) +:+ "'")),
              asked E file_path content w)
       | _ => analyze_file E file_path ps w = (Ok ps, asked E file_path content w)
       end).
Proof.
  split; [|split].
  - intros project_path w files after.
    destruct (analyze_asp_project_total E project_path w)
      as (futs & ps & w1 & Hrun & Ha & _ & Hk & _).
    exists ps. split; [|exact Hk].
    subst after files. rewrite Hrun. cbn [snd].
    by rewrite <- (run_tasks_futures E _ _ _ _ _ _ Hrun).
  - intros project_path w i file_path ps_i w_i Hf Hs.
    destruct (task_starts_inv E _ _ _ _ _ _ Hs) as [Hk Hfs].
    split; [done|]. split; [done|]. intros e He.
    by eapply task_exception_is_printed.
  - intros file_path content reply d ps w Hc Hne Hllm Hv Hkeys Hcat.
    unfold analyze_file. rewrite (bind_eq_Ok _ _ _ _ _ (read_file_content_text E _ _ _ Hc)).
    apply String.eqb_neq in Hne. rewrite Hne.
    pose proof (classify_cases E file_path content w) as Hcl. cbv zeta in Hcl.
    rewrite Hllm, Hv in Hcl. rewrite (bind_eq_Ok _ _ _ _ _ Hcl).
    fold (asked E file_path content w).
    unfold file_record, get_or. fold (category_of d).
    unfold bind at 1. unfold ret at 1. cbv beta iota.
    destruct (category_of d) as [| | | |k| |] eqn:Hcd; try done.
    unfold bind at 1. unfold key_in, ret at 1. cbv beta iota.
    destruct (dict_lookup k ps) as [l|] eqn:Hl; [|done].
    exfalso. apply (Hcat k eq_refl). rewrite <- Hkeys. by eapply dict_lookup_keys.
Qed.

Lemma category_outside_the_buckets_witness :
  analyze_file
    (Sample.with_replies (Demo.E (inr Sample.stray_reply) (inr EmptyString))
       [(Sample.stray_reply, Sample.stray_value)])
    "/tmp/tmp0/index.asp" initial_structure Demo.w1
  = (Ok initial_structure,
     World (w_fs Demo.w1) (w_console Demo.w1 ++ ["Classifying file: /tmp/tmp0/index.asp"])
       (w_requests Demo.w1
        ++ [classification_prompt
              (Sample.with_replies (Demo.E (inr Sample.stray_reply) (inr EmptyString))
                 [(Sample.stray_reply, Sample.stray_value)])
              "/tmp/tmp0/index.asp" "<% Response.Write 1 %>"])
       (w_tmp Demo.w1)).
Proof.
  apply (proj2 (proj2 (category_outside_the_buckets
                  (Sample.with_replies (Demo.E (inr Sample.stray_reply) (inr EmptyString))
                     [(Sample.stray_reply, Sample.stray_value)])))
           "/tmp/tmp0/index.asp" "<% Response.Write 1 %>" Sample.stray_reply
           [("category", JStr "Services"); ("classification", JStr "conversion_needed");
            ("reason", JStr "page")]
           initial_structure Demo.w1).
  - vm_compute. reflexivity.
  - discriminate.
  - reflexivity.
  - vm_compute. reflexivity.
  - reflexivity.
  - intros k [= <-] Hin. apply list_elem_of_In in Hin. simpl in Hin.
    repeat destruct Hin as [Hin|Hin]; try discriminate Hin. done.
Defined.

(** C8 as stated fails: the model answers a classification whose category
    is the list [["Views"]], a value that is none of the five keys.  The
    file is not dropped silently: its task raises [TypeError] and the
    analysis prints the error. *)
Lemma list_category_is_not_dropped_silently :
  let E := Sample.with_replies (Demo.E (inr Sample.list_reply) (inr EmptyString))
             [(Sample.list_reply, Sample.list_value)] in
  (analyze_file E "/tmp/tmp0/index.asp" initial_structure Demo.w1).1
  = Raise (PyErr TypeError "unhashable type: 'list'")
  ∧ List.last (w_console (analyze_asp_project E "/tmp/tmp0" Demo.w1).2) EmptyString
    = "Error processing file: unhashable type: 'list'".
Proof. cbv zeta. split; vm_compute; reflexivity. Qed.

(** ** The endpoint and its answer *)

(** What a successful delivery has done: it made the output directory and
    the project directory, wrote the files of the mapping, and the body of
    its answer holds one entry for each file that the walk of the project
    directory then reports. *)
Lemma deliver_project_body (E : env) temp_clone_path project_name mapping resp w w' :
  deliver_project E temp_clone_path project_name (JDict mapping) w = (Ok resp, w') →
  ∃ wm wz,
    (output_dir <- mkdtemp E ;;
     makedirs E (posixpath.join output_dir project_name)) w = (Ok tt, wm)
    ∧ for_each mapping
        (write_project_file E (posixpath.join (tmp_path E (w_tmp w)) project_name)) wm
      = (Ok tt, wz)
    ∧ body resp
      = omap (entry_of (w_fs wz) (posixpath.join (tmp_path E (w_tmp w)) project_name))
          (walk (w_fs wz) (posixpath.join (tmp_path E (w_tmp w)) project_name) no_prune).
Proof.
  unfold deliver_project. intros H.
  inv_bind H. rename a into output_dir. rename w0 into wa.
  pose proof (mkdtemp_Ok E _ _ _ Ha) as (Hd & _). subst output_dir.
  inv_bind H. destruct a. rename w0 into wm.
  inv_bind H. injection Ha1 as <- <-.
  inv_bind H. destruct a. rename w0 into wz.
  inv_bind H. rename a into zip_buffer.
  exists wm, wz. split; [|split].
  - unfold bind at 1. by rewrite Ha.
  - done.
  - unfold zip_tree, bind, get_fs in Ha2. apply zip_write_all_Ok in Ha2.
    do 4 inv_bind H. injection H as <- _. by rewrite Ha2.
Qed.

(** C6 (as amended).  The program registers one route of its own,
    [POST /process-github]; the application serves four more, which
    [FastAPI()] registers for its documentation: [/openapi.json], [/docs],
    [/docs/oauth2-redirect] and [/redoc].  The handler reads the field
    ["githubUrl"] of the JSON body.  When it succeeds, the body carried a
    URL that is a string, a mapping was generated for it, and the answer is
    a [StreamingResponse] with media type [application/zip] and the header
    [Content-Disposition: attachment; filename=<project>_mvc_project.zip]
    whose body is the archive of the generated project: one entry for each
    file found below the project directory once the files of the mapping
    were written there, which is one entry for each key of the mapping
    when the project name is not [..] and the keys are relative paths in
    normal form (the filesystem being well formed when the request
    arrives). *)
Theorem one_endpoint_returning_a_zip (E : env) (data : json) (w w' : world)
    (resp : response) :
  process_github E data w = (Ok resp, w') →
  List.filter is_handler (routes E)
  = [Route "/process-github" ["POST"] (handler (process_github E))]
  ∧ map (λ r, (route_methods r, route_path r))
      (List.filter (λ r, negb (is_handler r)) (routes E))
    = [(["GET"; "HEAD"], "/openapi.json"); (["GET"; "HEAD"], "/docs");
       (["GET"; "HEAD"], "/docs/oauth2-redirect"); (["GET"; "HEAD"], "/redoc")]
  ∧ ∃ d url mapping w1 wm wz,
      data = JDict d
      ∧ dict_lookup "githubUrl" d = Some (JStr url)
      ∧ generate_project E (JStr url) w
        = (Ok (tmp_path E (w_tmp w), project_name_of url, JDict mapping), w1)
      ∧ (output_dir <- mkdtemp E ;;
         makedirs E (posixpath.join output_dir (project_name_of url))) w1 = (Ok tt, wm)
      ∧ for_each mapping
          (write_project_file E
             (posixpath.join (tmp_path E (w_tmp w1)) (project_name_of url))) wm
        = (Ok tt, wz)
      ∧ body resp
        = omap (entry_of (w_fs wz)
                  (posixpath.join (tmp_path E (w_tmp w1)) (project_name_of url)))
            (walk (w_fs wz)
               (posixpath.join (tmp_path E (w_tmp w1)) (project_name_of url)) no_prune)
      ∧ (fs_wf (w_fs w) →
         project_name_of url ≠ ".." →
         Forall clean_key mapping.*1 →
         NoDup mapping.*1 →
         body resp ≡ₚ map (requested_entry E) mapping)
      ∧ media_type resp = "application/zip"
      ∧ headers resp
        = [("Content-Disposition",
            "attachment; filename=" +:+ project_name_of url +:+ "_mvc_project.zip")].
Proof.
  intros H. split; [done|]. split; [done|].
  apply process_github_Ok in H
    as (d & url & tcp & name & mvc & w1 & -> & Hd & _ & Hg & Hdel).
  pose proof (generate_project_Ok E _ _ _ _ _ _ Hg)
    as (s & -> & -> & -> & _ & Hwf1 & _).
  destruct (deliver_project_items E _ _ _ _ _ _ Hdel) as [mapping ->].
  destruct (deliver_project_body E _ _ _ _ _ _ Hdel) as (wm & wz & Hm & Hz & Hb).
  destruct (deliver_project_Ok E _ _ _ _ _ _ Hdel) as [Hmt Hh].
  exists d, s, mapping, w1, wm, wz.
  split; [done|]. split; [done|]. split; [done|]. split; [done|]. split; [done|].
  split; [done|]. split; [|done].
  intros Hwf Hname Hclean Hnd.
  eapply deliver_project_archive; [auto | apply project_name_no_slash | done.. | exact Hdel].
Qed.

Lemma one_endpoint_returning_a_zip_witness :
  let E := Demo.E (inr Demo.classification_reply)
             (inr (Demo.generation_reply "Controllers/HomeController.cs")) in
  ∃ resp w',
    process_github E Demo.request Demo.w0 = (Ok resp, w')
    ∧ media_type resp = "application/zip"
    ∧ headers resp
      = [("Content-Disposition", "attachment; filename=shop_mvc_project.zip")]
    ∧ body resp = [("Controllers/HomeController.cs", "var app = 1;")].
Proof.
  cbv zeta.
  set (E := Demo.E (inr Demo.classification_reply)
              (inr (Demo.generation_reply "Controllers/HomeController.cs"))).
  set (r := process_github E Demo.request Demo.w0).
  assert (Hr : r = (Ok (StreamingResponse
                          [("Controllers/HomeController.cs", "var app = 1;")]
                          "application/zip"
                          [("Content-Disposition",
                            "attachment; filename=shop_mvc_project.zip")]), r.2))
    by (vm_compute; reflexivity).
  destruct (one_endpoint_returning_a_zip E Demo.request Demo.w0 r.2 _ Hr)
    as (_ & _ & d & url & mapping & w1 & wm & wz & _ & _ & _ & _ & _ & _ & _ & Hm & Hh).
  eexists _, r.2. split; [exact Hr|]. split; [exact Hm|]. split; reflexivity.
Defined.

(** C6 as stated fails: the application exposes more than one endpoint.
    Besides [POST /process-github] it answers [GET /docs] and the three
    other routes of the documentation. *)
Lemma documentation_is_served_too :
  let E := Demo.E (inr EmptyString) (inr EmptyString) in
  length (routes E) = 5%nat
  ∧ map route_path (routes E)
    = ["/openapi.json"; "/docs"; "/docs/oauth2-redirect"; "/redoc"; "/process-github"]
  ∧ Route "/docs" ["GET"; "HEAD"] swagger_ui_html ∈ routes E.
Proof.
  cbv zeta. split; [done|]. split; [done|].
  unfold routes, post, add_middleware, FastAPI. set_solver.
Qed.

(** ** The thread pool *)









(** *** What one action of a task does *)

Section Steps.

Variable E : env.









End Steps.

(** *** The invariant of the pool *)

Section Pool.

Local Open Scope nat_scope.

Variable E : env.
Variable workers : nat.
Variable files : list string.
Variable w0 : world.











(** *** Every execution ends, and any can be brought to its end *)








(** *** The pool when the analysis is over *)




End Pool.

(** *** The tasks one after the other: a schedule of the pool *)

Section Sequential.

Local Open Scope nat_scope.

Variable E : env.
Variable workers : nat.
Variable files : list string.
Hypothesis Hworkers : 1 ≤ workers.









End Sequential.

(** ** The analysis in the thread pool *)




(** ** The pattern that finds the JSON of a reply *)

Lemma startswith_app p r : Str.startswith p (p +:+ r) = true.
Proof.
  induction p as [|a p IH]; [done|].
  change (String a p +:+ r) with (String a (p +:+ r)). cbn [Str.startswith].
  by rewrite Ascii.eqb_refl, IH.
Qed.

Lemma startswith_inv p s : Str.startswith p s = true → ∃ r, s = p +:+ r.
Proof.
  revert s. induction p as [|a p IH]; intros s H.
  - by exists s.
  - destruct s as [|b s]; [done|]. cbn [Str.startswith] in H.
    apply andb_prop in H as [Hab H]. apply Ascii.eqb_eq in Hab as ->.
    destruct (IH _ H) as [r ->]. by exists r.
Qed.

Lemma substring_all s : String.substring 0 (String.length s) s = s.
Proof. induction s as [|c s IH]; [done|]. cbn. by rewrite IH. Qed.

Lemma mentions_app c a b : mentions c (a +:+ b) = mentions c a || mentions c b.
Proof.
  induction a as [|x a IH]; [done|].
  change (String x a +:+ b) with (String x (a +:+ b)). cbn [mentions].
  by rewrite IH, orb_assoc.
Qed.

Lemma string_length_ind (P : string → Prop) :
  (∀ s, (∀ t, (String.length t < String.length s)%nat → P t) → P s) → ∀ s, P s.
Proof.
  intros H s. remember (String.length s) as n eqn:Hn. revert s Hn.
  induction (lt_wf n) as [n _ IH]. intros s ->. apply H.
  intros t Ht. by apply (IH (String.length t)).
Qed.

Lemma length_app_string a b :
  String.length (a +:+ b) = (String.length a + String.length b)%nat.
Proof.
  induction a as [|x a IH]; [done|].
  change (String x a +:+ b) with (String x (a +:+ b)). cbn [String.length]. by rewrite IH.
Qed.

(** A byte of ASCII that is no blank stops [skip_space]. *)
Lemma skip_space_plain a r :
  Str.is_space a = false → (nat_of_ascii a < 128)%nat →
  Str.skip_space (String a r) = String a r.
Proof.
  intros Ha Hlt. cbn [Str.skip_space]. rewrite Ha.
  assert (H2 : ∀ b, Str.is_space2 a b = false).
  { intros b. unfold Str.is_space2.
    replace (nat_of_ascii a =? 194)%nat with false; [done|].
    symmetry. apply Nat.eqb_neq. lia. }
  assert (H3 : ∀ b c, Str.is_space3 a b c = false).
  { intros b c. unfold Str.is_space3.
    replace (nat_of_ascii a =? 225)%nat with false by (symmetry; apply Nat.eqb_neq; lia).
    replace (nat_of_ascii a =? 226)%nat with false by (symmetry; apply Nat.eqb_neq; lia).
    replace (nat_of_ascii a =? 227)%nat with false by (symmetry; apply Nat.eqb_neq; lia).
    done. }
  destruct r as [|b [|c r]]; [done| by rewrite H2 |]. by rewrite H2, H3.
Qed.

Lemma is_space_ascii a : Str.is_space a = true → (nat_of_ascii a < 128)%nat.
Proof.
  unfold Str.is_space. cbv zeta. intros H.
  apply orb_prop in H as [H|H]; apply andb_prop in H as [_ H];
    apply Nat.leb_le in H; lia.
Qed.

Lemma is_space2_high a b :
  Str.is_space2 a b = true → (128 ≤ nat_of_ascii a)%nat ∧ (128 ≤ nat_of_ascii b)%nat.
Proof.
  unfold Str.is_space2. intros [Ha Hb]%andb_prop. apply Nat.eqb_eq in Ha.
  apply orb_prop in Hb as [Hb|Hb]; apply Nat.eqb_eq in Hb; lia.
Qed.

Lemma is_space3_high a b c :
  Str.is_space3 a b c = true →
  (128 ≤ nat_of_ascii a)%nat ∧ (128 ≤ nat_of_ascii b)%nat ∧ (128 ≤ nat_of_ascii c)%nat.
Proof.
  unfold Str.is_space3. cbv zeta. intros H.
  repeat match type of H with
         | (_ || _) = true => apply orb_prop in H as [H|H]
         end;
    repeat match goal with
           | H : (_ && _) = true |- _ => apply andb_prop in H as [? ?]
           | H : (_ || _) = true |- _ => apply orb_prop in H as [H|H]
           | H : (_ =? _)%nat = true |- _ => apply Nat.eqb_eq in H
           | H : (_ <=? _)%nat = true |- _ => apply Nat.leb_le in H
           end; lia.
Qed.

Lemma mentions_low c a :
  (nat_of_ascii c < 128)%nat → (128 ≤ nat_of_ascii a)%nat → Ascii.eqb a c = false.
Proof. intros Hc Ha. apply Ascii.eqb_neq. intros ->. lia. Qed.

(** [skip_space] stops where it is, or drops one blank: a text [tok] of one
    to three bytes that is dropped before any text, and that holds neither
    of the ASCII characters [c] and [d], which are no blanks. *)
Lemma skip_space_cases (c d : ascii) s :
  Str.is_space c = false → (nat_of_ascii c < 128)%nat →
  Str.is_space d = false → (nat_of_ascii d < 128)%nat →
  Str.skip_space s = s
  ∨ ∃ tok r,
      s = tok +:+ r
      ∧ tok ≠ EmptyString
      ∧ (∀ t, Str.skip_space (tok +:+ t) = Str.skip_space t)
      ∧ mentions c tok = false ∧ mentions d tok = false.
Proof.
  intros Hc Hc' Hd Hd'.
  destruct s as [|a r]; [by left|]. cbn [Str.skip_space].
  destruct (Str.is_space a) eqn:Ha.
  { right. exists (String a EmptyString), r. split; [done|]. split; [done|].
    split; [intros t; change (String a EmptyString +:+ t) with (String a t);
            cbn [Str.skip_space]; by rewrite Ha|].
    cbn [mentions]. rewrite !orb_false_r.
    split; apply Ascii.eqb_neq; intros ->; congruence. }
  destruct r as [|b r2]; [by left|].
  destruct (Str.is_space2 a b) eqn:Hab.
  { right. exists (String a (String b EmptyString)), r2. split; [done|]. split; [done|].
    split; [intros t; change (String a (String b EmptyString) +:+ t)
                        with (String a (String b t));
            cbn [Str.skip_space]; by rewrite Ha, Hab|].
    apply is_space2_high in Hab as [? ?].
    cbn [mentions]. by rewrite !mentions_low. }
  destruct r2 as [|x r3]; [by left|].
  destruct (Str.is_space3 a b x) eqn:Habx; [|by left].
  right. exists (String a (String b (String x EmptyString))), r3.
  split; [done|]. split; [done|].
  split; [intros t; change (String a (String b (String x EmptyString)) +:+ t)
                      with (String a (String b (String x t)));
          cbn [Str.skip_space]; by rewrite Ha, Hab, Habx|].
  apply is_space3_high in Habx as (? & ? & ?).
  cbn [mentions]. by rewrite !mentions_low.
Qed.

Lemma all_space_eq ws : all_space ws = true ↔ Str.skip_space ws = EmptyString.
Proof. unfold all_space. apply String.eqb_eq. Qed.

Lemma skip_space_spec s :
  ∃ ws, all_space ws = true ∧ s = ws +:+ Str.skip_space s.
Proof.
  induction s as [s IH] using string_length_ind.
  destruct (skip_space_cases "}" "}" s) as [Hs|(tok & r & -> & Hne & Htok & _)];
    [done | by apply Nat.ltb_lt | done | by apply Nat.ltb_lt | |].
  - exists EmptyString. by rewrite Hs.
  - destruct (IH r) as (ws & Hws & Hr).
    { rewrite length_app_string. destruct tok; [done|]. cbn. lia. }
    exists (tok +:+ ws). split.
    + apply all_space_eq. rewrite Htok. by apply all_space_eq.
    + rewrite Htok, append_assoc. by rewrite <- Hr.
Qed.

Lemma skip_space_app ws s :
  all_space ws = true → Str.skip_space (ws +:+ s) = Str.skip_space s.
Proof.
  induction ws as [ws IH] using string_length_ind. intros Hws.
  destruct (skip_space_cases "}" "}" ws) as [H|(tok & r & -> & Hne & Htok & _)];
    [done | by apply Nat.ltb_lt | done | by apply Nat.ltb_lt | |].
  - apply all_space_eq in Hws. rewrite H in Hws. by subst ws.
  - rewrite append_assoc, Htok. apply IH.
    + rewrite length_app_string. destruct tok; [done|]. cbn. lia.
    + apply all_space_eq. rewrite <- (Htok r). by apply all_space_eq.
Qed.

Lemma lazy_body_sound s b :
  lazy_body s = Some b →
  ∃ inner ws' post,
    b = inner +:+ "}" ∧ s = b +:+ ws' +:+ "```" +:+ post ∧ all_space ws' = true.
Proof.
  revert b. induction s as [|c r IH]; intros b H; [done|]. cbn [lazy_body] in H.
  destruct (Ascii.eqb c "}" && Str.startswith "```" (Str.skip_space r)) eqn:Hc.
  - injection H as <-. apply andb_prop in Hc as [Hc Hf]. apply Ascii.eqb_eq in Hc as ->.
    destruct (skip_space_spec r) as (ws' & Hws' & Hr).
    apply startswith_inv in Hf as [post Hpost].
    exists EmptyString, ws', post. split; [done|]. split; [|done].
    rewrite Hr at 1. by rewrite Hpost.
  - destruct (lazy_body r) as [b'|]; [|done]. injection H as <-.
    destruct (IH _ eq_refl) as (inner & ws' & post & -> & Hr & Hws').
    exists (String c inner), ws', post. split; [done|]. split; [|done].
    rewrite Hr at 1. done.
Qed.

Lemma fenced_app ws inner ws' post :
  fenced ws inner ws' +:+ post
  = "```json" +:+ ws +:+ "{" +:+ inner +:+ "}" +:+ ws' +:+ "```" +:+ post.
Proof. unfold fenced. by rewrite !append_assoc. Qed.

Lemma after_fence r :
  String.substring 7 (String.length ("```json" +:+ r) - 7) ("```json" +:+ r) = r.
Proof.
  change (String.length ("```json" +:+ r) - 7)%nat with (String.length r - 0)%nat.
  rewrite Nat.sub_0_r. apply substring_all.
Qed.

Lemma match_here_sound s g :
  match_here s = Some g →
  ∃ ws inner ws' post,
    s = fenced ws inner ws' +:+ post
    ∧ g = "{" +:+ inner +:+ "}"
    ∧ all_space ws = true ∧ all_space ws' = true.
Proof.
  unfold match_here. destruct (Str.startswith "```json" s) eqn:Hf; [|done].
  apply startswith_inv in Hf as [r ->]. rewrite after_fence.
  destruct (skip_space_spec r) as (ws & Hws & Hr).
  destruct (Str.skip_space r) as [|c t]; [done|].
  destruct (Ascii.eqb c "{") eqn:Hc; [|done]. apply Ascii.eqb_eq in Hc as ->.
  destruct (lazy_body t) as [b|] eqn:Hb; [|done]. intros [= <-].
  apply lazy_body_sound in Hb as (inner & ws' & post & -> & Ht & Hws').
  exists ws, inner, ws', post. rewrite fenced_app. split; [|done].
  rewrite Hr at 1. rewrite Ht at 1. by rewrite !append_assoc.
Qed.

Lemma re_search_json_sound (s g : string) :
  re_search_json s = Some g →
  ∃ pre ws inner ws' post,
    s = pre +:+ fenced ws inner ws' +:+ post
    ∧ g = "{" +:+ inner +:+ "}"
    ∧ all_space ws = true ∧ all_space ws' = true.
Proof.
  induction s as [|c r IH]; cbn [re_search_json].
  - destruct (match_here EmptyString) as [g'|] eqn:Hm; [|done]. intros [= <-].
    apply match_here_sound in Hm as (ws & inner & ws' & post & ? & ? & ? & ?).
    by exists EmptyString, ws, inner, ws', post.
  - destruct (match_here (String c r)) as [g'|] eqn:Hm.
    + intros [= <-].
      apply match_here_sound in Hm as (ws & inner & ws' & post & ? & ? & ? & ?).
      by exists EmptyString, ws, inner, ws', post.
    + intros H. destruct (IH H) as (pre & ws & inner & ws' & post & -> & ? & ? & ?).
      by exists (String c pre), ws, inner, ws', post.
Qed.

(** The body of the pattern is found whenever a closing brace, blanks and a
    fence follow. *)
Lemma lazy_body_complete inner ws' post :
  all_space ws' = true →
  ∃ b, lazy_body (inner +:+ "}" +:+ ws' +:+ "```" +:+ post) = Some b.
Proof.
  intros Hws'. induction inner as [|c inner [b IH]].
  - change (EmptyString +:+ ?x) with x.
    change ("}" +:+ ?x) with (String "}" x). cbn [lazy_body].
    rewrite skip_space_app by done.
    change ("```" +:+ post) with (String "`" (String "`" (String "`" post))).
    cbn. eauto.
  - change (String c inner +:+ ?x) with (String c (inner +:+ x)). cbn [lazy_body].
    rewrite IH. destruct (_ && _); cbn; eauto.
Qed.

Lemma match_here_complete ws inner ws' post :
  all_space ws = true → all_space ws' = true →
  ∃ g, match_here (fenced ws inner ws' +:+ post) = Some g.
Proof.
  intros Hws Hws'. rewrite fenced_app. unfold match_here.
  rewrite startswith_app, after_fence, skip_space_app by done.
  change ("{" +:+ ?x) with (String "{" x).
  rewrite skip_space_plain by (done || by apply Nat.ltb_lt). rewrite Ascii.eqb_refl.
  destruct (lazy_body_complete inner ws' post Hws') as [b ->]. cbn. eauto.
Qed.

Lemma re_search_json_complete (pre ws inner ws' post : string) :
  all_space ws = true → all_space ws' = true →
  ∃ g, re_search_json (pre +:+ fenced ws inner ws' +:+ post) = Some g.
Proof.
  intros Hws Hws'. induction pre as [|c pre [g IH]].
  - change (EmptyString +:+ ?x) with x.
    destruct (match_here_complete ws inner ws' post Hws Hws') as [g Hg].
    exists g. destruct (fenced ws inner ws' +:+ post); cbn [re_search_json]; by rewrite Hg.
  - change (String c pre +:+ ?x) with (String c (pre +:+ x)). cbn [re_search_json].
    rewrite IH. destruct (match_here _); eauto.
Qed.

(** X1. The search for the JSON of a reply finds a group exactly when the
    reply holds a fenced block: the fence [```json], blanks, a text between
    braces, blanks, the fence [```].  The group it hands to [json.loads]
    is then the braces and the text of such a block of the reply. *)
Theorem group_is_found_in_a_fenced_block (s : string) :
  (∀ g, re_search_json s = Some g →
        ∃ pre ws inner ws' post,
          s = pre +:+ fenced ws inner ws' +:+ post
          ∧ g = "{" +:+ inner +:+ "}"
          ∧ all_space ws = true ∧ all_space ws' = true)
  ∧ ((∃ pre ws inner ws' post,
        s = pre +:+ fenced ws inner ws' +:+ post
        ∧ all_space ws = true ∧ all_space ws' = true) →
     ∃ g, re_search_json s = Some g).
Proof.
  split; [apply re_search_json_sound|].
  intros (pre & ws & inner & ws' & post & -> & Hws & Hws').
  by apply re_search_json_complete.
Qed.

Lemma group_is_found_in_a_fenced_block_witness :
  ∃ pre ws inner ws' post,
    Demo.classification_reply = pre +:+ fenced ws inner ws' +:+ post
    ∧ Demo.classification_json = "{" +:+ inner +:+ "}"
    ∧ all_space ws = true ∧ all_space ws' = true.
Proof.
  apply (proj1 (group_is_found_in_a_fenced_block Demo.classification_reply)
           Demo.classification_json).
  vm_compute. reflexivity.
Defined.

Lemma prefix_before (c : ascii) tok : ∀ inner r rest,
  mentions c tok = false →
  tok +:+ r = inner +:+ String c rest →
  ∃ inner', inner = tok +:+ inner' ∧ r = inner' +:+ String c rest.
Proof.
  induction tok as [|a tok IH]; intros inner r rest Hm H.
  - by exists inner.
  - cbn [mentions] in Hm. apply orb_false_elim in Hm as [Ha Hm].
    change (String a tok +:+ r) with (String a (tok +:+ r)) in H.
    destruct inner as [|b inner].
    + change (EmptyString +:+ ?x) with x in H. injection H as -> _.
      by rewrite Ascii.eqb_refl in Ha.
    + change (String b inner +:+ ?x) with (String b (inner +:+ x)) in H.
      injection H as -> H. destruct (IH _ _ _ Hm H) as (inner' & -> & ->).
      by exists inner'.
Qed.

Lemma no_fence_after_blanks inner rest :
  mentions backtick inner = false →
  Str.startswith "```" (Str.skip_space (inner +:+ String "}" rest)) = false.
Proof.
  induction inner as [inner IH] using string_length_ind. intros H.
  destruct (skip_space_cases "}" backtick (inner +:+ String "}" rest))
    as [Hs|(tok & r & Heq & Hne & Htok & Hb & _)]; [done | by apply Nat.ltb_lt | done | by apply Nat.ltb_lt | |].
  - rewrite Hs. destruct inner as [|c inner]; [done|].
    cbn [mentions] in H. apply orb_false_elim in H as [Hc _].
    change (String c inner +:+ ?x) with (String c (inner +:+ x)).
    cbn [Str.startswith]. unfold backtick in Hc. by rewrite Ascii.eqb_sym, Hc.
  - symmetry in Heq. destruct (prefix_before _ _ _ _ _ Hb Heq) as (inner' & -> & ->).
    rewrite append_assoc, Htok. rewrite mentions_app in H.
    apply orb_false_elim in H as [_ H]. apply IH; [|done].
    rewrite length_app_string. destruct tok; [done|]. cbn. lia.
Qed.

Lemma lazy_body_exact inner ws' post :
  mentions backtick inner = false → all_space ws' = true →
  lazy_body (inner +:+ "}" +:+ ws' +:+ "```" +:+ post) = Some (inner +:+ "}").
Proof.
  intros Hin Hws'. induction inner as [|c inner IH].
  - change (EmptyString +:+ ?x) with x.
    change ("}" +:+ ?x) with (String "}" x). cbn [lazy_body].
    rewrite skip_space_app by done.
    change ("```" +:+ post) with (String "`" (String "`" (String "`" post))).
    done.
  - cbn [mentions] in Hin. apply orb_false_elim in Hin as [Hc Hin].
    change (String c inner +:+ ?x) with (String c (inner +:+ x)). cbn [lazy_body].
    change ("}" +:+ ?x) with (String "}" x).
    rewrite no_fence_after_blanks by done. rewrite andb_false_r.
    change ("}" +:+ ?x) with (String "}" x) in IH. by rewrite IH.
Qed.

Lemma match_here_no_backtick c r :
  Ascii.eqb c backtick = false → match_here (String c r) = None.
Proof.
  intros Hc. unfold match_here. cbn [Str.startswith].
  unfold backtick in Hc. by rewrite Ascii.eqb_sym, Hc.
Qed.

Lemma re_search_json_fenced (pre ws inner ws' post : string) :
  mentions backtick pre = false →
  mentions backtick inner = false →
  all_space ws = true → all_space ws' = true →
  re_search_json (pre +:+ fenced ws inner ws' +:+ post) = Some ("{" +:+ inner +:+ "}").
Proof.
  intros Hpre Hin Hws Hws'. induction pre as [|c pre IH].
  - change (EmptyString +:+ ?x) with x.
    assert (Hm : match_here (fenced ws inner ws' +:+ post) = Some ("{" +:+ inner +:+ "}")).
    { rewrite fenced_app. unfold match_here.
      rewrite startswith_app, after_fence, skip_space_app by done.
      change ("{" +:+ ?x) with (String "{" x).
      rewrite skip_space_plain by (done || by apply Nat.ltb_lt). rewrite Ascii.eqb_refl.
      by rewrite lazy_body_exact. }
    destruct (fenced ws inner ws' +:+ post); cbn [re_search_json]; by rewrite Hm.
  - cbn [mentions] in Hpre. apply orb_false_elim in Hpre as [Hc Hpre].
    change (String c pre +:+ ?x) with (String c (pre +:+ x)). cbn [re_search_json].
    rewrite match_here_no_backtick by done. by apply IH.
Qed.

(** X2. A reply that gives its JSON the way the prompt asks -- some text
    without a backtick, then one fenced block whose text between the braces
    holds no backtick -- has that block's braces and text as group 1,
    whatever follows the closing fence. *)
Theorem fenced_json_is_extracted (pre ws inner ws' post : string) :
  mentions backtick pre = false →
  mentions backtick inner = false →
  all_space ws = true → all_space ws' = true →
  re_search_json (pre +:+ fenced ws inner ws' +:+ post) = Some ("{" +:+ inner +:+ "}").
Proof. apply re_search_json_fenced. Qed.

Lemma fenced_json_is_extracted_witness :
  re_search_json Demo.classification_reply = Some Demo.classification_json.
Proof.
  pose proof (fenced_json_is_extracted "Here is the classification:
" EmptyString
    (Demo.q "'file_path': 'index.asp', 'classification': 'conversion_needed', 'reason': 'page', 'category': 'Views', 'conversion_type': 'Razor View'")
    "
" EmptyString eq_refl eq_refl eq_refl eq_refl) as H.
  exact H.
Defined.

(** ** Escaping *)

(** Replacing the occurrences of one character. *)
Lemma replace_char_cons a new c r :
  Str.replace (String a EmptyString) new (String c r)
  = (if Ascii.eqb a c then new else String c EmptyString)
    +:+ Str.replace (String a EmptyString) new r.
Proof.
  unfold Str.replace. cbn [Str.replace_from Str.startswith String.length Nat.sub].
  rewrite andb_true_r. by destruct (Ascii.eqb a c).
Qed.

Lemma replace_char_app a new x y :
  Str.replace (String a EmptyString) new (x +:+ y)
  = Str.replace (String a EmptyString) new x +:+ Str.replace (String a EmptyString) new y.
Proof.
  induction x as [|c x IH]; [done|].
  change (String c x +:+ y) with (String c (x +:+ y)).
  by rewrite !replace_char_cons, IH, append_assoc.
Qed.

Lemma escape_cons c r : escape (String c r) = escape_char c +:+ escape r.
Proof.
  unfold escape, Str.bslash, Str.dq.
  change (String (ascii_of_nat 92) EmptyString) with (String "\" EmptyString).
  rewrite (replace_char_cons "\"), replace_char_app. f_equal.
  unfold escape_char. rewrite (Ascii.eqb_sym c).
  destruct (Ascii.eqb "\" c) eqn:Hc.
  - vm_compute. reflexivity.
  - rewrite replace_char_cons. rewrite (Ascii.eqb_sym c).
    change (Str.replace _ _ EmptyString) with EmptyString.
    destruct (Ascii.eqb (ascii_of_nat 34) c); [done|].
    by destruct c as [[] [] [] [] [] [] [] []].
Qed.

Lemma append_empty_r (s : string) : s +:+ EmptyString = s.
Proof.
  induction s as [|c s IH]; [done|].
  change (String c s +:+ EmptyString) with (String c (s +:+ EmptyString)). by rewrite IH.
Qed.

Lemma concat_empty_cons (x : string) (l : list string) :
  String.concat EmptyString (x :: l) = x +:+ String.concat EmptyString l.
Proof. destruct l; [by rewrite append_empty_r | done]. Qed.

(** X3. The escaping done before a path or a content goes into the
    classification prompt works character by character: a backslash is
    doubled, a double quote gets a backslash in front, every other
    character stays; the second replacement does not touch what the first
    one wrote. *)
Theorem escape_is_characterwise (s : string) :
  escape s = String.concat EmptyString (map escape_char (list_ascii_of_string s)).
Proof.
  induction s as [|c r IH]; [done|]. rewrite escape_cons, IH.
  cbn [list_ascii_of_string map]. by rewrite concat_empty_cons.
Qed.

Lemma escape_char_cases c :
  (c = "\"%char ∧ escape_char c = "\\")
  ∨ (c = ascii_of_nat 34 ∧ escape_char c = Str.bslash +:+ Str.dq)
  ∨ (c ≠ "\"%char ∧ escape_char c = String c EmptyString).
Proof.
  unfold escape_char. destruct (Ascii.eqb c "\") eqn:H1.
  - apply Ascii.eqb_eq in H1. by left.
  - apply Ascii.eqb_neq in H1. destruct (Ascii.eqb c (ascii_of_nat 34)) eqn:H2.
    + apply Ascii.eqb_eq in H2. right. by left.
    + right. by right.
Qed.

(** X4. Escaping loses nothing: two texts with the same escaped form are
    the same text. *)
Theorem escape_is_injective (s s' : string) : escape s = escape s' → s = s'.
Proof.
  revert s'. induction s as [|c r IH]; intros [|c' r'].
  - done.
  - rewrite escape_cons.
    destruct (escape_char_cases c') as [[_ ->]|[[_ ->]|[_ ->]]]; discriminate.
  - rewrite escape_cons.
    destruct (escape_char_cases c) as [[_ ->]|[[_ ->]|[_ ->]]]; discriminate.
  - rewrite !escape_cons.
    destruct (escape_char_cases c) as [[-> ->]|[[-> ->]|[Hc ->]]];
      destruct (escape_char_cases c') as [[-> ->]|[[-> ->]|[Hc' ->]]];
      intros H; try discriminate H.
    + injection H as H. by rewrite (IH _ H).
    + injection H as H. by destruct Hc'.
    + injection H as H. by rewrite (IH _ H).
    + injection H as H. by destruct Hc'.
    + injection H as H. by destruct Hc.
    + injection H as H. by destruct Hc.
    + injection H as -> H. by rewrite (IH _ H).
Qed.

Lemma escape_is_injective_witness : "a\b" = "a\b".
Proof. apply escape_is_injective. reflexivity. Defined.

(** ** The name of the project *)

Lemma replace_absent old new s :
  occurs old s = false → Str.replace old new s = s.
Proof.
  unfold Str.replace. induction s as [|c r IH]; [done|].
  cbn [occurs]. intros [Hs Hr]%orb_false_elim.
  cbn [Str.replace_from]. rewrite Hs. by rewrite IH.
Qed.

Lemma string_app_cons c r s : String c r +:+ s = String c (r +:+ s).
Proof. done. Qed.

Lemma string_app_nil s : EmptyString +:+ s = s.
Proof. done. Qed.

Lemma no_git_across x tail :
  x ≠ EmptyString → Str.startswith ".git" x = false →
  Str.startswith ".git" (x +:+ ".git" +:+ tail) = false.
Proof.
  destruct x as [|c1 [|c2 [|c3 [|c4 r]]]]; [done|..]; intros _ H.
  all: rewrite ?string_app_cons, ?string_app_nil.
  all: change (".git" +:+ tail)
         with (String "." (String "g" (String "i" (String "t" tail)))).
  all: cbn [Str.startswith] in *.
  all: try exact H.
  all: change (Ascii.eqb "g" ".") with false; change (Ascii.eqb "i" ".") with false;
    change (Ascii.eqb "t" ".") with false.
  all: by rewrite ?andb_false_r.
Qed.

Lemma replace_git_inside a b :
  occurs ".git" a = false →
  Str.replace ".git" EmptyString (a +:+ ".git" +:+ b)
  = a +:+ Str.replace ".git" EmptyString b.
Proof.
  unfold Str.replace. induction a as [|c r IH]; [done|].
  cbn [occurs]. intros [Hs Hr]%orb_false_elim.
  rewrite !(string_app_cons c r). cbn [Str.replace_from].
  rewrite <- (string_app_cons c r), no_git_across by done. by rewrite IH.
Qed.

Lemma replace_git_suffix name :
  occurs ".git" name = false →
  Str.replace ".git" EmptyString (name +:+ ".git") = name.
Proof.
  intros H. pose proof (replace_git_inside name EmptyString H) as Hr.
  change (".git" +:+ EmptyString) with ".git" in Hr.
  change (Str.replace ".git" EmptyString EmptyString) with EmptyString in Hr.
  by rewrite append_empty_r in Hr.
Qed.

Lemma has_slash_app a b :
  Str.has_slash (a +:+ b) = Str.has_slash a || Str.has_slash b.
Proof.
  induction a as [|c a IH]; [done|].
  change (String c a +:+ b) with (String c (a +:+ b)). cbn [Str.has_slash].
  by rewrite IH, orb_assoc.
Qed.

Lemma last_segment base x :
  Str.has_slash x = false →
  List.last (Str.split_slash (base +:+ "/" +:+ x)) EmptyString = x.
Proof.
  intros Hx. change ("/" +:+ x) with (String Str.slash x).
  rewrite split_slash_app, (split_slash_no_slash x) by done. apply last_last.
Qed.

(** X5. The project is named after the repository: for a repository name
    without a slash in which [.git] does not occur, the clone URL that ends
    in the name followed by [.git] and the URL that ends in the name alone
    both give the name. *)
Theorem project_is_named_after_the_repository (base name : string) :
  Str.has_slash name = false →
  occurs ".git" name = false →
  project_name_of (base +:+ "/" +:+ name +:+ ".git") = name
  ∧ project_name_of (base +:+ "/" +:+ name) = name.
Proof.
  intros Hs Hg. unfold project_name_of. split.
  - rewrite last_segment by by rewrite has_slash_app, Hs.
    by apply replace_git_suffix.
  - rewrite last_segment by done. by apply replace_absent.
Qed.

Lemma project_is_named_after_the_repository_witness :
  project_name_of "https://github.com/acme/shop.git" = "shop"
  ∧ project_name_of "https://github.com/acme/shop" = "shop".
Proof.
  apply (project_is_named_after_the_repository "https://github.com/acme" "shop");
    reflexivity.
Defined.

(** X6. A URL that ends in a slash gives the empty project name: the
    last piece of [split('/')] is then the empty text. *)
Theorem url_with_trailing_slash_has_no_name (url : string) :
  project_name_of (url +:+ "/") = EmptyString.
Proof.
  unfold project_name_of. change "/" with (String Str.slash EmptyString).
  rewrite split_slash_app. cbn [Str.split_slash]. by rewrite last_last.
Qed.

(** X7. Whatever the URL, the project name holds no slash, so the project
    directory [os.path.join(output_dir, project_name)] lies one step from
    the output directory at most: it is the output directory itself when
    the name is empty or [.], the directory above the output directory
    when the name is [..], and otherwise the entry of that name in the
    output directory. *)
Theorem project_directory_is_one_step_away (url output_dir : string) :
  Str.has_slash (project_name_of url) = false
  ∧ posixpath.components (posixpath.join output_dir (project_name_of url))
    = (if String.eqb (project_name_of url) EmptyString
          || String.eqb (project_name_of url) "."
       then posixpath.components output_dir
       else if String.eqb (project_name_of url) ".."
            then removelast (posixpath.components output_dir)
            else posixpath.components output_dir ++ [project_name_of url]).
Proof.
  split; [apply project_name_no_slash|].
  by rewrite components_join_segment by apply project_name_no_slash.
Qed.

(** X8. [replace('.git', '')] removes [.git] wherever it stands in the
    last segment of the URL, not only at its end: a name that reads [a],
    [.git], [b] becomes [a] followed by [b] without its own [.git]s. *)
Theorem git_is_removed_anywhere_in_the_name (base a b : string) :
  Str.has_slash a = false → Str.has_slash b = false →
  occurs ".git" a = false →
  project_name_of (base +:+ "/" +:+ a +:+ ".git" +:+ b)
  = a +:+ Str.replace ".git" EmptyString b.
Proof.
  intros Ha Hb Hg. unfold project_name_of.
  rewrite last_segment by (rewrite !has_slash_app, Ha, Hb; done).
  by apply replace_git_inside.
Qed.

Lemma git_is_removed_anywhere_in_the_name_witness :
  project_name_of "https://github.com/acme/acme.github.io" = "acmehub.io".
Proof.
  apply (git_is_removed_anywhere_in_the_name "https://github.com/acme" "acme" "hub.io");
    reflexivity.
Defined.

(** ** Reading a file *)

(** X9. [read_file_content] never raises and changes nothing but the
    console.  It returns the text of the file decoded as UTF-8, or else as
    windows-1252, and then prints nothing; it returns [None] and prints one
    line when the bytes decode in neither way ([Skipping binary file]) and
    when there is no regular file to open ([Failed to read file]). *)
Theorem read_file_content_outcome (E : env) (file_path : string) (w : world) :
  ∃ lines,
    read_file_content E file_path w
    = (Ok (readable_content E (w_fs w) file_path),
       World (w_fs w) (w_console w ++ lines) (w_requests w) (w_tmp w))
    ∧ match file_bytes (w_fs w) file_path, readable_content E (w_fs w) file_path with
      | _, Some _ => lines = []
      | Some _, None => lines = ["Skipping binary file: " +:+ file_path]
      | None, None =>
          ∃ e, lines = ["Failed to read file " +:+ file_path +:+ ": " +:+ str_exn e]
      end.
Proof.
  assert (Hw : World (w_fs w) (w_console w ++ []) (w_requests w) (w_tmp w) = w)
    by (rewrite app_nil_r; by destruct w).
  unfold read_file_content, readable_content, try_except, read_text.
  unfold bind, ret, raise, print.
  destruct (file_bytes (w_fs w) file_path) as [data|] eqn:Hb.
  - rewrite (read_bytes_file _ _ _ _ Hb).
    destruct (decode E utf_8 data) as [text|]; [exists []; by rewrite Hw|].
    cbn [is_UnicodeDecodeError]. rewrite (read_bytes_file _ _ _ _ Hb).
    destruct (decode E windows_1252 data) as [text|]; [exists []; by rewrite Hw|].
    by eexists.
  - destruct (read_bytes_no_file E file_path w Hb) as (c & msg & -> & ->).
    eexists. split; [done|]. by exists (PyErr c msg).
Qed.

(** ** The files that are analysed *)

(** X10. The files for which the analysis submits a task are the regular
    files below the project path that have one of the six extensions
    (whatever the case of the letters) and lie in no directory named
    [.git], at any depth; the path submitted is the project path joined
    with the directory names and the file name. *)
Theorem submitted_files_are_the_sources_outside_git (fs : filesystem)
    (project_path file_path : string) :
  file_path ∈ submitted_files fs project_path ↔
  project_path ≠ EmptyString
  ∧ ∃ dirs file data,
      fs !! (posixpath.components project_path ++ dirs ++ [file]) = Some (NFile data)
      ∧ (".git" ∉ dirs)
      ∧ has_source_extension file = true
      ∧ file_path = posixpath.join (fold_left posixpath.join dirs project_path) file.
Proof.
  unfold submitted_files, walk. rewrite list_elem_of_fmap. split.
  - intros ([root file] & -> & Hin). apply list_elem_of_filter in Hin as [Hext Hin].
    destruct (String.eqb_spec project_path EmptyString) as [->|Hne];
      [by apply elem_of_nil in Hin|].
    split; [done|]. apply list_elem_of_omap in Hin as (kv & Hkv & Hw).
    apply walk_entry_spec in Hw as (dirs & file' & data & -> & Hp & [= -> ->]).
    apply elem_of_map_to_list in Hkv. apply prune_git_false in Hp.
    exists dirs, file', data. done.
  - intros (Hne & dirs & file & data & Hf & Hg & Hext & ->).
    exists (fold_left posixpath.join dirs project_path, file). split; [done|].
    apply list_elem_of_filter. split; [done|].
    apply String.eqb_neq in Hne. rewrite Hne. apply list_elem_of_omap.
    exists (posixpath.components project_path ++ dirs ++ [file], NFile data).
    split; [by apply elem_of_map_to_list|].
    apply walk_entry_spec. exists dirs, file, data. by rewrite prune_git_false.
Qed.

Lemma lower_app a b : Str.lower (a +:+ b) = Str.lower a +:+ Str.lower b.
Proof.
  induction a as [|c a IH]; [done|]. rewrite string_app_cons. cbn [Str.lower].
  by rewrite IH.
Qed.

Lemma endswith_app p a : Str.endswith p (a +:+ p) = true.
Proof.
  induction a as [|c a IH].
  - rewrite string_app_nil. destruct p; cbn [Str.endswith]; by rewrite String.eqb_refl.
  - rewrite string_app_cons. cbn [Str.endswith]. rewrite IH. by destruct (String.eqb _ _).
Qed.

(** X11. The test of the extension ignores the case of the letters: a
    file name that ends in any spelling of [.asp], [.asa], [.inc],
    [.html], [.css] or [.js] is a source file, whatever stands before. *)
Theorem extension_is_matched_in_any_case (stem ext : string) :
  Str.lower ext ∈ [".asp"; ".asa"; ".inc"; ".html"; ".css"; ".js"] →
  has_source_extension (stem +:+ ext) = true.
Proof.
  intros Hin. unfold has_source_extension. apply existsb_exists.
  exists (Str.lower ext). split; [by apply list_elem_of_In|].
  rewrite lower_app. apply endswith_app.
Qed.

Lemma extension_is_matched_in_any_case_witness :
  has_source_extension "Default.ASP" = true.
Proof.
  apply (extension_is_matched_in_any_case "Default" ".ASP"). set_solver.
Defined.

(** ** What the analysis files *)

(** X12. Every record the analysis returns was filed for a file it
    classified: its [file_path] and [content] are the path of a submitted
    file and the non-empty text read from it, whatever path the reply of
    the model names. *)
Theorem every_record_comes_from_a_classified_file (E : env) (project_path : string)
    (w : world) :
  ∃ ps w',
    analyze_asp_project E project_path w = (Ok ps, w')
    ∧ ∀ r, r ∈ records ps →
           ∃ file_path content,
             (file_path, content) ∈ classified_files E (w_fs w) project_path
             ∧ record_of file_path content r.
Proof.
  destruct (analyze_asp_project_records E project_path w) as (ps & w' & H & Hrec & _).
  by exists ps, w'.
Qed.

(** X13. The analysis files at most one record for each classification
    request it sends: the buckets together hold no more records than there
    are files with a text to classify. *)
Theorem no_more_records_than_classified_files (E : env) (project_path : string)
    (w : world) :
  ∃ ps w',
    analyze_asp_project E project_path w = (Ok ps, w')
    ∧ (length (records ps) ≤ length (classified_files E (w_fs w) project_path))%nat.
Proof.
  destruct (analyze_asp_project_records E project_path w) as (ps & w' & H & _ & Hlen).
  by exists ps, w'.
Qed.

(** X14. A file with a text whose classification is a JSON object that
    names one of the categories of the structure and has the fields
    [classification] and [reason] is filed at the end of that category's
    list, and the other lists stay as they are.  The record holds the
    file's own path and text, the two fields of the reply, and its
    [conversion_type], or [Unknown] when the reply has none. *)
Theorem classified_file_is_filed_under_its_category (E : env)
    (file_path content reply key : string) (d : list (string * json)) (c r : json)
    (l : list json) (ps : list (string * list json)) (w : world) :
  readable_content E (w_fs w) file_path = Some content →
  content ≠ EmptyString →
  llm E (length (w_requests w)) (classification_prompt E file_path content) = inr reply →
  json_loads E (json_text reply) = inr (JDict d) →
  category_of d = JStr key →
  dict_lookup key ps = Some l →
  dict_lookup "classification" d = Some c →
  dict_lookup "reason" d = Some r →
  ∃ ps' w',
    analyze_file E file_path ps w = (Ok ps', w')
    ∧ dict_lookup key ps'
      = Some (l ++ [JDict [("file_path", JStr file_path);
                           ("classification", c);
                           ("reason", r);
                           ("conversion_type",
                            match dict_lookup "conversion_type" d with
                            | Some t => t
                            | None => JStr "Unknown"
                            end);
                           ("content", JStr content)]])
    ∧ ∀ k, k ≠ key → dict_lookup k ps' = dict_lookup k ps.
Proof.
  intros Hc Hne Hllm Hv Hcat Hkey Hcl Hrs.
  destruct (analyze_file_classified E _ _ _ ps w Hc Hne Hllm) as [w2 ->]. rewrite Hv.
  unfold file_record, get_or, key_in, getitem, bind, ret. fold (category_of d).
  rewrite Hcat, Hkey, Hcl, Hrs. eexists _, _. split; [done|].
  split.
  - by rewrite bucket_append_lookup, String.eqb_refl, Hkey.
  - intros k Hk. apply String.eqb_neq in Hk. by rewrite bucket_append_lookup, Hk.
Qed.

Lemma classified_file_is_filed_under_its_category_witness :
  ∃ ps' w',
    analyze_file (Demo.E (inr Demo.classification_reply) (inr EmptyString))
      "/tmp/tmp0/index.asp" initial_structure Demo.w1 = (Ok ps', w')
    ∧ dict_lookup "Views" ps'
      = Some [JDict [("file_path", JStr "/tmp/tmp0/index.asp");
                     ("classification", JStr "conversion_needed");
                     ("reason", JStr "page");
                     ("conversion_type", JStr "Razor View");
                     ("content", JStr "<% Response.Write 1 %>")]]
    ∧ ∀ k, k ≠ "Views" → dict_lookup k ps' = dict_lookup k initial_structure.
Proof.
  apply (classified_file_is_filed_under_its_category
           (Demo.E (inr Demo.classification_reply) (inr EmptyString))
           "/tmp/tmp0/index.asp" "<% Response.Write 1 %>" Demo.classification_reply
           "Views"
           [("file_path", JStr "index.asp");
            ("classification", JStr "conversion_needed");
            ("reason", JStr "page");
            ("category", JStr "Views");
            ("conversion_type", JStr "Razor View")]
           (JStr "conversion_needed") (JStr "page") [] initial_structure Demo.w1).
  - vm_compute. reflexivity.
  - discriminate.
  - reflexivity.
  - vm_compute. reflexivity.
  - reflexivity.
  - reflexivity.
  - reflexivity.
  - reflexivity.
Defined.

(** X15. The fields [classification] and [reason] are read with [[...]],
    not with [get]: when the classification names a category of the
    structure and lacks one of the two, the task raises [KeyError] with the
    name of the first field that is missing, and nothing is filed. *)
Theorem classification_without_a_field_raises (E : env)
    (file_path content reply key missing : string) (d : list (string * json))
    (l : list json) (ps : list (string * list json)) (w : world) :
  readable_content E (w_fs w) file_path = Some content →
  content ≠ EmptyString →
  llm E (length (w_requests w)) (classification_prompt E file_path content) = inr reply →
  json_loads E (json_text reply) = inr (JDict d) →
  category_of d = JStr key →
  dict_lookup key ps = Some l →
  match dict_lookup "classification" d, dict_lookup "reason" d with
  | None, _ => missing = "classification"
  | Some _, None => missing = "reason"
  | Some _, Some _ => False
  end →
  (analyze_file E file_path ps w).1 = Raise (PyErr KeyError ("'" +:+ missing +:+ "'")).
Proof.
  intros Hc Hne Hllm Hv Hcat Hkey Hmiss.
  destruct (analyze_file_classified E _ _ _ ps w Hc Hne Hllm) as [w2 ->]. rewrite Hv.
  unfold file_record, get_or, key_in, getitem, bind, ret, raise. fold (category_of d).
  rewrite Hcat, Hkey.
  destruct (dict_lookup "classification" d) as [c|]; [|by subst].
  destruct (dict_lookup "reason" d) as [r|]; [done | by subst].
Qed.

Lemma classification_without_a_field_raises_witness :
  (analyze_file
     (Sample.with_replies (Demo.E (inr Sample.partial_reply) (inr EmptyString))
        [(Sample.partial_reply, Sample.partial_value)])
     "/tmp/tmp0/index.asp" initial_structure Demo.w1).1
  = Raise (PyErr KeyError "'reason'").
Proof.
  apply (classification_without_a_field_raises
           (Sample.with_replies (Demo.E (inr Sample.partial_reply) (inr EmptyString))
              [(Sample.partial_reply, Sample.partial_value)])
           "/tmp/tmp0/index.asp" "<% Response.Write 1 %>" Sample.partial_reply
           "Views" "reason"
           [("category", JStr "Views"); ("classification", JStr "conversion_needed")]
           [] initial_structure Demo.w1).
  - vm_compute. reflexivity.
  - discriminate.
  - reflexivity.
  - vm_compute. reflexivity.
  - reflexivity.
  - reflexivity.
  - vm_compute. reflexivity.
Defined.



(** X17. Classifying a file, analysing a project and generating the new
    one read files and talk to the model; none of them writes, removes or
    creates anything: the filesystem and the count of temporary names are
    the same afterwards, whether the call returns or raises. *)
Theorem talking_to_the_model_writes_nothing (E : env)
    (file_path content project_path project_name : string)
    (analysis_data : list (string * list json)) (w : world) :
  same_fs w (classify_file_with_openai E file_path content w).2
  ∧ same_fs w (analyze_asp_project E project_path w).2
  ∧ same_fs w (generate_mvc_with_openai E analysis_data project_name w).2.
Proof.
  split; [apply classify_same_fs|].
  split; [apply analyze_asp_project_same_fs | apply generate_mvc_same_fs].
Qed.

(** ** Cloning *)


Section Cloning.

Variable E : env.

Lemma clone_and_zip_repo_total github_url w :
  ∃ r w', clone_and_zip_repo E github_url w = (Ok r, w').
Proof.
  unfold clone_and_zip_repo.
  match goal with
  | |- ∃ r w', try_except ?b ?h w = _ =>
      unfold try_except; destruct (b w) as [[r|e] w1]
  end; [eauto|]. unfold bind, print, ret. eauto.
Qed.

Lemma clone_and_zip_repo_None github_url w w' :
  clone_and_zip_repo E github_url w = (Ok None, w') →
  ∃ e w1, w' = World (w_fs w1)
                 (w_console w1 ++ ["Failed to clone and zip repository: " +:+ str_exn e])
                 (w_requests w1) (w_tmp w1).
Proof.
  intros H. apply try_except_Ok in H as [H | (e & w1 & hm & _ & [= <-] & H)].
  - do 8 inv_bind H. discriminate H.
  - unfold bind, print, ret in H. injection H as <-. eauto.
Qed.

End Cloning.

(** X18. [clone_and_zip_repo] never raises: it returns the two paths, or
    [(None, None)] after printing the line [Failed to clone and zip
    repository] with the text of the exception it caught. *)
Theorem clone_and_zip_repo_never_raises (E : env) (github_url : json) (w : world) :
  ∃ r w',
    clone_and_zip_repo E github_url w = (Ok r, w')
    ∧ (r = None →
       ∃ e, last (w_console w')
            = Some ("Failed to clone and zip repository: " +:+ str_exn e)).
Proof.
  destruct (clone_and_zip_repo_total E github_url w) as (r & w' & H).
  exists r, w'. split; [done|]. intros ->.
  apply clone_and_zip_repo_None in H as (e & w1 & ->). exists e. cbn [w_console].
  apply last_snoc.
Qed.

(** X19. When git fails, the directory made for the clone stays: a path
    that did not exist before the call is a directory after it, although
    the call returns [(None, None)].  The console shows the two lines of the
    attempt. *)
Theorem failed_clone_leaves_its_directory (E : env) (url d : string) (e : exn)
    (w w1 : world) :
  mkdtemp E w = (Ok d, w1) →
  git_clone E url = inl e →
  ∃ w',
    clone_and_zip_repo E (JStr url) w = (Ok None, w')
    ∧ w_fs w !! posixpath.components d = None
    ∧ w_fs w' !! posixpath.components d = Some NDir
    ∧ w_console w'
      = w_console w
        ++ ["Cloning repository from " +:+ url +:+ " to " +:+ d +:+ "...";
            "Failed to clone and zip repository: " +:+ str_exn e].
Proof.
  intros Hmk Hgit.
  pose proof (mkdtemp_Ok E _ _ _ Hmk) as (_ & Hc & Hfree & _ & Hw1).
  cbv zeta in Hc, Hfree, Hw1.
  eexists. split.
  - unfold clone_and_zip_repo, try_except.
    rewrite (bind_eq_Ok _ _ _ _ _ Hmk). unfold bind at 1. unfold print at 1.
    cbv beta iota. unfold bind at 1. unfold git_clone_into. rewrite Hgit.
    unfold raise at 1. cbv beta iota. unfold bind, print, ret. reflexivity.
  - rewrite Hc. split; [done|]. rewrite Hw1. cbn [w_fs w_console py_str].
    split; [by rewrite lookup_insert_eq|]. by rewrite <- app_assoc.
Qed.

Lemma failed_clone_leaves_its_directory_witness :
  let E := Demo.E (inr EmptyString) (inr EmptyString) in
  ∃ w',
    clone_and_zip_repo E (JStr "https://github.com/acme/gone.git") Demo.w0 = (Ok None, w')
    ∧ w_fs Demo.w0 !! ["tmp"; "tmp0"] = None
    ∧ w_fs w' !! ["tmp"; "tmp0"] = Some NDir.
Proof.
  cbv zeta.
  destruct (failed_clone_leaves_its_directory (Demo.E (inr EmptyString) (inr EmptyString))
              "https://github.com/acme/gone.git" "/tmp/tmp0"
              (PyErr (OtherError "CalledProcessError")
                 "Command 'git clone' returned non-zero exit status 128.")
              Demo.w0 (mkdtemp (Demo.E (inr EmptyString) (inr EmptyString)) Demo.w0).2)
    as (w' & H & Hfree & Hdir & _).
  - vm_compute. reflexivity.
  - reflexivity.
  - exists w'. split; [exact H|]. split; [exact Hfree | exact Hdir].
Defined.

Lemma file_bytes_insert (fs : filesystem) (file_path data : string) :
  file_path ≠ EmptyString →
  posixpath.components file_path ≠ [] →
  file_bytes (<[posixpath.components file_path := NFile data]> fs) file_path = Some data.
Proof.
  intros Hne Hc. unfold file_bytes. apply String.eqb_neq in Hne. rewrite Hne.
  by rewrite lookup_node_insert_eq.
Qed.

(** X20. When [clone_and_zip_repo] returns its two paths, both exist: the
    first is the regular file [cloned_repo.zip] of the temporary directory
    and holds an archive, the second is a directory.  The name of the
    archive does not depend on the request. *)
Theorem cloned_repository_and_its_archive_exist (E : env) (github_url : json)
    (zip_path temp_clone_path : string) (w w' : world) :
  clone_and_zip_repo E github_url w = (Ok (Some (zip_path, temp_clone_path)), w') →
  zip_path = posixpath.join (tempdir E) "cloned_repo.zip"
  ∧ (∃ entries, file_bytes (w_fs w') zip_path = Some (zip_bytes E entries))
  ∧ lookup_node (w_fs w') (posixpath.components temp_clone_path) = Some NDir.
Proof.
  intros H.
  pose proof (clone_and_zip_repo_Ok E _ _ _ _ _ H) as (_ & _ & Hz & _ & _ & Hdir & _).
  split; [done|]. split; [|done]. subst zip_path.
  apply try_except_Ok in H as [H | (e & w1 & hm & _ & [= <-] & H)].
  2: { unfold bind, print, ret in H. discriminate H. }
  do 7 inv_bind H. destruct a5. apply open_write_Ok in Ha5 as [-> _].
  inv_bind H. injection H as _ <-. unfold print in Ha5. injection Ha5 as _ <-.
  cbn [w_fs]. exists a4. apply file_bytes_insert.
  - by apply join_nonempty.
  - rewrite components_join_name by done.
    by destruct (posixpath.components (tempdir E)).
Qed.

Lemma cloned_repository_and_its_archive_exist_witness :
  let E := Demo.E (inr EmptyString) (inr EmptyString) in
  ∃ entries,
    file_bytes (w_fs (clone_and_zip_repo E (JStr Demo.url) Demo.w0).2) "/tmp/cloned_repo.zip"
    = Some (zip_bytes E entries).
Proof.
  cbv zeta.
  destruct (cloned_repository_and_its_archive_exist
              (Demo.E (inr EmptyString) (inr EmptyString)) (JStr Demo.url)
              "/tmp/cloned_repo.zip" "/tmp/tmp0" Demo.w0
              (clone_and_zip_repo (Demo.E (inr EmptyString) (inr EmptyString))
                 (JStr Demo.url) Demo.w0).2) as (_ & H & _).
  - vm_compute. reflexivity.
  - exact H.
Defined.

(** ** Requests that fail *)

Section Failures.

Variable E : env.

(** Without a repository there is no clone: the argument is not a text, or
    git fails on it. *)
Lemma clone_and_zip_repo_fails github_url w :
  (∀ url, github_url = JStr url → ∃ e, git_clone E url = inl e) →
  ∃ w', clone_and_zip_repo E github_url w = (Ok None, w')
        ∧ w_requests w' = w_requests w.
Proof.
  intros Hgit. unfold clone_and_zip_repo, try_except.
  unfold bind at 1.
  assert (Hreq : w_requests (mkdtemp E w).2 = w_requests w).
  { unfold mkdtemp. by repeat case_match. }
  destruct (mkdtemp E w) as [[d|e] w1]; cbn [snd] in Hreq.
  - unfold bind at 1. unfold print at 1. cbv beta iota.
    unfold bind at 1.
    assert (∃ e, git_clone_into E github_url d
                   (World (w_fs w1)
                      (w_console w1
                       ++ ["Cloning repository from " +:+ py_str E github_url +:+ " to "
                           +:+ d +:+ "..."])
                      (w_requests w1) (w_tmp w1))
                 = (Raise e,
                    World (w_fs w1)
                      (w_console w1
                       ++ ["Cloning repository from " +:+ py_str E github_url +:+ " to "
                           +:+ d +:+ "..."])
                      (w_requests w1) (w_tmp w1))) as [e ->].
    { unfold git_clone_into, raise.
      destruct github_url; eauto. destruct (Hgit _ eq_refl) as [e ->]. eauto. }
    unfold bind, print, ret. eexists. split; [done|]. done.
  - unfold bind, print, ret. eexists. split; [done|]. done.
Qed.

End Failures.

(** X21. When the value under ["githubUrl"] is not a text, or git cannot
    clone it, the request ends with HTTP 500 and the detail
    [500: Failed to clone repository]: the [HTTPException] raised under
    [try] is caught by the handler of the same statement and wrapped again,
    so its status shows in the detail.  No request has gone to the model. *)
Theorem failed_clone_is_reported_with_a_doubled_status (E : env)
    (d : list (string * json)) (github_url : json) (w : world) :
  dict_lookup "githubUrl" d = Some github_url →
  truthy github_url = true →
  (∀ url, github_url = JStr url → ∃ e, git_clone E url = inl e) →
  ∃ w',
    process_github E (JDict d) w
    = (Raise (HTTPException 500 "500: Failed to clone repository"), w')
    ∧ w_requests w' = w_requests w.
Proof.
  intros Hd Ht Hgit.
  destruct (clone_and_zip_repo_fails E github_url w Hgit) as (w1 & Hclone & Hreq).
  unfold process_github, get_or. unfold bind at 1. unfold ret at 1. rewrite Hd, Ht.
  cbn [negb]. unfold try_except, process_github_try, generate_project.
  unfold bind at 1. rewrite (bind_eq_Ok _ _ _ _ _ Hclone).
  unfold raise at 1. cbv beta iota. unfold bind, print, raise.
  eexists. split; [reflexivity|]. done.
Qed.

Lemma failed_clone_is_reported_with_a_doubled_status_witness :
  ∃ w',
    process_github (Demo.E (inr EmptyString) (inr EmptyString))
      (JDict [("githubUrl", JInt 7)]) Demo.w0
    = (Raise (HTTPException 500 "500: Failed to clone repository"), w')
    ∧ w_requests w' = [].
Proof.
  apply (failed_clone_is_reported_with_a_doubled_status
           (Demo.E (inr EmptyString) (inr EmptyString))
           [("githubUrl", JInt 7)] (JInt 7) Demo.w0).
  - reflexivity.
  - reflexivity.
  - discriminate.
Defined.

Lemma grows_dir (w w' : world) (p : path) :
  grows w w' → lookup_node (w_fs w) p = Some NDir → lookup_node (w_fs w') p = Some NDir.
Proof. intros (_ & H & _). apply H. Qed.




Section No_cleanup.

Variable E : env.


End No_cleanup.



(** ** The copy in the Downloads folder *)

Lemma string_length_app a b :
  String.length (a +:+ b) = (String.length a + String.length b)%nat.
Proof.
  induction a as [|c a IH]; [done|]. rewrite string_app_cons. cbn [String.length].
  by rewrite IH.
Qed.

Lemma valid_name_zip name :
  Str.has_slash name = false → valid_name (name +:+ ".zip").
Proof.
  intros Hs. unfold valid_name, posixpath.valid_nameb.
  rewrite has_slash_app, Hs.
  assert (Hlen : ∀ x, (String.length x < 4)%nat → String.eqb (name +:+ ".zip") x = false).
  { intros x Hx. apply String.eqb_neq. intros Heq.
    apply (f_equal String.length) in Heq. rewrite string_length_app in Heq.
    cbn [String.length] in Heq. lia. }
  rewrite !Hlen by (cbn; lia). done.
Qed.

Lemma not_under_child (T D : path) (x y : string) :
  under T D = false → under (T ++ [x]) (D ++ [y]) = false.
Proof.
  intros Hu. destruct (under (T ++ [x]) (D ++ [y])) eqn:H; [|done].
  apply under_spec in H as [rel Hrel]. rewrite <- app_assoc in Hrel.
  assert (under T D = true); [|congruence]. apply under_spec.
  destruct rel as [|r rel _] using rev_ind.
  - rewrite app_nil_r in Hrel. apply app_inj_tail in Hrel as [-> _].
    exists []. by rewrite app_nil_r.
  - change ([x] ++ rel ++ [r]) with (([x] ++ rel) ++ [r]) in Hrel.
    rewrite app_assoc in Hrel. apply app_inj_tail in Hrel as [-> _]. eauto.
Qed.

Section Downloads.

Variable E : env.

Lemma read_bytes_world file_path data w w' :
  read_bytes E file_path w = (Ok data, w') → w' = w.
Proof.
  unfold read_bytes. destruct (String.eqb file_path EmptyString); [done|].
  unfold bind, get_fs, ret, raise. repeat case_match; congruence.
Qed.

Lemma zip_write_all_world top files : ∀ zipf r w w',
  zip_write_all E top files zipf w = (r, w') → w' = w.
Proof.
  induction files as [|[root file] files IH]; intros zipf r w w' H.
  - by injection H as _ <-.
  - cbn [zip_write_all] in H. cbv zeta in H. unfold bind in H.
    destruct (read_bytes E (posixpath.join root file) w) as [[data|e] w1] eqn:Hr.
    + apply read_bytes_world in Hr as ->. by eapply IH.
    + injection H as _ <-.
      pose proof (read_bytes_quiet E (posixpath.join root file) w) as Hq.
      rewrite Hr in Hq. destruct Hq as (Hfs & Htmp & Hreq). cbn [snd] in *.
      unfold read_bytes in Hr. destruct (String.eqb _ _); [by injection Hr as _ <-|].
      unfold bind, get_fs, ret, raise in Hr. repeat case_match; congruence.
Qed.

(** Filling an archive changes nothing at all. *)
Lemma zip_tree_world top r w w' : zip_tree E top w = (r, w') → w' = w.
Proof. unfold zip_tree, bind, get_fs. apply zip_write_all_world. Qed.

Lemma open_write_Raise file_path data e w w' :
  open_write E file_path data w = (Raise e, w') → w' = w.
Proof.
  unfold open_write. destruct (String.eqb file_path EmptyString); [by intros [= _ <-]|].
  unfold bind, get_fs, put_fs, raise. repeat case_match; congruence.
Qed.

Lemma open_write_no_directory file_path data w :
  lookup_node (w_fs w) (removelast (posixpath.components file_path)) ≠ Some NDir →
  ∃ e, open_write E file_path data w = (Raise e, w).
Proof.
  intros Hdir. unfold open_write. destruct (String.eqb file_path EmptyString).
  - unfold raise. eauto.
  - unfold bind, get_fs, put_fs, raise. repeat case_match; eauto; congruence.
Qed.

End Downloads.

(** X23. The copy is saved without a look at the folder: when
    [~/Downloads] is not a directory, [save_zip_to_downloads] raises,
    whatever the project, and leaves the filesystem as it was. *)
Theorem saving_needs_the_downloads_folder (E : env) (project_dir zip_file_name : string)
    (w : world) :
  valid_name zip_file_name →
  lookup_node (w_fs w) (posixpath.components (downloads_folder E)) ≠ Some NDir →
  ∃ e w',
    save_zip_to_downloads E project_dir zip_file_name w = (Raise e, w')
    ∧ w_fs w' = w_fs w.
Proof.
  intros Hname Hdir. unfold save_zip_to_downloads. unfold bind at 1.
  destruct (zip_tree E project_dir w) as [[zb|e] w1] eqn:Hz;
    apply zip_tree_world in Hz as ->; [|eauto].
  cbv zeta. unfold bind at 1.
  destruct (open_write_no_directory E
              (posixpath.join (downloads_folder E) zip_file_name) (zip_bytes E zb) w)
    as [e ->]; [|eauto].
  by rewrite components_join_name, removelast_snoc.
Qed.

Lemma saving_needs_the_downloads_folder_witness :
  ∃ e w',
    save_zip_to_downloads (Demo.E (inr EmptyString) (inr EmptyString))
      "/tmp/tmp1/shop" "shop.zip" Sample.bare = (Raise e, w')
    ∧ w_fs w' = w_fs Sample.bare.
Proof.
  apply (saving_needs_the_downloads_folder (Demo.E (inr EmptyString) (inr EmptyString))
           "/tmp/tmp1/shop" "shop.zip" Sample.bare).
  - reflexivity.
  - vm_compute. discriminate.
Defined.

Section Saved_copy.

Variable E : env.

(** What a delivery that succeeds leaves in the Downloads folder. *)
Lemma deliver_project_saves (c : string) temp_clone_path project_name mvc_content
    resp w w' :
  posixpath.components temp_clone_path = posixpath.components (tempdir E) ++ [c] →
  temp_clone_path ≠ EmptyString →
  lookup_node (w_fs w) (posixpath.components temp_clone_path) = Some NDir →
  Str.has_slash project_name = false →
  under (posixpath.components (tempdir E)) (posixpath.components (downloads_folder E))
  = false →
  deliver_project E temp_clone_path project_name mvc_content w = (Ok resp, w') →
  file_bytes (w_fs w')
    (posixpath.join (downloads_folder E) (project_name +:+ ".zip"))
  = Some (zip_bytes E (body resp)).
Proof.
  intros Hshape Hnonempty Hclone Hname Hhome H. unfold deliver_project in H.
  inv_bind H. rename a into output_dir. rename w0 into wa.
  destruct (mkdtemp_Ok_grows E _ _ _ Ha) as (_ & Hdirs & Hout & _).
  pose proof (mkdtemp_Ok E _ _ _ Ha) as (Hd & Hc & Hfree & _).
  cbv zeta in Hc, Hfree.
  assert (Hab : c ≠ "tmp" +:+ tmp_suffix E (w_tmp w)).
  { intros ->. rewrite Hshape, lookup_node_Some_dir in Hclone
      by by destruct (posixpath.components (tempdir E)).
    congruence. }
  assert (Hout_ne : output_dir ≠ EmptyString) by (rewrite Hd; apply tmp_path_nonempty).
  apply Hdirs in Hclone. clear Hdirs. cbv zeta in H.
  inv_bind H. apply (stable_Ok grows) in Ha0; [|grow_auto].
  inv_bind H. apply (stable_Ok grows) in Ha1; [|grow_auto].
  inv_bind H. apply (stable_Ok grows) in Ha2; [|grow_auto].
  assert (Hg : grows wa w2) by eauto using grows_trans.
  pose proof (grows_dir _ _ _ Hg Hclone) as Hclone2.
  pose proof (grows_dir _ _ _ Hg Hout) as Hout2.
  inv_bind H. rename a2 into zip_buffer.
  pose proof (zip_tree_world E _ _ _ _ Ha3) as ->.
  inv_bind H. unfold save_zip_to_downloads in Ha4. inv_bind Ha4.
  pose proof (zip_tree_world E _ _ _ _ Ha5) as ->.
  assert (a3 = zip_buffer) as -> by congruence.
  cbv zeta in Ha4. inv_bind Ha4. destruct a3.
  apply open_write_Ok in Ha6 as [-> _]. unfold print in Ha4. injection Ha4 as _ <-.
  set (zp := posixpath.components
               (posixpath.join (downloads_folder E) (project_name +:+ ".zip"))) in *.
  assert (Hzp : zp = posixpath.components (downloads_folder E) ++ [project_name +:+ ".zip"]).
  { unfold zp. apply components_join_name. by apply valid_name_zip. }
  inv_bind H. unfold path_exists, bind, get_fs, ret in Ha4. cbn [w_fs] in Ha4.
  assert (Hzp_clone : zp ≠ posixpath.components temp_clone_path).
  { intros Heq. rewrite Hzp, Hshape in Heq. apply app_inj_tail in Heq as [Heq _].
    rewrite Heq, under_refl in Hhome. done. }
  assert (Hzp_out : zp ≠ posixpath.components output_dir).
  { intros Heq. rewrite Hzp, Hc in Heq. apply app_inj_tail in Heq as [Heq _].
    rewrite Heq, under_refl in Hhome. done. }
  rewrite lookup_node_insert_ne, Hclone2 in Ha4 by done.
  apply String.eqb_neq in Hnonempty. rewrite Hnonempty in Ha4.
  apply String.eqb_neq in Hnonempty.
  injection Ha4 as <- <-. cbn [negb andb] in H.
  inv_bind H.
  match goal with
  | Hx : rmtree _ _ _ = (Ok ?u, ?wx) |- _ =>
      destruct u; apply rmtree_Ok in Hx;
      [subst wx | cbn [w_fs]; by rewrite lookup_node_insert_ne]
  end.
  inv_bind H.
  match goal with
  | Hx : rmtree _ _ _ = (Ok ?u, ?wx) |- _ =>
      destruct u; apply rmtree_Ok in Hx; [subst wx|]
  end.
  - injection H as <- <-. cbn [w_fs body]. unfold file_bytes.
    assert (Hj : posixpath.join (downloads_folder E) (project_name +:+ ".zip")
                 ≠ EmptyString).
    { apply join_nonempty. by destruct project_name. }
    apply String.eqb_neq in Hj. rewrite Hj. fold zp.
    rewrite lookup_node_Some_dir
      by (rewrite Hzp; by destruct (posixpath.components (downloads_folder E))).
    rewrite removed_other by (rewrite Hzp, Hc; by apply not_under_child).
    rewrite removed_other by (rewrite Hzp, Hshape; by apply not_under_child).
    by rewrite lookup_insert_eq.
  - cbn [w_fs]. rewrite Hshape, Hc.
    rewrite lookup_node_Some_dir by by destruct (posixpath.components (tempdir E)).
    rewrite removed_other by by apply siblings_not_under.
    rewrite lookup_insert_ne by (rewrite <- Hc; done).
    rewrite <- Hc. by rewrite lookup_node_Some_dir in Hout2 by (rewrite Hc; by destruct (posixpath.components (tempdir E))).
Qed.

End Saved_copy.

(** X24. A request that succeeds leaves a copy of what it returns on the
    server: when the Downloads folder does not lie in the temporary
    directory, the file [<project name>.zip] of that folder holds, after the
    clean-up, the archive of the very entries the response carries. *)
Theorem saved_copy_is_the_returned_archive (E : env) (data : json) (w w' : world)
    (resp : response) :
  process_github E data w = (Ok resp, w') →
  under (posixpath.components (tempdir E)) (posixpath.components (downloads_folder E))
  = false →
  ∃ url,
    (∃ d, data = JDict d ∧ dict_lookup "githubUrl" d = Some (JStr url))
    ∧ file_bytes (w_fs w')
        (posixpath.join (downloads_folder E) (project_name_of url +:+ ".zip"))
      = Some (zip_bytes E (body resp)).
Proof.
  intros H Hhome.
  apply process_github_Ok in H
    as (d & url & tcp & name & mvc & w1 & -> & Hd & _ & Hg & Hdel).
  apply generate_project_Ok in Hg as (s & -> & -> & Htcp & Hshape & _ & _ & Hdir & _).
  exists s. split; [eauto|].
  eapply deliver_project_saves; [exact Hshape | | exact Hdir | | done | exact Hdel].
  - rewrite Htcp. apply tmp_path_nonempty.
  - apply project_name_no_slash.
Qed.

Lemma saved_copy_is_the_returned_archive_witness :
  let E := Demo.E (inr Demo.classification_reply)
             (inr (Demo.generation_reply "Controllers/HomeController.cs")) in
  file_bytes (w_fs (process_github E Demo.request Demo.w0).2) "/home/user/Downloads/shop.zip"
  = Some (zip_bytes E [("Controllers/HomeController.cs", "var app = 1;")]).
Proof.
  cbv zeta.
  set (E := Demo.E (inr Demo.classification_reply)
              (inr (Demo.generation_reply "Controllers/HomeController.cs"))).
  set (r := process_github E Demo.request Demo.w0).
  assert (Hr : r = (Ok (StreamingResponse
                          [("Controllers/HomeController.cs", "var app = 1;")]
                          "application/zip"
                          [("Content-Disposition",
                            "attachment; filename=shop_mvc_project.zip")]), r.2))
    by (vm_compute; reflexivity).
  destruct (saved_copy_is_the_returned_archive E Demo.request Demo.w0 r.2 _ Hr)
    as (url & (d & Hd & Hurl) & H).
  - vm_compute. reflexivity.
  - injection Hd as <-. injection Hurl as <-. exact H.
Defined.

(** ** The requests of one call of the endpoint *)

Lemma same_requests_refl w : same_requests w w.
Proof. done. Qed.

Lemma same_requests_trans w1 w2 w3 :
  same_requests w1 w2 → same_requests w2 w3 → same_requests w1 w3.
Proof. unfold same_requests. congruence. Qed.

Create HintDb silent discriminated.

Ltac silent_auto :=
  repeat first [ solve [eauto with silent] | stable_case
               | stable_step same_requests_refl same_requests_trans ].

Section Silent.

Variable E : env.

Lemma print_silent line : stable same_requests (print line).
Proof. by intros w. Qed.

Lemma put_fs_silent fs : stable same_requests (put_fs fs).
Proof. by intros w. Qed.

Lemma mkdtemp_silent : stable same_requests (mkdtemp E).
Proof. intros w. unfold mkdtemp. by repeat case_match. Qed.

Hint Resolve print_silent put_fs_silent mkdtemp_silent : silent.

Lemma read_bytes_silent file_path : stable same_requests (read_bytes E file_path).
Proof. unfold read_bytes. silent_auto. Qed.

Lemma open_write_silent file_path data : stable same_requests (open_write E file_path data).
Proof. unfold open_write. silent_auto. Qed.

Lemma makedirs_silent name : stable same_requests (makedirs E name).
Proof. unfold makedirs. silent_auto. Qed.

Lemma rmtree_silent p : stable same_requests (rmtree E p).
Proof. unfold rmtree, handle_remove_readonly. silent_auto. Qed.

Lemma path_exists_silent p : stable same_requests (path_exists p).
Proof. unfold path_exists. silent_auto. Qed.

Lemma git_clone_into_silent github_url dest :
  stable same_requests (git_clone_into E github_url dest).
Proof. unfold git_clone_into. silent_auto. Qed.

Lemma items_silent v : stable same_requests (items v).
Proof. unfold items. silent_auto. Qed.

Hint Resolve read_bytes_silent open_write_silent makedirs_silent rmtree_silent
  path_exists_silent git_clone_into_silent items_silent : silent.

Lemma zip_write_all_silent top files : ∀ zipf,
  stable same_requests (zip_write_all E top files zipf).
Proof. induction files as [|[root file] files IH]; intros zipf; simpl; silent_auto. Qed.

Hint Resolve zip_write_all_silent : silent.

Lemma zip_tree_silent top : stable same_requests (zip_tree E top).
Proof. unfold zip_tree. silent_auto. Qed.

Hint Resolve zip_tree_silent : silent.

Lemma clone_and_zip_repo_silent github_url :
  stable same_requests (clone_and_zip_repo E github_url).
Proof. unfold clone_and_zip_repo. silent_auto. Qed.

Lemma deliver_project_silent temp_clone_path project_name mvc_content :
  stable same_requests (deliver_project E temp_clone_path project_name mvc_content).
Proof.
  unfold deliver_project, save_zip_to_downloads, write_project_file. silent_auto.
Qed.

End Silent.

Lemma generate_requests E analysis_data project_name w :
  w_requests (generate_mvc_with_openai E analysis_data project_name w).2
  = w_requests w
    ++ [generation_prompt project_name (json_dumps E 2 (structure_to_json analysis_data))].
Proof.
  rewrite generate_cases. cbv zeta.
  destruct (llm E _ _) as [e|reply].
  - by destruct (is_JSONDecodeError e).
  - by destruct (json_loads E _).
Qed.

(** X25. What a request that succeeds asks of the model: one
    classification for every file of the clone that is submitted and has a
    text, in the order of submission, and then one generation, whose
    prompt carries the project name and the analysis; cloning, writing,
    archiving and cleaning up ask nothing. *)
Theorem requests_of_a_successful_call (E : env) (data : json) (w w' : world)
    (resp : response) :
  process_github E data w = (Ok resp, w') →
  ∃ url zip_path temp_clone_path w1 analysis,
    (∃ d, data = JDict d ∧ dict_lookup "githubUrl" d = Some (JStr url))
    ∧ clone_and_zip_repo E (JStr url) w = (Ok (Some (zip_path, temp_clone_path)), w1)
    ∧ (analyze_asp_project E temp_clone_path w1).1 = Ok analysis
    ∧ w_requests w'
      = w_requests w
        ++ map (λ fc, classification_prompt E fc.1 fc.2)
             (classified_files E (w_fs w1) temp_clone_path)
        ++ [generation_prompt (project_name_of url)
              (json_dumps E 2 (structure_to_json analysis))].
Proof.
  intros H.
  apply process_github_Ok in H
    as (d & github_url & tcp & name & mvc & w3 & -> & Hd & _ & Hg & Hdel).
  apply (stable_Ok same_requests) in Hdel; [|apply deliver_project_silent].
  unfold generate_project in Hg. inv_bind Hg.
  destruct a as [[zip_path c]|]; [|done].
  destruct (String.eqb zip_path EmptyString); [done|].
  pose proof (stable_Ok same_requests _ _ _ _ (clone_and_zip_repo_silent E github_url) Ha)
    as Hclone_req.
  inv_bind Hg. inv_bind Hg. destruct github_url; try done. injection Ha1 as <- <-.
  cbv zeta in Hg. inv_bind Hg. injection Hg as <- <- <- <-.
  destruct (analyze_asp_project_total E c w0) as (futs & ps & wr & _ & Han & _ & _ & _ & Hreq).
  rewrite Han in Ha0. injection Ha0 as <- <-.
  pose proof (generate_requests E ps (project_name_of s) 
                (World (w_fs wr) (w_console wr ++ future_lines futs)
                   (w_requests wr) (w_tmp wr))) as Hgen.
  rewrite Ha1 in Hgen. cbn [snd w_requests] in Hgen.
  exists s, zip_path, c, w0, ps. split; [eauto|]. split; [done|].
  split; [by rewrite Han|].
  rewrite Hdel, Hgen, Hreq, Hclone_req. by rewrite <- app_assoc.
Qed.

Lemma requests_of_a_successful_call_witness :
  let E := Demo.E (inr Demo.classification_reply)
             (inr (Demo.generation_reply "Controllers/HomeController.cs")) in
  length (w_requests (process_github E Demo.request Demo.w0).2) = 2%nat.
Proof.
  cbv zeta.
  set (E := Demo.E (inr Demo.classification_reply)
              (inr (Demo.generation_reply "Controllers/HomeController.cs"))).
  set (r := process_github E Demo.request Demo.w0).
  assert (Hr : r = (Ok (StreamingResponse
                          [("Controllers/HomeController.cs", "var app = 1;")]
                          "application/zip"
                          [("Content-Disposition",
                            "attachment; filename=shop_mvc_project.zip")]), r.2))
    by (vm_compute; reflexivity).
  destruct (requests_of_a_successful_call E Demo.request Demo.w0 r.2 _ Hr)
    as (url & zp & c & w1 & an & (d & Hd & Hurl) & Hclone & _ & ->).
  injection Hd as <-. injection Hurl as <-.
  assert (Hc : (clone_and_zip_repo E (JStr Demo.url) Demo.w0).1
               = Ok (Some ("/tmp/cloned_repo.zip", "/tmp/tmp0")))
    by (vm_compute; reflexivity).
  assert (Hw : w1 = (clone_and_zip_repo E (JStr Demo.url) Demo.w0).2) by by rewrite Hclone.
  rewrite Hclone in Hc. injection Hc as -> ->. subst w1.
  rewrite length_app, length_app, length_map. cbn [w_requests Demo.w0 length].
  assert (Hn : length (classified_files E
                         (w_fs (clone_and_zip_repo E (JStr Demo.url) Demo.w0).2) "/tmp/tmp0")
               = 1%nat) by (vm_compute; reflexivity).
  rewrite Hn. reflexivity.
Defined.

(** ** Keys that leave the project directory *)

(** X26. A key of the generated mapping that starts with a slash is
    written where it points, not below the project directory:
    [os.path.join] drops the directory in front of an absolute path, and
    nothing checks the keys.  When the write succeeds, the file at the key,
    read as an absolute path, holds the text of the value. *)
Theorem absolute_key_is_written_outside_the_project (E : env)
    (project_dir key : string) (content : json) (w w' : world) :
  Str.startswith "/" key = true →
  write_project_file E project_dir (key, content) w = (Ok tt, w') →
  file_bytes (w_fs w') key = Some (encode_utf8 E (file_text E content)).
Proof.
  intros Habs H. unfold write_project_file in H. cbn [fst snd] in H.
  assert (Hj : posixpath.join project_dir key = key)
    by (unfold posixpath.join; by rewrite Habs).
  rewrite Hj in H. inv_bind H. unfold open_write in H.
  destruct (String.eqb_spec key EmptyString) as [->|Hne]; [done|].
  unfold bind, get_fs, put_fs, raise in H. cbn [fst snd] in H.
  destruct (posixpath.components key) as [|c p] eqn:Hc; [done|].
  rewrite <- Hc in *.
  assert (Hp : posixpath.components key ≠ []) by by rewrite Hc.
  repeat case_match; try done; injection H as <-; cbn [w_fs];
    by apply file_bytes_insert.
Qed.

Lemma absolute_key_is_written_outside_the_project_witness :
  let E := Demo.E (inr EmptyString) (inr EmptyString) in
  file_bytes
    (w_fs (write_project_file E "/tmp/tmp1/shop" ("/home/user/.profile", JStr "exit") Demo.w0).2)
    "/home/user/.profile"
  = Some "exit".
Proof.
  cbv zeta.
  apply (absolute_key_is_written_outside_the_project
           (Demo.E (inr EmptyString) (inr EmptyString)) "/tmp/tmp1/shop"
           "/home/user/.profile" (JStr "exit") Demo.w0).
  - reflexivity.
  - vm_compute. reflexivity.
Defined.

(** ** The configuration *)

Lemma startswith_app_l p x y :
  Str.startswith p x = true → Str.startswith p (x +:+ y) = true.
Proof.
  intros [r ->]%startswith_inv. rewrite append_assoc. apply startswith_app.
Qed.

Lemma occurs_empty sep : sep ≠ EmptyString → occurs sep EmptyString = false.
Proof. by destruct sep. Qed.

(** The first piece of a split: the text before the first occurrence of
    the separator. *)
Lemma split_first_piece sep s :
  sep ≠ EmptyString →
  ∃ piece rest,
    str_split sep s = piece :: rest
    ∧ occurs sep piece = false
    ∧ (s = piece ∨ ∃ tail, s = piece +:+ sep +:+ tail).
Proof.
  intros Hsep. unfold str_split. induction s as [|c r (piece & rest & IH & Hocc & Hs)].
  - exists EmptyString, []. split; [done|]. split; [by apply occurs_empty | by left].
  - cbn [split_from]. destruct (Str.startswith sep (String c r)) eqn:Hst.
    + exists EmptyString. eexists. split; [done|]. split; [by apply occurs_empty|].
      right. apply startswith_inv in Hst as [tail ->]. by exists tail.
    + rewrite IH. exists (String c piece), rest. split; [done|]. split.
      * cbn [occurs]. rewrite Hocc, orb_false_r.
        destruct (Str.startswith sep (String c piece)) eqn:Hp; [|done].
        destruct Hs as [->|[tail ->]]; [congruence|].
        apply (startswith_app_l _ _ (sep +:+ tail)) in Hp.
        rewrite string_app_cons in Hp. congruence.
      * destruct Hs as [->|[tail ->]]; [by left|]. right. by exists tail.
Qed.

Lemma no_openai_across x tail :
  x ≠ EmptyString → Str.startswith "/openai" x = false →
  Str.startswith "/openai" (x +:+ "/openai" +:+ tail) = false.
Proof.
  destruct x as [|c1 [|c2 [|c3 [|c4 [|c5 [|c6 [|c7 r]]]]]]]; [done|..]; intros _ H.
  all: rewrite ?string_app_cons, ?string_app_nil.
  all: change ("/openai" +:+ tail)
         with (String "/" (String "o" (String "p" (String "e" (String "n"
                 (String "a" (String "i" tail))))))).
  all: cbn [Str.startswith] in *.
  all: try exact H.
  all: repeat match goal with
         | |- context [Ascii.eqb ?a "/"] =>
             change (Ascii.eqb a "/") with false
         end.
  all: by rewrite ?andb_false_r.
Qed.

Lemma split_cut base tail :
  occurs "/openai" base = false →
  ∃ rest, str_split "/openai" (base +:+ "/openai" +:+ tail) = base :: rest.
Proof.
  unfold str_split. induction base as [|c r IH].
  - intros _. rewrite string_app_nil.
    change ("/openai" +:+ tail) with (String "/" ("openai" +:+ tail)).
    cbn [split_from].
    change (String "/" ("openai" +:+ tail)) with ("/openai" +:+ tail).
    rewrite startswith_app. eauto.
  - cbn [occurs]. intros [Hst Hocc]%orb_false_elim.
    destruct (IH Hocc) as [rest Hrest].
    rewrite string_app_cons. cbn [split_from].
    rewrite <- string_app_cons, no_openai_across by done.
    rewrite Hrest. eauto.
Qed.

(** X27. The base address of the model is the value of [AZURE_ENDPOINT]
    up to its first [/openai]: a text in which [/openai] does not occur,
    which is the whole value or is followed by [/openai] in it; for a value
    that reads [base], [/openai] and more, where [/openai] does not occur
    in [base], it is [base].  When the variable is not set, the statement
    raises [AttributeError] and the module cannot be imported. *)
Theorem api_base_is_the_endpoint_before_openai (environ : list (string * string)) :
  match getenv environ "AZURE_ENDPOINT" with
  | None =>
      api_base environ
      = inl (PyErr AttributeError "'NoneType' object has no attribute 'split'")
  | Some endpoint =>
      (∃ base,
         api_base environ = inr base
         ∧ occurs "/openai" base = false
         ∧ (endpoint = base ∨ ∃ tail, endpoint = base +:+ "/openai" +:+ tail))
      ∧ (∀ base tail,
           endpoint = base +:+ "/openai" +:+ tail →
           occurs "/openai" base = false →
           api_base environ = inr base)
  end.
Proof.
  unfold api_base. destruct (getenv environ "AZURE_ENDPOINT") as [endpoint|]; [|done].
  split.
  - destruct (split_first_piece "/openai" endpoint) as (piece & rest & -> & Hocc & Hs);
      [done|].
    by exists piece.
  - intros base tail -> Hocc. by destruct (split_cut base tail Hocc) as [rest ->].
Qed.

Lemma api_base_is_the_endpoint_before_openai_witness :
  api_base [("AZURE_API_KEY", "secret");
            ("AZURE_ENDPOINT",
             "https://acme.openai.azure.com/openai/deployments/gpt-4o-001")]
  = inr "https://acme.openai.azure.com".
Proof.
  pose proof (api_base_is_the_endpoint_before_openai
                [("AZURE_API_KEY", "secret");
                 ("AZURE_ENDPOINT",
                  "https://acme.openai.azure.com/openai/deployments/gpt-4o-001")])
    as [_ H].
  apply (H "https://acme.openai.azure.com" "/deployments/gpt-4o-001"); reflexivity.
Defined.

(** ** The archive of a directory *)

Lemma fmap_fst_omap {A B C} (f : A → option (B * C)) (l : list A) :
  (omap f l).*1 = omap (λ x, fst <$> f x) l.
Proof.
  induction l as [|x l IH]; [done|]. cbn [omap list_omap].
  destruct (f x) as [[b c]|]; cbn; by rewrite ?IH.
Qed.

Section Archive_of_a_directory.

Variable E : env.

Lemma zip_write_all_reads top files : ∀ zipf w,
  (∀ rf, rf ∈ files → is_Some (file_bytes (w_fs w) (posixpath.join rf.1 rf.2))) →
  ∃ zb, zip_write_all E top files zipf w = (Ok zb, w).
Proof.
  induction files as [|[root file] files IH]; intros zipf w Hall.
  - by exists zipf.
  - cbn [zip_write_all]. cbv zeta.
    destruct (Hall (root, file)) as [data Hdata]; [by left|]. cbn [fst snd] in Hdata.
    rewrite (bind_eq_Ok _ _ _ _ _ (read_bytes_file E _ _ _ Hdata)).
    apply IH. intros rf Hrf. apply Hall. by right.
Qed.

(** The entries of the archive of [top], on a filesystem whose names
    below [top] are names. *)
Lemma zip_tree_entries top w :
  top ≠ EmptyString →
  (∀ rel n, w_fs w !! (posixpath.components top ++ rel) = Some n → Forall valid_name rel) →
  ∃ zb,
    zip_tree E top w = (Ok zb, w)
    ∧ zb = omap (λ kv, walk_entry top no_prune kv ≫= entry_of (w_fs w) top)
             (map_to_list (w_fs w))
    ∧ ∀ kv x,
        kv ∈ map_to_list (w_fs w) →
        walk_entry top no_prune kv ≫= entry_of (w_fs w) top = Some x →
        ∃ rel data,
          rel ≠ [] ∧ Forall valid_name rel
          ∧ kv = (posixpath.components top ++ rel, NFile data)
          ∧ x = (Str.join_slash rel, data).
Proof.
  intros Htop Hnames.
  assert (Hback : ∀ kv x,
            kv ∈ map_to_list (w_fs w) →
            walk_entry top no_prune kv ≫= entry_of (w_fs w) top = Some x →
            ∃ rel data,
              rel ≠ [] ∧ Forall valid_name rel
              ∧ kv = (posixpath.components top ++ rel, NFile data)
              ∧ x = (Str.join_slash rel, data)).
  { intros kv x Hin Hx.
    destruct (walk_entry top no_prune kv) as [rf|] eqn:Hwe; [|done].
    destruct (walk_entry_Some _ _ _ Hwe) as (data & rel & -> & Hrel).
    apply elem_of_map_to_list in Hin. pose proof (Hnames _ _ Hin) as Hvalid.
    exists rel, data. split; [done|]. split; [done|]. split; [done|].
    pose proof (archived_entry (w_fs w) top rel data Htop Hrel Hvalid Hin) as He.
    rewrite Hwe in He. congruence. }
  assert (Hread : ∃ zb, zip_tree E top w = (Ok zb, w)).
  { unfold zip_tree. unfold bind at 1. unfold get_fs at 1. cbv beta iota.
    apply zip_write_all_reads. intros rf Hrf. unfold walk in Hrf.
    apply String.eqb_neq in Htop. rewrite Htop in Hrf. apply String.eqb_neq in Htop.
    apply list_elem_of_omap in Hrf as (kv & Hkv & Hwe).
    destruct (walk_entry_Some _ _ _ Hwe) as (data & rel & -> & Hrel).
    apply elem_of_map_to_list in Hkv. pose proof (Hnames _ _ Hkv) as Hvalid.
    pose proof (archived_entry (w_fs w) top rel data Htop Hrel Hvalid Hkv) as He.
    rewrite Hwe in He. cbn [mbind option_bind] in He. unfold entry_of in He.
    destruct (file_bytes _ _); [eauto | done]. }
  destruct Hread as [zb Hzb]. exists zb. split; [done|]. split; [|done].
  by eapply zip_tree_Ok.
Qed.

End Archive_of_a_directory.

(** X28. The loop that fills an archive, written three times in the
    file, stores one entry for every regular file below the directory it
    walks and nothing else: the name of the entry is the chain of names from
    the directory down to the file, joined by slashes, its content the
    bytes of the file; no two entries have the same name; the loop itself
    changes nothing.  The names below the directory are taken to be names
    (not empty, not [.] or [..], without a slash). *)
Theorem archive_of_a_directory (E : env) (top : string) (w : world) :
  top ≠ EmptyString →
  (∀ rel n, w_fs w !! (posixpath.components top ++ rel) = Some n → Forall valid_name rel) →
  ∃ zb,
    zip_tree E top w = (Ok zb, w)
    ∧ NoDup zb.*1
    ∧ ∀ name data,
        (name, data) ∈ zb ↔
        ∃ rel, rel ≠ [] ∧ name = Str.join_slash rel
               ∧ w_fs w !! (posixpath.components top ++ rel) = Some (NFile data).
Proof.
  intros Htop Hnames.
  destruct (zip_tree_entries E top w Htop Hnames) as (zb & Hzip & -> & Hback).
  eexists. split; [exact Hzip|]. split.
  - rewrite fmap_fst_omap. apply NoDup_omap; [apply NoDup_map_to_list|].
    intros kv kv' name Hkv Hkv' Hx Hx'.
    destruct (walk_entry top no_prune kv ≫= entry_of (w_fs w) top) as [x|] eqn:Hf; [|done].
    destruct (walk_entry top no_prune kv' ≫= entry_of (w_fs w) top) as [x'|] eqn:Hf'; [|done].
    destruct (Hback kv x Hkv Hf) as (rel & data & Hne & Hv & -> & ->).
    destruct (Hback kv' x' Hkv' Hf') as (rel' & data' & Hne' & Hv' & -> & ->).
    cbn in Hx, Hx'. injection Hx as <-. injection Hx' as Hj.
    assert (rel' = rel) as ->.
    { rewrite <- (split_join_slash rel'), <- (split_join_slash rel), Hj;
        [done | done | | done |]; by apply valid_names_no_slash. }
    apply elem_of_map_to_list in Hkv, Hkv'. congruence.
  - intros name data. rewrite list_elem_of_omap. split.
    + intros (kv & Hkv & Hf).
      destruct (Hback kv _ Hkv Hf) as (rel & data' & Hne & Hv & -> & [= -> ->]).
      apply elem_of_map_to_list in Hkv. eauto.
    + intros (rel & Hne & -> & Hfile).
      exists (posixpath.components top ++ rel, NFile data).
      split; [by apply elem_of_map_to_list|].
      apply archived_entry; eauto.
Qed.

Lemma archive_of_a_directory_witness :
  ∃ zb,
    zip_tree (Demo.E (inr EmptyString) (inr EmptyString)) "/tmp/tmp0" Demo.w1
    = (Ok zb, Demo.w1)
    ∧ NoDup zb.*1
    ∧ ∀ name data,
        (name, data) ∈ zb ↔
        ∃ rel, rel ≠ [] ∧ name = Str.join_slash rel
               ∧ w_fs Demo.w1 !! (posixpath.components "/tmp/tmp0" ++ rel)
                 = Some (NFile data).
Proof.
  apply (archive_of_a_directory (Demo.E (inr EmptyString) (inr EmptyString))
           "/tmp/tmp0" Demo.w1).
  - discriminate.
  - intros rel n H. apply elem_of_map_to_list in H.
    set (l := map_to_list (w_fs Demo.w1)) in H. vm_compute in l. subst l.
    change (posixpath.components "/tmp/tmp0" ++ rel) with ("tmp" :: "tmp0" :: rel) in H.
    repeat (apply elem_of_cons in H as [H|H];
            [first [ discriminate H
                   | injection H as -> _;
                     repeat (constructor; [reflexivity|]); constructor ]|]).
    by apply elem_of_nil in H.
Defined.

(** ** The reply to the generation request *)

(** X29. The generation reads the fenced block of the reply and nothing
    around it: when the model answers with some text without a backtick,
    a block [```json ... ```] whose text holds no backtick, and anything
    after it, [generate_mvc_with_openai] returns the value [json.loads]
    gives for the braces and the text between them. *)
Theorem generation_reads_the_fenced_block (E : env)
    (analysis_data : list (string * list json)) (project_name : string)
    (pre ws inner ws' post : string) (v : json) (w : world) :
  llm E (length (w_requests w))
    (generation_prompt project_name (json_dumps E 2 (structure_to_json analysis_data)))
  = inr (pre +:+ fenced ws inner ws' +:+ post) →
  mentions backtick pre = false →
  mentions backtick inner = false →
  all_space ws = true → all_space ws' = true →
  json_loads E ("{" +:+ inner +:+ "}") = inr v →
  (generate_mvc_with_openai E analysis_data project_name w).1 = Ok v.
Proof.
  intros Hllm Hpre Hin Hws Hws' Hv. rewrite generate_cases. cbv zeta.
  rewrite Hllm. unfold json_text. rewrite re_search_json_fenced by done.
  by rewrite Hv.
Qed.

Lemma generation_reads_the_fenced_block_witness :
  let reply :=
    "Here is the project.
```json
" +:+ Demo.generation_reply "Program.cs" +:+ "
```
Let me know if you need more." in
  (generate_mvc_with_openai (Demo.E (inr EmptyString) (inr reply))
     initial_structure "shop" Demo.w1).1
  = Ok (Demo.generation_value "Program.cs").
Proof.
  cbv zeta.
  apply (generation_reads_the_fenced_block _ initial_structure "shop"
           "Here is the project.
" "
" (Demo.q "'Program.cs': 'var app = 1;'") "
" "
Let me know if you need more.").
  - vm_compute. reflexivity.
  - reflexivity.
  - reflexivity.
  - reflexivity.
  - reflexivity.
  - reflexivity.
Defined.

(** ** What a request leaves behind *)

Lemma same_outside_refl (S : path → Prop) (fs : filesystem) : same_outside S fs fs.
Proof. by intros p _. Qed.

Lemma same_outside_trans (S : path → Prop) (fs1 fs2 fs3 : filesystem) :
  same_outside S fs1 fs2 → same_outside S fs2 fs3 → same_outside S fs1 fs3.
Proof. intros H1 H2 p Hp. by rewrite H2, H1. Qed.

Lemma same_outside_mono (S S' : path → Prop) (fs fs' : filesystem) :
  (∀ p, S p → S' p) → same_outside S fs fs' → same_outside S' fs fs'.
Proof. intros HS H p Hp. apply H. intros Hs. by apply Hp, HS. Qed.

Lemma same_outside_insert (S : path → Prop) (fs : filesystem) (q : path) (n : node) :
  S q → same_outside S fs (<[q := n]> fs).
Proof. intros Hq p Hp. apply lookup_insert_ne. by intros ->. Qed.

Lemma under_snoc (cur p : path) (c : string) :
  under cur p = false → under (cur ++ [c]) p = false.
Proof.
  intros H. destruct (under (cur ++ [c]) p) eqn:Hu; [|done].
  apply under_spec in Hu as [rel ->]. rewrite <- app_assoc, under_app in H. done.
Qed.

(** Making directories below [cur] changes nothing outside [cur]. *)
Lemma mkdirs_outside (names : list string) : ∀ (cur : path) (fs : filesystem),
  same_outside (λ p, under cur p = true) fs (mkdirs cur names fs).2.
Proof.
  induction names as [|c names IH]; intros cur fs; cbn [mkdirs]; [apply same_outside_refl|].
  assert (Hsub : ∀ fs0, same_outside (λ p, under cur p = true) fs0
                          (mkdirs (cur ++ [c]) names fs0).2).
  { intros fs0. eapply same_outside_mono; [|apply IH].
    intros p Hp. cbn beta in *. destruct (under cur p) eqn:Hu; [done|].
    by rewrite under_snoc in Hp. }
  destruct (lookup_node fs (cur ++ [c])) as [[d|]|]; cbn [snd].
  - apply same_outside_refl.
  - apply Hsub.
  - eapply same_outside_trans; [|apply Hsub].
    apply same_outside_insert. apply under_app.
Qed.

(** The directories on the way to a directory of a well-formed filesystem. *)
Lemma ancestors_are_directories (fs : filesystem) (D : path) :
  fs_wf fs → lookup_node fs D = Some NDir →
  ∀ D1 D2, D = D1 ++ D2 → lookup_node fs D1 = Some NDir.
Proof.
  intros Hwf. induction D as [|c D IH] using rev_ind; intros HD D1 D2 Heq.
  - symmetry in Heq. apply app_eq_nil in Heq as [-> _]. done.
  - destruct D2 as [|c2 D2 _] using rev_ind.
    + rewrite app_nil_r in Heq. by subst D1.
    + rewrite app_assoc in Heq. apply app_inj_tail in Heq as [-> _].
      apply (λ H, IH H D1 D2 eq_refl).
      rewrite lookup_node_Some_dir in HD by by destruct (D1 ++ D2).
      apply Hwf in HD. cbn beta in HD. by rewrite removelast_snoc in HD.
Qed.

Lemma mkdirs_existing (D : list string) : ∀ (cur : path) (rest : list string)
    (fs : filesystem),
  (∀ D1 D2, D = D1 ++ D2 → lookup_node fs (cur ++ D1) = Some NDir) →
  mkdirs cur (D ++ rest) fs = mkdirs (cur ++ D) rest fs.
Proof.
  induction D as [|d D IH]; intros cur rest fs H.
  - by rewrite app_nil_r.
  - cbn [app mkdirs]. rewrite (H [d] D eq_refl).
    rewrite IH.
    + by rewrite <- app_assoc.
    + intros D1 D2 ->. rewrite <- app_assoc. by apply (H (d :: D1) D2).
Qed.

(** [makedirs] below a directory that exists changes nothing outside it. *)
Lemma makedirs_outside E (name : string) (D : path) (rest : list string) w w' :
  fs_wf (w_fs w) →
  lookup_node (w_fs w) D = Some NDir →
  posixpath.components name = D ++ rest →
  makedirs E name w = (Ok tt, w') →
  same_outside (λ p, under D p = true) (w_fs w) (w_fs w').
Proof.
  intros Hwf HD Hc H. apply makedirs_Ok in H as [-> _]. cbn [w_fs].
  rewrite Hc, mkdirs_existing.
  - apply mkdirs_outside.
  - intros D1 D2 ->. by eapply ancestors_are_directories.
Qed.

(** A clone writes below its directory only. *)
Lemma install_outside (tree : list (path * option string)) :
  ∀ (dest : path) (fs fs' : filesystem),
    install dest tree fs = Some fs' →
    same_outside (λ p, under dest p = true) fs fs'.
Proof.
  induction tree as [|[rel content] tree IH]; intros dest fs fs'; cbn [install].
  - intros [= <-]. apply same_outside_refl.
  - destruct (lookup_node fs dest) as [[d|]|]; [done| |done].
    destruct (forallb posixpath.valid_nameb rel); [|done].
    destruct content as [data|].
    + destruct rel as [|c rel]; [done|].
      pose proof (mkdirs_outside (removelast (c :: rel)) dest fs) as Hm.
      destruct (mkdirs dest (removelast (c :: rel)) fs) as [[err|] fs1]; [done|].
      cbn [snd] in Hm.
      assert (Hins : same_outside (λ p, under dest p = true) fs
                       (<[dest ++ c :: rel := NFile data]> fs1)).
      { eapply same_outside_trans; [exact Hm|].
        apply same_outside_insert. apply under_app. }
      destruct (fs1 !! (dest ++ c :: rel)) as [[d|]|]; [|done|];
        intros H; (eapply same_outside_trans; [exact Hins | by eapply IH]).
    + pose proof (mkdirs_outside rel dest fs) as Hm.
      destruct (mkdirs dest rel fs) as [[err|] fs1]; [done|]. cbn [snd] in Hm.
      intros H. eapply same_outside_trans; [exact Hm | by eapply IH].
Qed.

Section Net_effect.

Variable E : env.

Lemma git_clone_into_outside github_url dest w w' :
  git_clone_into E github_url dest w = (Ok tt, w') →
  same_outside (λ p, under (posixpath.components dest) p = true) (w_fs w) (w_fs w').
Proof.
  unfold git_clone_into. destruct github_url; try done.
  destruct (git_clone E s) as [e|tree]; [done|].
  unfold bind, get_fs, put_fs, raise.
  destruct (install (posixpath.components dest) tree (w_fs w)) as [fs'|] eqn:Hi; [|done].
  intros [= <-]. cbn [w_fs]. by eapply install_outside.
Qed.

Lemma print_world line r w w' :
  print line w = (r, w') → w_fs w' = w_fs w.
Proof. unfold print. by intros [= _ <-]. Qed.

(** The clone and its archive are all that [clone_and_zip_repo] writes. *)
Lemma clone_and_zip_repo_outside github_url zip_path temp_clone_path w w1 :
  clone_and_zip_repo E github_url w = (Ok (Some (zip_path, temp_clone_path)), w1) →
  same_outside (λ p, under (posixpath.components temp_clone_path) p = true
                     ∨ p = posixpath.components zip_path)
    (w_fs w) (w_fs w1).
Proof.
  set (S := λ p : path, under (posixpath.components temp_clone_path) p = true
                        ∨ p = posixpath.components zip_path).
  intros H.
  apply try_except_Ok in H as [H | (e & w2 & hm & _ & [= <-] & H)].
  2: { unfold bind, print, ret in H. discriminate H. }
  inv_bind H. rename a into tcp. rename w0 into wa.
  pose proof (mkdtemp_Ok E _ _ _ Ha) as (_ & Hc & _ & _ & ->). cbv zeta in Hc.
  inv_bind H. apply print_world in Ha0. cbn [w_fs] in Ha0.
  inv_bind H. destruct a0. apply git_clone_into_outside in Ha1. rewrite Ha0 in Ha1.
  inv_bind H. apply print_world in Ha2.
  inv_bind H. destruct a1. apply open_write_Ok in Ha3 as [Hw3 _].
  inv_bind H. apply zip_tree_world in Ha3.
  inv_bind H. destruct a2. apply open_write_Ok in Ha4 as [Hw5 _].
  inv_bind H. apply print_world in Ha4. injection H as <- <- <-.
  rewrite Ha4, Hw5. cbn [w_fs]. rewrite Ha3, Hw3. cbn [w_fs]. rewrite Ha2.
  eapply same_outside_trans; [|apply same_outside_insert; by right].
  eapply same_outside_trans; [|apply same_outside_insert; by right].
  eapply same_outside_trans.
  - apply (same_outside_insert S); left. rewrite Hc. apply under_refl.
  - eapply same_outside_mono; [|exact Ha1]. intros p Hp. by left.
Qed.

Lemma makedirs_is_directory name w w' :
  makedirs E name w = (Ok tt, w') →
  lookup_node (w_fs w') (posixpath.components name) = Some NDir.
Proof.
  intros H. apply makedirs_Ok in H as [-> Hnone]. cbn [w_fs].
  destruct (mkdirs [] (posixpath.components name) (w_fs w)) as [err fs'] eqn:Hm.
  cbn [fst snd] in *. subst err. by apply (mkdirs_dir _ [] _ _ eq_refl) in Hm.
Qed.

(** Writing the files of a mapping with keys in normal form changes
    nothing outside the project directory. *)
Lemma write_project_files_outside project_dir items : ∀ w w',
  fs_wf (w_fs w) →
  lookup_node (w_fs w) (posixpath.components project_dir) = Some NDir →
  Forall clean_key items.*1 →
  for_each items (write_project_file E project_dir) w = (Ok tt, w') →
  same_outside (λ p, under (posixpath.components project_dir) p = true)
    (w_fs w) (w_fs w').
Proof.
  induction items as [|item items IH]; intros w w' Hwf HQ Hclean H.
  - injection H as <-. apply same_outside_refl.
  - cbn [for_each] in H. inv_bind H. destruct a.
    apply Forall_cons in Hclean as [Hk Hclean].
    pose proof (stable_Ok grows _ _ _ _ (write_project_file_grows E project_dir item) Ha)
      as (Hwf0 & Hdirs0 & _).
    eapply same_outside_trans; [|apply (IH w0); auto].
    unfold write_project_file in Ha. inv_bind Ha. destruct a.
    pose proof (stable_Ok grows _ _ _ _ (makedirs_grows E _) Ha0) as (Hwf1 & _ & _).
    eapply makedirs_outside in Ha0; [| done | exact HQ | by apply components_dirname_join].
    apply open_write_Ok in Ha as [-> _]. cbn [w_fs].
    eapply same_outside_trans; [exact Ha0|].
    apply same_outside_insert. rewrite components_join_key by done. apply under_app.
Qed.

Lemma rmtree_outside p w w' :
  rmtree E p w = (Ok tt, w') →
  lookup_node (w_fs w) (posixpath.components p) = Some NDir →
  same_outside (λ q, under (posixpath.components p) q = true) (w_fs w) (w_fs w').
Proof.
  intros H Hdir. apply rmtree_Ok in H as ->; [|done]. cbn [w_fs].
  intros q Hq. apply removed_other. by destruct (under _ q).
Qed.

(** The second half of a request changes nothing outside the clone
    directory, the output directory and the copy it saves. *)
Lemma deliver_project_outside (c : string) temp_clone_path project_name mapping
    resp w w' :
  posixpath.components temp_clone_path = posixpath.components (tempdir E) ++ [c] →
  temp_clone_path ≠ EmptyString →
  lookup_node (w_fs w) (posixpath.components temp_clone_path) = Some NDir →
  fs_wf (w_fs w) →
  Str.has_slash project_name = false →
  project_name ≠ ".." →
  Forall clean_key mapping.*1 →
  deliver_project E temp_clone_path project_name (JDict mapping) w = (Ok resp, w') →
  same_outside
    (λ p, under (posixpath.components temp_clone_path) p = true
          ∨ under (posixpath.components (tmp_path E (w_tmp w))) p = true
          ∨ p = posixpath.components
                  (posixpath.join (downloads_folder E) (project_name +:+ ".zip")))
    (w_fs w) (w_fs w').
Proof.
  intros Hshape Hnonempty Hclone Hwf Hslash Hname Hclean H.
  unfold deliver_project in H.
  inv_bind H. rename a into output_dir. rename w0 into wa.
  destruct (mkdtemp_Ok_grows E _ _ _ Ha) as (Hwfa & Hdirs & Hout & _).
  pose proof (mkdtemp_Ok E _ _ _ Ha) as (Hd & Hc & Hfree & _ & Hwa).
  cbv zeta in Hc, Hfree, Hwa. specialize (Hwfa Hwf). rewrite <- Hd.
  set (S := λ p : path,
         under (posixpath.components temp_clone_path) p = true
         ∨ under (posixpath.components output_dir) p = true
         ∨ p = posixpath.components
                 (posixpath.join (downloads_folder E) (project_name +:+ ".zip"))).
  assert (Hab : c ≠ "tmp" +:+ tmp_suffix E (w_tmp w)).
  { intros ->. rewrite Hshape, lookup_node_Some_dir in Hclone
      by by destruct (posixpath.components (tempdir E)).
    congruence. }
  assert (Hout_ne : output_dir ≠ EmptyString) by (rewrite Hd; apply tmp_path_nonempty).
  assert (Hstep0 : same_outside S (w_fs w) (w_fs wa)).
  { rewrite Hwa. cbn [w_fs]. apply same_outside_insert. right. left.
    rewrite Hc. apply under_refl. }
  apply Hdirs in Hclone. clear Hdirs. cbv zeta in H.
  set (project_dir := posixpath.join output_dir project_name) in *.
  assert (HQ : under (posixpath.components output_dir) (posixpath.components project_dir)
               = true).
  { unfold project_dir. rewrite components_join_segment by done. by apply step_under. }
  assert (HSQ : ∀ p, under (posixpath.components project_dir) p = true → S p).
  { intros p Hp. right. left. by eapply under_trans. }
  assert (HSO : ∀ p, under (posixpath.components output_dir) p = true → S p).
  { intros p Hp. right. by left. }
  inv_bind H. destruct a.
  pose proof (stable_Ok grows _ _ _ _ (makedirs_grows E _) Ha0) as (Hwf0 & Hdirs0 & _).
  pose proof (makedirs_is_directory _ _ _ Ha0) as HQdir.
  apply under_spec in HQ as [rest HQ].
  eapply makedirs_outside in Ha0; [| exact Hwfa | exact Hout | exact HQ].
  assert (Hstep1 : same_outside S (w_fs w) (w_fs w0)).
  { eapply same_outside_trans; [exact Hstep0|].
    eapply same_outside_mono; [exact HSO | exact Ha0]. }
  inv_bind H. injection Ha1 as <- <-.
  inv_bind H. destruct a.
  pose proof (stable_Ok grows _ _ _ _
                (stable_for_each grows grows_refl grows_trans _ _
                   (write_project_file_grows E project_dir)) Ha1)
    as (Hwf1 & Hdirs1 & _).
  apply write_project_files_outside in Ha1; [| auto | done | done].
  assert (Hstep2 : same_outside S (w_fs w) (w_fs w1)).
  { eapply same_outside_trans; [exact Hstep1|].
    eapply same_outside_mono; [exact HSQ | exact Ha1]. }
  inv_bind H. apply zip_tree_world in Ha2 as ->.
  inv_bind H. unfold save_zip_to_downloads in Ha2. inv_bind Ha2.
  apply zip_tree_world in Ha3 as ->.
  cbv zeta in Ha2. inv_bind Ha2. destruct a2.
  apply open_write_Ok in Ha3 as [-> Hnd]. unfold print in Ha2. injection Ha2 as _ <-.
  set (zp := posixpath.components
               (posixpath.join (downloads_folder E) (project_name +:+ ".zip"))) in *.
  assert (Hclone1 : lookup_node (w_fs w1) (posixpath.components temp_clone_path)
                    = Some NDir) by auto.
  assert (Hout1 : lookup_node (w_fs w1) (posixpath.components output_dir) = Some NDir)
    by auto.
  assert (Hstep3 : same_outside S (w_fs w) (<[zp := NFile (zip_bytes E a1)]> (w_fs w1))).
  { eapply same_outside_trans; [exact Hstep2|].
    apply same_outside_insert. right. by right. }
  assert (Hkeep : ∀ q : path, q ≠ [] → lookup_node (w_fs w1) q = Some NDir →
            lookup_node (<[zp := NFile (zip_bytes E a1)]> (w_fs w1)) q = Some NDir).
  { intros q Hq Hdir. rewrite lookup_node_Some_dir in * by done.
    destruct (decide (zp = q)) as [<-|Hne]; [done | by rewrite lookup_insert_ne]. }
  assert (HC_ne : posixpath.components temp_clone_path ≠ [])
    by (rewrite Hshape; by destruct (posixpath.components (tempdir E))).
  assert (HO_ne : posixpath.components output_dir ≠ [])
    by (rewrite Hc; by destruct (posixpath.components (tempdir E))).
  pose proof (Hkeep _ HC_ne Hclone1) as Hclone2.
  pose proof (Hkeep _ HO_ne Hout1) as Hout2.
  inv_bind H. unfold path_exists, bind, get_fs, ret in Ha2. cbn [w_fs] in Ha2.
  rewrite Hclone2 in Ha2.
  apply String.eqb_neq in Hnonempty. rewrite Hnonempty in Ha2.
  apply String.eqb_neq in Hnonempty.
  injection Ha2 as <- <-. cbn [negb andb] in H.
  inv_bind H.
  match goal with
  | Hx : rmtree _ _ _ = (Ok ?u, _) |- _ => destruct u; rename Hx into Hrm1
  end.
  pose proof (rmtree_Ok E _ _ _ Hrm1 Hclone2) as Hw3.
  apply rmtree_outside in Hrm1; [|exact Hclone2]. cbn [w_fs] in Hrm1.
  inv_bind H.
  match goal with
  | Hx : rmtree _ _ _ = (Ok ?u, _) |- _ => destruct u; rename Hx into Hrm2
  end.
  apply rmtree_outside in Hrm2.
  - injection H as _ <-.
    eapply same_outside_trans; [exact Hstep3|].
    eapply same_outside_trans.
    + eapply same_outside_mono; [|exact Hrm1]. intros p Hp. by left.
    + eapply same_outside_mono; [|exact Hrm2]. intros p Hp. right. by left.
  - rewrite Hw3. cbn [w_fs]. rewrite lookup_node_Some_dir by done.
    rewrite removed_other
      by (rewrite Hshape, Hc; by apply siblings_not_under).
    by rewrite lookup_node_Some_dir in Hout2 by done.
Qed.


End Net_effect.

Lemma clone_and_zip_repo_fresh E github_url zip_path temp_clone_path w w1 :
  clone_and_zip_repo E github_url w = (Ok (Some (zip_path, temp_clone_path)), w1) →
  w_fs w !! posixpath.components temp_clone_path = None.
Proof.
  intros H.
  apply try_except_Ok in H as [H | (e & w2 & hm & _ & [= <-] & H)].
  2: { unfold bind, print, ret in H. discriminate H. }
  inv_bind H. pose proof (mkdtemp_Ok E _ _ _ Ha) as (_ & Hc & Hfree & _).
  cbv zeta in Hc, Hfree. do 7 inv_bind H. injection H as _ <- _. by rewrite Hc.
Qed.

Lemma deliver_project_fresh E temp_clone_path project_name mvc_content resp w w' :
  deliver_project E temp_clone_path project_name mvc_content w = (Ok resp, w') →
  w_fs w !! posixpath.components (tmp_path E (w_tmp w)) = None
  ∧ posixpath.components (tmp_path E (w_tmp w)) ≠ [].
Proof.
  unfold deliver_project. intros H. inv_bind H.
  pose proof (mkdtemp_Ok E _ _ _ Ha) as (-> & Hc & Hfree & _).
  cbv zeta in Hc, Hfree. rewrite Hc. split; [done|].
  by destruct (posixpath.components (tempdir E)).
Qed.

(** X30. What a request that succeeds leaves behind.  When the filesystem
    is well formed, the project name is not [..] and the keys of the
    generated mapping are relative paths in normal form, the filesystem
    after the response differs from the one before the request in two
    places at most: the archive of the clone in the temporary directory
    and the copy of the result in the Downloads folder.  Everything else
    -- every other file with its bytes, every directory, and the absence
    of everything that was absent -- is as it was. *)
Theorem successful_request_changes_two_files (E : env) (data : json) (w w' : world)
    (resp : response) :
  process_github E data w = (Ok resp, w') →
  fs_wf (w_fs w) →
  ∃ url mapping w1,
    (∃ d, data = JDict d ∧ dict_lookup "githubUrl" d = Some (JStr url))
    ∧ generate_project E (JStr url) w
      = (Ok (tmp_path E (w_tmp w), project_name_of url, JDict mapping), w1)
    ∧ (project_name_of url ≠ ".." →
       Forall clean_key mapping.*1 →
       ∀ p,
         p ≠ posixpath.components (posixpath.join (tempdir E) "cloned_repo.zip") →
         p ≠ posixpath.components
               (posixpath.join (downloads_folder E) (project_name_of url +:+ ".zip")) →
         w_fs w' !! p = w_fs w !! p).
Proof.
  intros H Hwf.
  apply process_github_Ok in H
    as (d & url & tcp & name & mvc & w1 & -> & Hd & _ & Hg & Hdel).
  pose proof (generate_project_Ok E _ _ _ _ _ _ Hg)
    as (s & -> & -> & -> & Hshape & Hwf1 & _ & Hdir & Htmp).
  destruct (deliver_project_items E _ _ _ _ _ _ Hdel) as [mapping ->].
  exists s, mapping, w1. split; [eauto|]. split; [done|].
  intros Hname Hclean p HpZ HpY.
  set (C := posixpath.components (tmp_path E (w_tmp w))) in *.
  set (O := posixpath.components (tmp_path E (w_tmp w1))).
  (* the first half: the clone, then nothing *)
  assert (Hfirst : w_fs w !! C = None
                   ∧ same_outside
                       (λ q, under C q = true
                             ∨ q = posixpath.components
                                     (posixpath.join (tempdir E) "cloned_repo.zip"))
                       (w_fs w) (w_fs w1)).
  { unfold generate_project in Hg. inv_bind Hg.
    destruct a as [[zip_path c]|]; [|done].
    destruct (String.eqb zip_path EmptyString); [done|].
    pose proof (clone_and_zip_repo_Ok E _ _ _ _ _ Ha) as (Hc & _ & Hz & _).
    pose proof (clone_and_zip_repo_fresh E _ _ _ _ _ Ha) as Hfresh.
    apply clone_and_zip_repo_outside in Ha. subst c zip_path.
    apply (stable_Ok same_fs) in Hg; [|frame_auto]. destruct Hg as [Hfs _].
    by rewrite Hfs. }
  destruct Hfirst as [HfreshC Hfirst].
  (* the second half *)
  pose proof (deliver_project_fresh E _ _ _ _ _ _ Hdel) as [HfreshO HO_ne].
  fold O in HfreshO, HO_ne.
  pose proof (deliver_project_cleans E _ _ _ _ _ _ _ Hshape (tmp_path_nonempty E _)
                Hdir Hdel) as [_ Hgone].
  fold C O in Hgone.
  pose proof (deliver_project_outside E _ _ _ _ _ _ _ Hshape (tmp_path_nonempty E _)
                Hdir (Hwf1 Hwf) (project_name_no_slash s) Hname Hclean Hdel) as Hsecond.
  fold C O in Hsecond.
  assert (HC_ne : C ≠ [])
    by (rewrite Hshape; by destruct (posixpath.components (tempdir E))).
  destruct (under C p) eqn:HuC.
  { rewrite Hgone by by left. symmetry. by eapply fs_wf_fresh. }
  assert (Hw1 : w_fs w1 !! p = w_fs w !! p).
  { apply Hfirst. intros [?|?]; [congruence | done]. }
  destruct (under O p) eqn:HuO.
  { rewrite Hgone by by right. rewrite <- Hw1. symmetry.
    by eapply (fs_wf_fresh _ O); [apply Hwf1 | | |]. }
  rewrite <- Hw1. apply Hsecond. intros [?|[?|?]]; congruence.
Qed.

Lemma successful_request_changes_two_files_witness :
  let E := Demo.E (inr Demo.classification_reply)
             (inr (Demo.generation_reply "Controllers/HomeController.cs")) in
  let w' := (process_github E Demo.request Demo.w0).2 in
  w_fs w' !! ["home"; "user"; "Downloads"] = w_fs Demo.w0 !! ["home"; "user"; "Downloads"]
  ∧ w_fs w' !! ["tmp"; "tmp0"; "index.asp"] = w_fs Demo.w0 !! ["tmp"; "tmp0"; "index.asp"]
  ∧ w_fs w' !! ["tmp"; "tmp1"; "shop"] = w_fs Demo.w0 !! ["tmp"; "tmp1"; "shop"].
Proof.
  cbv zeta.
  set (E := Demo.E (inr Demo.classification_reply)
              (inr (Demo.generation_reply "Controllers/HomeController.cs"))).
  set (r := process_github E Demo.request Demo.w0).
  assert (Hr : r = (Ok (StreamingResponse
                          [("Controllers/HomeController.cs", "var app = 1;")]
                          "application/zip"
                          [("Content-Disposition",
                            "attachment; filename=shop_mvc_project.zip")]), r.2))
    by (vm_compute; reflexivity).
  destruct (successful_request_changes_two_files E Demo.request Demo.w0 r.2 _ Hr demo_fs_wf)
    as (url & mapping & w1 & (d & Hd & Hurl) & Hg & Hsame).
  injection Hd as <-. injection Hurl as <-.
  assert (Hm : mapping = [("Controllers/HomeController.cs", JStr "var app = 1;")]).
  { assert (Hv : (generate_project E (JStr Demo.url) Demo.w0).1
                 = Ok ("/tmp/tmp0", "shop",
                       JDict [("Controllers/HomeController.cs", JStr "var app = 1;")]))
      by (vm_compute; reflexivity).
    rewrite Hg in Hv. cbn [fst] in Hv. congruence. }
  subst mapping.
  repeat split; apply Hsame;
    solve [ vm_compute; discriminate | repeat constructor ].
Defined.
